(** * Credit-metrics warehouse: SQL procedures, views and Cube measures

    A shallow embedding of the warehouse's SQL (schema script, rollup
    procedures, reporting view, quality validator) and of the SQL fragments of
    the Cube schemas [CreditMetrics] and [CreditMetricsCalculated].

    Conventions.
    - A nullable numeric expression is an [option Q]: [None] is SQL NULL, and
      the arithmetic of exact-value numbers (sums, differences, products,
      quotients, means) is taken exact.
    - A condition is three-valued ([option bool]); a CASE arm or a WHERE
      clause fires only when its condition is [Some true].
    - A stored DECIMAL(p,s) cell is the integer count of 10^-s units
      (origination_amt 1234.50 is 123450); a stored BIGINT is a [Z].  A value
      is rounded to the column's scale when it is stored.
    - A VARCHAR value stands for its class under the column collation.
    - The server runs in strict SQL mode with autocommit on, its defaults. *)

From Stdlib Require Import ZArith QArith Qround List String Bool Lia Lqa.
From Stdlib Require Import Sorting.Permutation Sorting.Sorted.
Import ListNotations.

Local Open Scope Z_scope.

(* ------------------------------------------------------------------ *)
(** ** SQL values *)

Module Sql.

Definition num := option Q.
Definition tri := option bool.

(** Equality of nullable numbers up to the representation of a fraction. *)
Definition num_eq (a b : num) : Prop :=
  match a, b with
  | None, None => True
  | Some x, Some y => (x == y)%Q
  | _, _ => False
  end.

Definition Qlt_bool (x y : Q) : bool := negb (Qle_bool y x).

Definition lift2 (f : Q -> Q -> Q) (a b : num) : num :=
  match a, b with
  | Some x, Some y => Some (f x y)
  | _, _ => None
  end.

Definition cmp2 (f : Q -> Q -> bool) (a b : num) : tri :=
  match a, b with
  | Some x, Some y => Some (f x y)
  | _, _ => None
  end.

Definition sub := lift2 Qminus.
Definition mul := lift2 Qmult.

(** [a / b]: NULL when an operand is NULL or the divisor is zero. *)
Definition div (a b : num) : num :=
  match a, b with
  | Some x, Some y => if Qeq_bool y 0 then None else Some (x / y)%Q
  | _, _ => None
  end.

Definition gt := cmp2 (fun x y => Qlt_bool y x).
Definition lt := cmp2 Qlt_bool.
Definition le := cmp2 Qle_bool.
Definition ge := cmp2 (fun x y => Qle_bool y x).

Definition and3 (a b : tri) : tri :=
  match a, b with
  | Some false, _ | _, Some false => Some false
  | Some true, Some true => Some true
  | _, _ => None
  end.

Definition or3 (a b : tri) : tri :=
  match a, b with
  | Some true, _ | _, Some true => Some true
  | Some false, Some false => Some false
  | _, _ => None
  end.

(** [x BETWEEN lo AND hi] is [x >= lo AND x <= hi]. *)
Definition between (x lo hi : num) : tri := and3 (ge x lo) (le x hi).

Definition is_null {A} (a : option A) : bool :=
  match a with None => true | Some _ => false end.

(** A WHEN arm or WHERE clause is taken only on TRUE. *)
Definition holds (c : tri) : bool :=
  match c with Some true => true | _ => false end.

Definition coalesce (a : num) (d : Q) : num :=
  match a with Some x => Some x | None => Some d end.

Definition lit (q : Q) : num := Some q.

(** Aggregates skip NULLs; over no non-NULL value SUM and AVG are NULL. *)
Definition non_null {A} (l : list (option A)) : list A :=
  flat_map (fun o => match o with Some x => [x] | None => [] end) l.

Definition Qsum (l : list Q) : Q := fold_right Qplus 0%Q l.

Definition SUM (l : list num) : num :=
  match non_null l with
  | [] => None
  | v => Some (Qsum v)
  end.

Definition AVG (l : list num) : num :=
  match non_null l with
  | [] => None
  | v => Some (Qsum v / inject_Z (Z.of_nat (List.length v)))%Q
  end.

Definition COUNT_star {A} (l : list A) : Z := Z.of_nat (List.length l).

Definition Qleast (x y : Q) : Q := if Qle_bool x y then x else y.
Definition Qmost (x y : Q) : Q := if Qle_bool x y then y else x.

Definition MIN (l : list num) : num :=
  match non_null l with
  | [] => None
  | x :: v => Some (fold_right Qleast x v)
  end.

Definition MAX (l : list num) : num :=
  match non_null l with
  | [] => None
  | x :: v => Some (fold_right Qmost x v)
  end.

(** Errors a statement can raise. *)
Inductive sql_error :=
| ER_BAD_NULL_ERROR (column : string)          (* a NULL for a NOT NULL column *)
| ER_WARN_DATA_OUT_OF_RANGE (column : string)  (* value outside the column type *)
| ER_DUP_ENTRY (key : string)                  (* duplicate primary or unique key *)
| ER_DUP_FIELDNAME (column : string)
| ER_BAD_FIELD_ERROR (column : string)
| ER_DUP_KEYNAME (key : string)
| ER_KEY_COLUMN_DOES_NOT_EXIST (column : string)
| ER_PRIMARY_CANT_HAVE_NULL
| ER_WINDOW_INVALID_WINDOW_FUNC_USE (fn : string)  (* a window function where none is allowed *)
| ER_ENGINE (code : Z).                        (* raised by the storage engine *)

Inductive result (A : Type) :=
| Ok (a : A)
| Err (e : sql_error).
Arguments Ok {A} a.
Arguments Err {A} e.

Definition rbind {A B} (r : result A) (k : A -> result B) : result B :=
  match r with
  | Ok a => k a
  | Err e => Err e
  end.

Fixpoint rmap {A B} (fn : A -> result B) (l : list A) : result (list B) :=
  match l with
  | [] => Ok []
  | a :: l' =>
      rbind (fn a) (fun b => rbind (rmap fn l') (fun bs => Ok (b :: bs)))
  end.

(** Storing an exact value in a column rounds it half away from zero to the
    column's scale; under strict SQL mode a value outside the column's range
    and a NULL for a NOT NULL column are errors. *)
Definition round_half_away (q : Q) : Z :=
  if Qle_bool 0 q then Qfloor (q + (1 # 2))%Q else (- Qfloor (- q + (1 # 2))%Q)%Z.

Definition store_decimal (column : string) (digits scale : Z) (v : num)
    : result (option Z) :=
  match v with
  | None => Ok None
  | Some q =>
      let m := round_half_away (q * inject_Z (10 ^ scale))%Q in
      if (Z.abs m <? 10 ^ digits)%Z then Ok (Some m)
      else Err (ER_WARN_DATA_OUT_OF_RANGE column)
  end.

Definition store_bigint (column : string) (v : num) : result (option Z) :=
  match v with
  | None => Ok None
  | Some q =>
      let m := round_half_away q in
      if ((- 2 ^ 63 <=? m) && (m <? 2 ^ 63))%Z then Ok (Some m)
      else Err (ER_WARN_DATA_OUT_OF_RANGE column)
  end.

Definition store_not_null {A} (column : string) (v : option A) : result A :=
  match v with
  | Some a => Ok a
  | None => Err (ER_BAD_NULL_ERROR column)
  end.

(** GROUP BY: the distinct keys (NULLs form one group) and their rows. *)
Fixpoint distinct {K} (eqb : K -> K -> bool) (l : list K) : list K :=
  match l with
  | [] => []
  | k :: l' => if existsb (eqb k) l' then distinct eqb l' else k :: distinct eqb l'
  end.

Definition group_by {K R} (eqb : K -> K -> bool) (key : R -> K) (rows : list R)
    : list (K * list R) :=
  map (fun k => (k, filter (fun r => eqb (key r) k) rows))
      (distinct eqb (map key rows)).

Definition varchar_eqb (a b : option string) : bool :=
  match a, b with
  | None, None => true
  | Some x, Some y => String.eqb x y
  | _, _ => false
  end.

End Sql.

(* ------------------------------------------------------------------ *)
(** ** The star schema ([fact_credit_metrics_qtr] and its dimensions) *)

Module Warehouse.
Import Sql.

(** A DATE as its day number (TO_DAYS). *)
Definition date := Z.

Record dim_date_qtr := {
  d_quarter_key   : Z;       (* INT PRIMARY KEY *)
  d_year          : Z;       (* SMALLINT NOT NULL *)
  d_quarter       : Z;       (* TINYINT NOT NULL *)
  d_quarter_start : date;    (* DATE NOT NULL *)
  d_quarter_end   : date     (* DATE NOT NULL *)
}.

Record dim_geo := {
  g_geo_key        : Z;              (* INT PRIMARY KEY *)
  g_country        : option string;  (* VARCHAR(80) *)
  g_state_province : option string;
  g_city           : option string
}.

Record dim_product := {
  p_product_key  : Z;               (* INT PRIMARY KEY *)
  p_product_code : option string;
  p_product_type : option string;
  p_segment      : option string
}.

Record fact_credit_metrics_qtr := {
  f_quarter_key : Z;                (* INT NOT NULL *)
  f_geo_key     : Z;                (* INT NOT NULL *)
  f_product_key : Z;                (* INT NOT NULL *)
  f_originations_cnt : option Z;    (* BIGINT NULL *)
  f_origination_amt  : option Z;    (* DECIMAL(18,2) NULL, hundredths *)
  f_balance_amt      : option Z;    (* DECIMAL(18,2) NULL, hundredths *)
  f_default_rate     : option Z;    (* DECIMAL(9,4) NULL, ten-thousandths *)
  f_prime_rate       : option Z;    (* DECIMAL(9,4) NULL *)
  f_lending_rate     : option Z     (* DECIMAL(9,4) NULL *)
}.

(** Reading a stored cell as a number. *)
Definition of_bigint (c : option Z) : num := option_map inject_Z c.
Definition of_decimal (scale : Z) (c : option Z) : num :=
  option_map (fun m => (inject_Z m / inject_Z (10 ^ scale))%Q) c.

Definition originations_cnt f := of_bigint (f_originations_cnt f).
Definition origination_amt f := of_decimal 2 (f_origination_amt f).
Definition balance_amt f := of_decimal 2 (f_balance_amt f).
Definition default_rate f := of_decimal 4 (f_default_rate f).
Definition prime_rate f := of_decimal 4 (f_prime_rate f).
Definition lending_rate f := of_decimal 4 (f_lending_rate f).

(** The grain: PRIMARY KEY (quarter_key, geo_key, product_key). *)
Definition grain (f : fact_credit_metrics_qtr) : Z * Z * Z :=
  (f_quarter_key f, f_geo_key f, f_product_key f).

Definition grain_unique (T : list fact_credit_metrics_qtr) : Prop :=
  NoDup (map grain T).

(** One row of
    [fact f JOIN dim_date_qtr d JOIN dim_geo g JOIN dim_product p]. *)
Record joined := {
  f : fact_credit_metrics_qtr;
  d : dim_date_qtr;
  g : dim_geo;
  p : dim_product
}.

Definition star_join (F : list fact_credit_metrics_qtr) (D : list dim_date_qtr)
    (G : list dim_geo) (P : list dim_product) : list joined :=
  flat_map (fun f0 =>
    flat_map (fun d0 =>
      flat_map (fun g0 =>
        map (fun p0 => {| f := f0; d := d0; g := g0; p := p0 |})
            (filter (fun p0 => f_product_key f0 =? p_product_key p0) P))
        (filter (fun g0 => f_geo_key f0 =? g_geo_key g0) G))
      (filter (fun d0 => f_quarter_key f0 =? d_quarter_key d0) D))
    F.

End Warehouse.

(* ------------------------------------------------------------------ *)
(** ** Cube schema [CreditMetrics] and [CreditMetricsCalculated]:
       row-level expressions *)

Module Cube.
Import Sql Warehouse.
Local Open Scope string_scope.

(** [CreditMetrics.riskCategory]. *)
Definition riskCategory (default_rate : num) : string :=
  if holds (gt default_rate (lit 0.05)) then "High Risk"
  else if holds (between default_rate (lit 0.02) (lit 0.05)) then "Medium Risk"
  else if holds (lt default_rate (lit 0.02)) then "Low Risk"
  else "Unknown".

(** [CreditMetricsCalculated.riskCategoryDetailed]. *)
Definition riskCategoryDetailed (default_rate : num) : string :=
  if holds (gt default_rate (lit 0.10)) then "Critical Risk"
  else if holds (gt default_rate (lit 0.05)) then "High Risk"
  else if holds (between default_rate (lit 0.03) (lit 0.05)) then "Medium-High Risk"
  else if holds (between default_rate (lit 0.02) (lit 0.03)) then "Medium Risk"
  else if holds (between default_rate (lit 0.01) (lit 0.02)) then "Low-Medium Risk"
  else if holds (lt default_rate (lit 0.01)) then "Low Risk"
  else "Unknown".

(** [CreditMetricsCalculated.portfolioHealthScore]. *)
Definition portfolioHealthScore (default_rate : num) : num :=
  if holds (le default_rate (lit 0.02)) then lit 100
  else if holds (le default_rate (lit 0.05))
       then sub (lit 80) (mul (sub default_rate (lit 0.02)) (lit 1000))
  else if holds (le default_rate (lit 0.10))
       then sub (lit 50) (mul (sub default_rate (lit 0.05)) (lit 1000))
  else lit 0.

(** [CreditMetrics.averageOriginationPerAccount] and
    [CreditMetrics.balanceToOriginationRatio]. *)
Definition averageOriginationPerAccount (r : fact_credit_metrics_qtr) : num :=
  div (origination_amt r) (originations_cnt r).

Definition balanceToOriginationRatio (r : fact_credit_metrics_qtr) : num :=
  div (balance_amt r) (origination_amt r).

(** The cube's relation: [SELECT * FROM fact_credit_metrics_qtr]. *)
Definition cube := list fact_credit_metrics_qtr.

(** *** The window [PARTITION BY geo_key, product_key ORDER BY quarter_key] *)

Fixpoint insert_by_quarter_key (x : fact_credit_metrics_qtr) (l : cube) : cube :=
  match l with
  | [] => [x]
  | y :: l' =>
      if (f_quarter_key x <=? f_quarter_key y)%Z then x :: l
      else y :: insert_by_quarter_key x l'
  end.

Definition order_by_quarter_key (l : cube) : cube :=
  fold_right insert_by_quarter_key [] l.

Definition same_partition (r x : fact_credit_metrics_qtr) : bool :=
  ((f_geo_key x =? f_geo_key r) && (f_product_key x =? f_product_key r))%Z.

Definition window (T : cube) (r : fact_credit_metrics_qtr) : cube :=
  order_by_quarter_key (filter (same_partition r) T).

(** Number of rows of the window ordered before [r]; the primary key of the
    fact table leaves no two rows of a partition with one quarter_key. *)
Definition rows_before (W : cube) (r : fact_credit_metrics_qtr) : nat :=
  List.length (filter (fun x => (f_quarter_key x <? f_quarter_key r)%Z) W).

(** [LAG(e, n) OVER (PARTITION BY geo_key, product_key ORDER BY quarter_key)]
    at row [r]: [e] on the row [n] positions earlier, NULL when there is none. *)
Definition LAG (e : fact_credit_metrics_qtr -> num) (n : nat)
    (T : cube) (r : fact_credit_metrics_qtr) : num :=
  let W := window T r in
  let i := rows_before W r in
  if (n <=? i)%nat then
    match nth_error W (i - n) with
    | Some x => e x
    | None => None
    end
  else None.

(** [SELECT agg(origination_amt) FROM fact_credit_metrics_qtr
     WHERE quarter_key = r.quarter_key]. *)
Definition same_quarter (T : cube) (r : fact_credit_metrics_qtr) : cube :=
  filter (fun x => (f_quarter_key x =? f_quarter_key r)%Z) T.

Definition quarter_sum T r : num := SUM (map origination_amt (same_quarter T r)).
Definition quarter_avg T r : num := AVG (map origination_amt (same_quarter T r)).

(** [CreditMetricsCalculated.marketShareByProduct]. *)
Definition marketShareByProduct (T : cube) (r : fact_credit_metrics_qtr) : num :=
  mul (div (origination_amt r) (quarter_sum T r)) (lit 100).

(** [CreditMetricsCalculated.performanceVsAverage]. *)
Definition performanceVsAverage (T : cube) (r : fact_credit_metrics_qtr) : num :=
  if holds (gt (quarter_avg T r) (lit 0))
  then mul (div (sub (origination_amt r) (quarter_avg T r)) (quarter_avg T r))
           (lit 100)
  else lit 0.

(** [CreditMetricsCalculated.performanceCategory]. *)
Definition performanceCategory (T : cube) (r : fact_credit_metrics_qtr) : string :=
  if holds (gt (origination_amt r) (mul (quarter_avg T r) (lit 1.5)))
  then "Top Performer"
  else if holds (gt (origination_amt r) (quarter_avg T r))
  then "Above Average"
  else if holds (gt (origination_amt r) (mul (quarter_avg T r) (lit 0.5)))
  then "Below Average"
  else "Underperformer".

End Cube.

(* ------------------------------------------------------------------ *)
(** ** Cube measures as the server receives them

    A measure has a SQL text and a type.  Cube selects a measure of type
    [avg] as [avg(sql)] and one of type [sum] as [sum(sql)], over the rows of
    the cube that the query groups together. *)

Module CubeQuery.
Import Sql Warehouse Cube.
Local Open Scope string_scope.

(** The SQL texts of the measures below.  [Col c] is [${CUBE}.c];
    [CaseWhenGt a b t e] is [CASE WHEN a > b THEN t ELSE e END];
    [LagOver e n] is
    [LAG(e, n) OVER (PARTITION BY geo_key, product_key ORDER BY quarter_key)]. *)
Inductive expr :=
| Col (c : fact_credit_metrics_qtr -> num)
| Num (q : Q)
| Minus (a b : expr)
| Times (a b : expr)
| Divide (a b : expr)
| CaseWhenGt (a b t e : expr)
| LagOver (e : expr) (n : nat).

Inductive measure_type := type_avg | type_sum.

Record measure := {
  sql  : expr;
  type : measure_type
}.

(** The text shared by the two growth measures, for the column [M]. *)
Definition growth_sql (M : fact_credit_metrics_qtr -> num) : expr :=
  CaseWhenGt (LagOver (Col M) 4) (Num 0)
    (Times (Divide (Minus (Col M) (LagOver (Col M) 4)) (LagOver (Col M) 4))
           (Num 100))
    (Num 0).

(** [CreditMetricsCalculated.originationGrowthRate]. *)
Definition originationGrowthRate : measure :=
  {| sql := growth_sql origination_amt; type := type_avg |}.

(** [CreditMetricsCalculated.balanceGrowthRate]. *)
Definition balanceGrowthRate : measure :=
  {| sql := growth_sql balance_amt; type := type_avg |}.

(** [CreditMetricsCalculated.riskReductionGap]: [default_rate - 0.02]. *)
Definition riskReductionGap : measure :=
  {| sql := Minus (Col default_rate) (Num 0.02); type := type_avg |}.

Definition or_else (a b : option string) : option string :=
  match a with
  | Some x => Some x
  | None => b
  end.

(** The first window function of a text, if it has one. *)
Fixpoint window_function (e : expr) : option string :=
  match e with
  | Col _ | Num _ => None
  | Minus a b | Times a b | Divide a b =>
      or_else (window_function a) (window_function b)
  | CaseWhenGt a b t e' =>
      or_else (window_function a)
        (or_else (window_function b)
           (or_else (window_function t) (window_function e')))
  | LagOver _ _ => Some "lag"
  end.

Section Engine.

(** The server computes the quotient of two DECIMAL values and the mean of a
    column of them to a finite number of decimals; what it returns for a
    non-zero divisor, and for the non-NULL values of a column that has some,
    is a parameter. *)
Variable quotient : Q -> Q -> Q.
Variable mean : list Q -> Q.

Definition divide (a b : num) : num :=
  match a, b with
  | Some x, Some y => if Qeq_bool y 0 then None else Some (quotient x y)
  | _, _ => None
  end.

Definition average (l : list num) : num :=
  match non_null l with
  | [] => None
  | v => Some (mean v)
  end.

(** A text on the row [r] of the cube's relation [T], as an expression of a
    select list. *)
Fixpoint eval (T : cube) (e : expr) (r : fact_credit_metrics_qtr) : num :=
  match e with
  | Col c => c r
  | Num q => lit q
  | Minus a b => sub (eval T a r) (eval T b r)
  | Times a b => mul (eval T a r) (eval T b r)
  | Divide a b => divide (eval T a r) (eval T b r)
  | CaseWhenGt a b t e' =>
      if holds (gt (eval T a r) (eval T b r)) then eval T t r else eval T e' r
  | LagOver e' n => LAG (eval T e') n T r
  end.

(** The measure over the group [G] of rows of [T].  The server resolves the
    statement before it reads a row, and refuses a window function in the
    argument of an aggregate function (error 3593). *)
Definition select_measure (m : measure) (T G : cube) : result num :=
  match window_function (sql m) with
  | Some fn => Err (ER_WINDOW_INVALID_WINDOW_FUNC_USE fn)
  | None =>
      Ok (match type m with
          | type_avg => average (map (eval T (sql m)) G)
          | type_sum => SUM (map (eval T (sql m)) G)
          end)
  end.

End Engine.

End CubeQuery.


(* ------------------------------------------------------------------ *)
(** ** Rollup tables and the refresh procedures *)

Module Rollup.
Import Sql Warehouse.
Local Open Scope string_scope.

(** [agg_credit_metrics_yearly], PRIMARY KEY (year, country, product_type):
    the key columns are NOT NULL. *)
Record agg_credit_metrics_yearly := {
  y_year                   : Z;
  y_country                : string;
  y_product_type           : string;
  y_total_originations_cnt : option Z;   (* BIGINT *)
  y_total_origination_amt  : option Z;   (* DECIMAL(18,2) *)
  y_total_balance_amt      : option Z;   (* DECIMAL(18,2) *)
  y_avg_default_rate       : option Z;   (* DECIMAL(9,4) *)
  y_avg_prime_rate         : option Z;   (* DECIMAL(9,4) *)
  y_avg_lending_rate       : option Z    (* DECIMAL(9,4) *)
}.

(** [agg_credit_metrics_quarterly],
    PRIMARY KEY (quarter_key, country, product_type). *)
Record agg_credit_metrics_quarterly := {
  q_year                   : option Z;
  q_quarter                : option Z;
  q_quarter_key            : Z;
  q_country                : string;
  q_product_type           : string;
  q_total_originations_cnt : option Z;
  q_total_origination_amt  : option Z;
  q_total_balance_amt      : option Z;
  q_avg_default_rate       : option Z;
  q_avg_prime_rate         : option Z;
  q_avg_lending_rate       : option Z;
  q_min_default_rate       : option Z;
  q_max_default_rate       : option Z;
  q_stddev_default_rate    : option Z
}.

Record database := {
  tbl_dim_date_qtr  : list dim_date_qtr;
  tbl_dim_geo       : list dim_geo;
  tbl_dim_product   : list dim_product;
  tbl_fact          : list fact_credit_metrics_qtr;
  tbl_agg_yearly    : list agg_credit_metrics_yearly;
  tbl_agg_quarterly : list agg_credit_metrics_quarterly
}.

Definition with_agg_yearly (T : list agg_credit_metrics_yearly) (db : database) :=
  {| tbl_dim_date_qtr := tbl_dim_date_qtr db; tbl_dim_geo := tbl_dim_geo db;
     tbl_dim_product := tbl_dim_product db; tbl_fact := tbl_fact db;
     tbl_agg_yearly := T; tbl_agg_quarterly := tbl_agg_quarterly db |}.

Definition with_agg_quarterly (T : list agg_credit_metrics_quarterly) (db : database) :=
  {| tbl_dim_date_qtr := tbl_dim_date_qtr db; tbl_dim_geo := tbl_dim_geo db;
     tbl_dim_product := tbl_dim_product db; tbl_fact := tbl_fact db;
     tbl_agg_yearly := tbl_agg_yearly db; tbl_agg_quarterly := T |}.

(** [FROM fact_credit_metrics_qtr f JOIN dim_date_qtr d ... JOIN dim_geo g ...
     JOIN dim_product p ...]. *)
Definition from_join (db : database) : list joined :=
  star_join (tbl_fact db) (tbl_dim_date_qtr db) (tbl_dim_geo db)
            (tbl_dim_product db).

(** *** The yearly rollup: [GROUP BY d.year, g.country, p.product_type] *)

Definition yearly_key : Type := Z * option string * option string.

Definition yearly_key_of (j : joined) : yearly_key :=
  (d_year (d j), g_country (g j), p_product_type (p j)).

Definition yearly_key_eqb (a b : yearly_key) : bool :=
  let '(y1, c1, t1) := a in
  let '(y2, c2, t2) := b in
  (y1 =? y2)%Z && varchar_eqb c1 c2 && varchar_eqb t1 t2.

Definition yearly_groups (db : database) : list (yearly_key * list joined) :=
  group_by yearly_key_eqb yearly_key_of (from_join db).

Definition col (e : fact_credit_metrics_qtr -> num) (grp : list joined) : list num :=
  map (fun j => e (f j)) grp.

(** One row of the SELECT list, stored into the table's columns. *)
Definition yearly_row (kg : yearly_key * list joined)
    : result agg_credit_metrics_yearly :=
  let '((year, country, product_type), grp) := kg in
  rbind (store_not_null "country" country) (fun c =>
  rbind (store_not_null "product_type" product_type) (fun t =>
  rbind (store_bigint "total_originations_cnt" (SUM (col originations_cnt grp))) (fun oc =>
  rbind (store_decimal "total_origination_amt" 18 2 (SUM (col origination_amt grp))) (fun oa =>
  rbind (store_decimal "total_balance_amt" 18 2 (SUM (col balance_amt grp))) (fun ba =>
  rbind (store_decimal "avg_default_rate" 9 4 (AVG (col default_rate grp))) (fun dr =>
  rbind (store_decimal "avg_prime_rate" 9 4 (AVG (col prime_rate grp))) (fun pr =>
  rbind (store_decimal "avg_lending_rate" 9 4 (AVG (col lending_rate grp))) (fun lr =>
  Ok {| y_year := year; y_country := c; y_product_type := t;
        y_total_originations_cnt := oc; y_total_origination_amt := oa;
        y_total_balance_amt := ba; y_avg_default_rate := dr;
        y_avg_prime_rate := pr; y_avg_lending_rate := lr |})))))))).

Definition yearly_pk (r : agg_credit_metrics_yearly) : yearly_key :=
  (y_year r, Some (y_country r), Some (y_product_type r)).

(** A primary key admits no two rows with one key. *)
Fixpoint pk_unique {K R} (eqb : K -> K -> bool) (pk : R -> K) (T : list R) : bool :=
  match T with
  | [] => true
  | r :: T' => negb (existsb (fun r' => eqb (pk r) (pk r')) T') && pk_unique eqb pk T'
  end.

(** [INSERT INTO agg_credit_metrics_yearly SELECT ... GROUP BY ...]. *)
Definition insert_yearly (db : database) : result database :=
  rbind (rmap yearly_row (yearly_groups db)) (fun rows =>
  let T := (tbl_agg_yearly db ++ rows)%list in
  if pk_unique yearly_key_eqb yearly_pk T then Ok (with_agg_yearly T db)
  else Err (ER_DUP_ENTRY "PRIMARY")).

(** *** Sessions and transactions

    [committed] is the database other sessions read; [pending] is the working
    copy of an open transaction; [snapshots] lists, oldest first, every state
    that has been the committed one.  The session runs with autocommit on:
    outside a transaction a data-changing statement commits on its own.
    TRUNCATE TABLE is a data-definition statement: it commits the open
    transaction and its own effect, and a later ROLLBACK does not undo it. *)

Record session := {
  committed : database;
  pending   : option database;
  snapshots : list database
}.

Definition connect (db : database) : session :=
  {| committed := db; pending := None; snapshots := [db] |}.

(** The database as the session's own statements read it. *)
Definition current (s : session) : database :=
  match pending s with
  | Some w => w
  | None => committed s
  end.

Definition publish (w : database) (s : session) : session :=
  {| committed := w; pending := None; snapshots := (snapshots s ++ [w])%list |}.

Definition implicit_commit (s : session) : session :=
  match pending s with
  | Some w => publish w s
  | None => s
  end.

(** A stored-procedure body: a state transformer that may raise. *)
Definition proc (A : Type) : Type := session -> session * result A.

Definition ret {A} (a : A) : proc A := fun s => (s, Ok a).

Definition bind {A B} (m : proc A) (k : A -> proc B) : proc B :=
  fun s =>
    match m s with
    | (s', Ok a) => k a s'
    | (s', Err e) => (s', Err e)
    end.

Notation "x <- m ;; k" := (bind m (fun x => k))
  (at level 61, m at next level, right associativity).
Notation "m ;; k" := (bind m (fun _ => k))
  (at level 61, right associativity).

Definition RESIGNAL {A} (e : sql_error) : proc A := fun s => (s, Err e).

(** [DECLARE EXIT HANDLER FOR SQLEXCEPTION BEGIN h END; body]. *)
Definition exit_handler {A} (h : sql_error -> proc A) (body : proc A) : proc A :=
  fun s =>
    match body s with
    | (s', Ok a) => (s', Ok a)
    | (s', Err e) => h e s'
    end.

Definition START_TRANSACTION : proc unit :=
  fun s =>
    let s' := implicit_commit s in
    ({| committed := committed s'; pending := Some (committed s');
        snapshots := snapshots s' |}, Ok tt).

Definition COMMIT : proc unit := fun s => (implicit_commit s, Ok tt).

Definition ROLLBACK : proc unit :=
  fun s =>
    ({| committed := committed s; pending := None; snapshots := snapshots s |},
     Ok tt).

(** A data-changing statement: all or nothing; inside a transaction it
    changes the working copy, otherwise it commits at once. *)
Definition dml (stmt : database -> result database) : proc unit :=
  fun s =>
    match stmt (current s) with
    | Err e => (s, Err e)
    | Ok w =>
        match pending s with
        | Some _ =>
            ({| committed := committed s; pending := Some w;
                snapshots := snapshots s |}, Ok tt)
        | None => (publish w s, Ok tt)
        end
    end.

(** TRUNCATE TABLE: implicit commit, then the emptied table is committed. *)
Definition truncate (empty : database -> database) : proc unit :=
  fun s =>
    let s' := implicit_commit s in
    (publish (empty (committed s')) s', Ok tt).

(** [RefreshOLAPAggregations]. *)
Definition RefreshOLAPAggregations : proc string :=
  truncate (with_agg_yearly []) ;;
  dml insert_yearly ;;
  ret "OLAP aggregations refreshed successfully".

(** *** The quarterly rollup:
    [GROUP BY d.year, d.quarter, d.quarter_key, g.country, p.product_type] *)

Definition quarterly_key : Type := Z * Z * Z * option string * option string.

Definition quarterly_key_of (j : joined) : quarterly_key :=
  (d_year (d j), d_quarter (d j), d_quarter_key (d j), g_country (g j),
   p_product_type (p j)).

Definition quarterly_key_eqb (a b : quarterly_key) : bool :=
  let '(y1, n1, k1, c1, t1) := a in
  let '(y2, n2, k2, c2, t2) := b in
  (y1 =? y2)%Z && (n1 =? n2)%Z && (k1 =? k2)%Z && varchar_eqb c1 c2
  && varchar_eqb t1 t2.

Definition quarterly_groups (db : database) : list (quarterly_key * list joined) :=
  group_by quarterly_key_eqb quarterly_key_of (from_join db).

(** The primary key has the shape of the yearly key: an integer and the two
    names. *)
Definition quarterly_pk (r : agg_credit_metrics_quarterly)
    : Z * option string * option string :=
  (q_quarter_key r, Some (q_country r), Some (q_product_type r)).

Section Engine.

(** STDDEV is the server's population standard deviation over the non-NULL
    values, computed in double precision; it is a parameter here. *)
Variable STDDEV : list num -> num.

Definition quarterly_row (kg : quarterly_key * list joined)
    : result agg_credit_metrics_quarterly :=
  let '((year, quarter, quarter_key, country, product_type), grp) := kg in
  rbind (store_not_null "country" country) (fun c =>
  rbind (store_not_null "product_type" product_type) (fun t =>
  rbind (store_bigint "total_originations_cnt" (SUM (col originations_cnt grp))) (fun oc =>
  rbind (store_decimal "total_origination_amt" 18 2 (SUM (col origination_amt grp))) (fun oa =>
  rbind (store_decimal "total_balance_amt" 18 2 (SUM (col balance_amt grp))) (fun ba =>
  rbind (store_decimal "avg_default_rate" 9 4 (AVG (col default_rate grp))) (fun dr =>
  rbind (store_decimal "avg_prime_rate" 9 4 (AVG (col prime_rate grp))) (fun pr =>
  rbind (store_decimal "avg_lending_rate" 9 4 (AVG (col lending_rate grp))) (fun lr =>
  rbind (store_decimal "min_default_rate" 9 4 (MIN (col default_rate grp))) (fun mn =>
  rbind (store_decimal "max_default_rate" 9 4 (MAX (col default_rate grp))) (fun mx =>
  rbind (store_decimal "stddev_default_rate" 9 4 (STDDEV (col default_rate grp))) (fun sd =>
  Ok {| q_year := Some year; q_quarter := Some quarter;
        q_quarter_key := quarter_key; q_country := c; q_product_type := t;
        q_total_originations_cnt := oc; q_total_origination_amt := oa;
        q_total_balance_amt := ba; q_avg_default_rate := dr;
        q_avg_prime_rate := pr; q_avg_lending_rate := lr;
        q_min_default_rate := mn; q_max_default_rate := mx;
        q_stddev_default_rate := sd |}))))))))))).

Definition insert_quarterly (db : database) : result database :=
  rbind (rmap quarterly_row (quarterly_groups db)) (fun rows =>
  let T := (tbl_agg_quarterly db ++ rows)%list in
  if pk_unique yearly_key_eqb quarterly_pk T then Ok (with_agg_quarterly T db)
  else Err (ER_DUP_ENTRY "PRIMARY")).

(** [RefreshAllAggregations]; its result sets are the status rows. *)
Definition RefreshAllAggregations : proc (list string) :=
  exit_handler (fun e => ROLLBACK ;; RESIGNAL e)
    (START_TRANSACTION ;;
     st <- RefreshOLAPAggregations ;;
     truncate (with_agg_quarterly []) ;;
     dml insert_quarterly ;;
     COMMIT ;;
     ret [st; "All aggregations refreshed successfully"]).

End Engine.

End Rollup.

(* ------------------------------------------------------------------ *)
(** ** Reporting views *)

Module Views.
Import Sql Warehouse Rollup.
Local Open Scope string_scope.

(** The [risk_category] column of [v_olap_credit_metrics] and of
    [v_powerbi_optimized]. *)
Definition risk_category (default_rate : num) : string :=
  if holds (gt default_rate (lit 0.05)) then "High Risk"
  else if holds (gt default_rate (lit 0.02)) then "Medium Risk"
  else if holds (gt default_rate (lit 0)) then "Low Risk"
  else "Unknown".

(** A row of [v_powerbi_optimized].  The dimension columns are carried by the
    joined dimension rows; the label columns built from them
    (quarter_label, fiscal_year, fiscal_quarter, full_address,
    product_description), time_sequence and is_recent are left out. *)
Record v_powerbi_optimized_row := {
  v_date    : dim_date_qtr;
  v_geo     : dim_geo;
  v_product : dim_product;
  (* fact measures *)
  v_originations_cnt : num;
  v_origination_amt  : num;
  v_balance_amt      : num;
  v_default_rate     : num;
  v_prime_rate       : num;
  v_lending_rate     : num;
  (* pre-calculated measures *)
  v_avg_origination_per_account  : num;
  v_balance_to_origination_ratio : num;
  v_prime_lending_spread         : num;
  v_risk_category  : string;
  v_days_in_quarter : Z;
  v_is_q4 : Z;
  v_is_h1 : Z
}.

Definition v_powerbi_optimized_select (j : joined) : v_powerbi_optimized_row :=
  let f := f j in
  let d := d j in
  {| v_date := d; v_geo := g j; v_product := p j;
     v_originations_cnt := coalesce (originations_cnt f) 0;
     v_origination_amt := coalesce (origination_amt f) 0;
     v_balance_amt := coalesce (balance_amt f) 0;
     v_default_rate := coalesce (default_rate f) 0;
     v_prime_rate := coalesce (prime_rate f) 0;
     v_lending_rate := coalesce (lending_rate f) 0;
     v_avg_origination_per_account :=
       if holds (gt (originations_cnt f) (lit 0))
       then div (origination_amt f) (originations_cnt f)
       else lit 0;
     v_balance_to_origination_ratio :=
       if holds (gt (origination_amt f) (lit 0))
       then div (balance_amt f) (origination_amt f)
       else lit 0;
     v_prime_lending_spread := sub (prime_rate f) (lending_rate f);
     v_risk_category := risk_category (default_rate f);
     v_days_in_quarter := (d_quarter_end d - d_quarter_start d + 1)%Z;
     v_is_q4 := if (d_quarter d =? 4)%Z then 1%Z else 0%Z;
     v_is_h1 := if ((d_quarter d =? 1) || (d_quarter d =? 2))%Z then 1%Z else 0%Z
  |}.

Definition v_powerbi_optimized (db : database) : list v_powerbi_optimized_row :=
  map v_powerbi_optimized_select (from_join db).

(** The measure columns of a row, by column name. *)
Definition measure_columns (v : v_powerbi_optimized_row) : list (string * num) :=
  [ ("originations_cnt", v_originations_cnt v);
    ("origination_amt", v_origination_amt v);
    ("balance_amt", v_balance_amt v);
    ("default_rate", v_default_rate v);
    ("prime_rate", v_prime_rate v);
    ("lending_rate", v_lending_rate v);
    ("avg_origination_per_account", v_avg_origination_per_account v);
    ("balance_to_origination_ratio", v_balance_to_origination_ratio v);
    ("prime_lending_spread", v_prime_lending_spread v) ].

End Views.

(* ------------------------------------------------------------------ *)
(** ** The quality validator *)

Module Validator.
Import Sql Warehouse Rollup.
Local Open Scope string_scope.

Record issue_row := {
  Check_Type  : string;
  Issue_Count : Z;
  Description : string
}.

Record freshness_row := {
  Freshness_Check_Type : string;
  Latest_Data_Date     : option date;
  Days_Old             : option Z
}.

Definition MAX_date (l : list date) : option date :=
  match l with
  | [] => None
  | x :: l' => Some (fold_right Z.max x l')
  end.

Definition DATEDIFF (a b : option date) : option Z :=
  match a, b with
  | Some x, Some y => Some (x - y)%Z
  | _, _ => None
  end.

Definition COUNT_where (c : fact_credit_metrics_qtr -> tri)
    (T : list fact_credit_metrics_qtr) : Z :=
  COUNT_star (filter (fun r => holds (c r)) T).

(** [quarter_key IS NULL] on the NOT NULL column. *)
Definition quarter_key_is_null (r : fact_credit_metrics_qtr) : tri :=
  Some (is_null (Some (f_quarter_key r))).

Definition negative_amounts (r : fact_credit_metrics_qtr) : tri :=
  or3 (lt (origination_amt r) (lit 0)) (lt (balance_amt r) (lit 0)).

Definition invalid_default_rate (r : fact_credit_metrics_qtr) : tri :=
  or3 (lt (default_rate r) (lit 0)) (gt (default_rate r) (lit 1)).

Definition quality_report (CURDATE : date) (db : database)
    : list issue_row * freshness_row :=
  let F := tbl_fact db in
  ([ {| Check_Type := "Missing Data Check";
        Issue_Count := COUNT_where quarter_key_is_null F;
        Description := "Rows with NULL quarter_key" |};
     {| Check_Type := "Data Range Check";
        Issue_Count := COUNT_where negative_amounts F;
        Description := "Rows with negative amounts" |};
     {| Check_Type := "Data Range Check";
        Issue_Count := COUNT_where invalid_default_rate F;
        Description := "Rows with invalid default rates" |} ],
   let latest :=
     MAX_date (flat_map (fun f0 =>
       map d_quarter_end
         (filter (fun d0 => (f_quarter_key f0 =? d_quarter_key d0)%Z)
                 (tbl_dim_date_qtr db))) F) in
   {| Freshness_Check_Type := "Data Freshness";
      Latest_Data_Date := latest;
      Days_Old := DATEDIFF (Some CURDATE) latest |}).

(** [ValidateOLAPDataQuality]: two SELECTs, no other statement. *)
Definition ValidateOLAPDataQuality (CURDATE : date)
    : proc (list issue_row * freshness_row) :=
  fun s => ret (quality_report CURDATE (current s)) s.

End Validator.

(* ------------------------------------------------------------------ *)
(** ** The self-heal block of [dim_product] *)

Module Healer.
Import Sql.
Local Open Scope string_scope.

(** INFORMATION_SCHEMA.COLUMNS and INFORMATION_SCHEMA.STATISTICS of the
    table; identifiers are in their normal (lower-case) form. *)
Record column := {
  COLUMN_NAME : string;
  COLUMN_TYPE : string;
  IS_NULLABLE : bool
}.

Record index := {
  INDEX_NAME  : string;
  NON_UNIQUE  : bool;
  key_columns : list string
}.

Inductive statement :=
| ALTER_ADD_COLUMN (c : column)
| ALTER_MODIFY (c : column)
| ALTER_ADD_UNIQUE_KEY (name : string) (cols : list string)
| DO_0.

Definition is_DO_0 (st : statement) : bool :=
  match st with DO_0 => true | _ => false end.

Section Storage.

(** What the storage engine does to the stored rows on a structural change
    is a parameter: appending a NULL cell to every row, rewriting a column to
    a new definition (which can fail), checking the rows for a unique key. *)
Variable rowset : Type.
Variable add_column_rows : column -> rowset -> rowset.
Variable modify_rows : column -> rowset -> result rowset.
Variable unique_rows : list string -> rowset -> bool.

Record table := {
  columns : list column;
  indexes : list index;
  rows    : rowset
}.

Definition has_column (t : table) (name : string) : bool :=
  existsb (fun c => String.eqb (COLUMN_NAME c) name) (columns t).

Definition in_primary_key (t : table) (name : string) : bool :=
  existsb (fun i => String.eqb (INDEX_NAME i) "PRIMARY"
                    && existsb (String.eqb name) (key_columns i))
          (indexes t).

Definition execute (st : statement) (t : table) : result table :=
  match st with
  | DO_0 => Ok t
  | ALTER_ADD_COLUMN c =>
      if has_column t (COLUMN_NAME c) then Err (ER_DUP_FIELDNAME (COLUMN_NAME c))
      else Ok {| columns := (columns t ++ [c])%list; indexes := indexes t;
                 rows := add_column_rows c (rows t) |}
  | ALTER_MODIFY c =>
      if negb (has_column t (COLUMN_NAME c))
      then Err (ER_BAD_FIELD_ERROR (COLUMN_NAME c))
      else if IS_NULLABLE c && in_primary_key t (COLUMN_NAME c)
      then Err ER_PRIMARY_CANT_HAVE_NULL
      else
        rbind (modify_rows c (rows t)) (fun rs =>
        Ok {| columns :=
                map (fun c0 => if String.eqb (COLUMN_NAME c0) (COLUMN_NAME c)
                               then c else c0) (columns t);
              indexes := indexes t;
              rows := rs |})
  | ALTER_ADD_UNIQUE_KEY name cols =>
      if existsb (fun i => String.eqb (INDEX_NAME i) name) (indexes t)
      then Err (ER_DUP_KEYNAME name)
      else if negb (forallb (has_column t) cols)
      then Err (ER_KEY_COLUMN_DOES_NOT_EXIST name)
      else if negb (unique_rows cols (rows t))
      then Err (ER_DUP_ENTRY name)
      else Ok {| columns := columns t;
                 indexes := (indexes t ++
                   [{| INDEX_NAME := name; NON_UNIQUE := false;
                       key_columns := cols |}])%list;
                 rows := rows t |}
  end.

(** [SELECT COUNT( * ) FROM INFORMATION_SCHEMA.COLUMNS
     WHERE ... COLUMN_NAME = name]. *)
Definition col_exists (t : table) (name : string) : Z :=
  COUNT_star (filter (fun c => String.eqb (COLUMN_NAME c) name) (columns t)).

(** [... COLUMN_NAME='product_number' AND IS_NULLABLE='NO']. *)
Definition has_prodnum (t : table) : Z :=
  COUNT_star (filter (fun c => String.eqb (COLUMN_NAME c) "product_number"
                               && negb (IS_NULLABLE c)) (columns t)).

(** [SELECT COUNT( * ) FROM information_schema.statistics
     WHERE ... index_name='uq_prod']: one row per column of the index. *)
Definition idx_exists (t : table) : Z :=
  COUNT_star (flat_map key_columns
    (filter (fun i => String.eqb (INDEX_NAME i) "uq_prod") (indexes t))).

Definition varchar64 (name : string) : column :=
  {| COLUMN_NAME := name; COLUMN_TYPE := "VARCHAR(64)"; IS_NULLABLE := true |}.

(** The five [SET @sql := IF(...)] texts. *)
Definition sql_add_column (name : string) (t : table) : statement :=
  if (col_exists t name =? 0)%Z then ALTER_ADD_COLUMN (varchar64 name) else DO_0.

Definition sql_relax_product_number (t : table) : statement :=
  if (has_prodnum t =? 1)%Z
  then ALTER_MODIFY {| COLUMN_NAME := "product_number"; COLUMN_TYPE := "INT";
                       IS_NULLABLE := true |}
  else DO_0.

Definition sql_unique_key (t : table) : statement :=
  if (idx_exists t =? 0)%Z
  then ALTER_ADD_UNIQUE_KEY "uq_prod" ["product_code"; "product_type"; "segment"]
  else DO_0.

(** [PREPARE s FROM @sql; EXECUTE s]: the statement run, and the table after. *)
Definition prepare_execute (sql : table -> statement)
    (acc : table * list statement) : result (table * list statement) :=
  let '(t, done) := acc in
  rbind (execute (sql t) t) (fun t' => Ok (t', (done ++ [sql t])%list)).

(** The block, statement by statement; an error stops the script. *)
Definition self_heal (t : table) : result (table * list statement) :=
  rbind (prepare_execute (sql_add_column "product_code") (t, [])) (fun a1 =>
  rbind (prepare_execute (sql_add_column "product_type") a1) (fun a2 =>
  rbind (prepare_execute (sql_add_column "segment") a2) (fun a3 =>
  rbind (prepare_execute sql_relax_product_number a3) (fun a4 =>
  prepare_execute sql_unique_key a4)))).

Definition names (t : table) : list string := map COLUMN_NAME (columns t).

(** A table on which every condition of the block is already met. *)
Definition healed (t : table) : Prop :=
  In "product_code" (names t) /\ In "product_type" (names t) /\
  In "segment" (names t) /\ has_prodnum t <> 1%Z /\ idx_exists t <> 0%Z.

(** The corrective actions among the statements run. *)
Definition actions (done : list statement) : list statement :=
  filter (fun st => negb (is_DO_0 st)) done.

End Storage.

End Healer.
(* ------------------------------------------------------------------ *)
(** ** Reference definitions, in the specification's words *)

Module Spec.
Import Sql Warehouse Rollup.
Local Open Scope string_scope.

(** The three-level bucket a six-level bucket falls in. *)
Definition bucket_of_detailed (detailed : string) : string :=
  if String.eqb detailed "Critical Risk" then "High Risk"
  else if String.eqb detailed "High Risk" then "High Risk"
  else if String.eqb detailed "Medium-High Risk" then "Medium Risk"
  else if String.eqb detailed "Medium Risk" then "Medium Risk"
  else if String.eqb detailed "Low-Medium Risk" then "Low Risk"
  else if String.eqb detailed "Low Risk" then "Low Risk"
  else "Unknown".

(** The validator's conditions, on the stored cells. *)
Definition stored_negative (c : option Z) : bool :=
  match c with
  | Some m => (m <? 0)%Z
  | None => false
  end.

Definition Spec_negative_amounts (r : fact_credit_metrics_qtr) : bool :=
  stored_negative (f_origination_amt r) || stored_negative (f_balance_amt r).

(** A DECIMAL(9,4) rate below 0 or above 1.0000. *)
Definition Spec_rate_out_of_range (r : fact_credit_metrics_qtr) : bool :=
  match f_default_rate r with
  | Some m => ((m <? 0) || (10000 <? m))%Z
  | None => false
  end.

(** Year-over-year growth in the specification's words: [W] is the ordered
    partition and [i] the position of the row in it; the prior value is the
    measure on the row four positions earlier. *)
Definition prior_value (M : fact_credit_metrics_qtr -> num)
    (W : list fact_credit_metrics_qtr) (i : nat) : num :=
  if (4 <=? i)%nat then
    match nth_error W (i - 4) with
    | Some prev => M prev
    | None => None
    end
  else None.

(** The growth text read by cases, at the row [r] at position [i] of its
    ordered partition [W]: the percentage against the prior value when that
    is positive, and 0 without a positive prior value.  [quotient] is the
    server's DECIMAL quotient. *)
Definition growth_at_position (quotient : Q -> Q -> Q)
    (M : fact_credit_metrics_qtr -> num)
    (W : list fact_credit_metrics_qtr) (i : nat) (r : fact_credit_metrics_qtr) : num :=
  match prior_value M W i with
  | Some m =>
      if Qlt_bool 0 m
      then match M r with
           | Some c => Some (quotient (c - m) m * 100)%Q
           | None => None
           end
      else Some 0%Q
  | None => Some 0%Q
  end.

(** Orders on rows by quarter_key. *)
Definition key_le (a b : fact_credit_metrics_qtr) : Prop :=
  (f_quarter_key a <= f_quarter_key b)%Z.
Definition key_lt (a b : fact_credit_metrics_qtr) : Prop :=
  (f_quarter_key a < f_quarter_key b)%Z.

(** *** The yearly rollup, in the specification's words *)

(** Exact sum of the non-NULL cells of a column (NULL when there are none),
    in the column's own unit. *)
Definition Zsum (v : list Z) : Z := fold_right Z.add 0%Z v.

Definition SUM_cells (cells : list (option Z)) : option Z :=
  match non_null cells with
  | [] => None
  | v => Some (Zsum v)
  end.

(** Arithmetic mean of the non-NULL cells, as a fraction of the unit. *)
Definition mean_cells (cells : list (option Z)) : num :=
  match non_null cells with
  | [] => None
  | v => Some (inject_Z (Zsum v) / inject_Z (Z.of_nat (List.length v)))%Q
  end.

(** The mean rounded to a whole number of units, halves away from zero. *)
Definition mean_cells_rounded (cells : list (option Z)) : option Z :=
  option_map round_half_away (mean_cells cells).

Definition cells (c : fact_credit_metrics_qtr -> option Z) (grp : list joined)
    : list (option Z) :=
  map (fun j => c (f j)) grp.

(** The joined rows with year, country and product_type [k]. *)
Definition yearly_members (db : database) (k : yearly_key) : list joined :=
  filter (fun j => yearly_key_eqb (yearly_key_of j) k) (from_join db).

(** With exact means: the rollup holds rows for the keys of the join only,
    one per key; totals are the sums and averages are the arithmetic means. *)
Definition Spec_yearly_rollup_exact (src : database)
    (T : list agg_credit_metrics_yearly) : Prop :=
  (forall row, In row T -> In (yearly_pk row) (map yearly_key_of (from_join src))) /\
  forall k, In k (map yearly_key_of (from_join src)) ->
  exists row,
    filter (fun r => yearly_key_eqb (yearly_pk r) k) T = [row] /\
    y_total_originations_cnt row
      = SUM_cells (cells f_originations_cnt (yearly_members src k)) /\
    y_total_origination_amt row
      = SUM_cells (cells f_origination_amt (yearly_members src k)) /\
    y_total_balance_amt row
      = SUM_cells (cells f_balance_amt (yearly_members src k)) /\
    num_eq (option_map inject_Z (y_avg_default_rate row))
           (mean_cells (cells f_default_rate (yearly_members src k))) /\
    num_eq (option_map inject_Z (y_avg_prime_rate row))
           (mean_cells (cells f_prime_rate (yearly_members src k))) /\
    num_eq (option_map inject_Z (y_avg_lending_rate row))
           (mean_cells (cells f_lending_rate (yearly_members src k))).

(** With stored means: the same, the averages being the means rounded to the
    column's scale. *)
Definition Spec_yearly_rollup_rounded (src : database)
    (T : list agg_credit_metrics_yearly) : Prop :=
  (forall row, In row T -> In (yearly_pk row) (map yearly_key_of (from_join src))) /\
  forall k, In k (map yearly_key_of (from_join src)) ->
  exists row,
    filter (fun r => yearly_key_eqb (yearly_pk r) k) T = [row] /\
    y_total_originations_cnt row
      = SUM_cells (cells f_originations_cnt (yearly_members src k)) /\
    y_total_origination_amt row
      = SUM_cells (cells f_origination_amt (yearly_members src k)) /\
    y_total_balance_amt row
      = SUM_cells (cells f_balance_amt (yearly_members src k)) /\
    y_avg_default_rate row
      = mean_cells_rounded (cells f_default_rate (yearly_members src k)) /\
    y_avg_prime_rate row
      = mean_cells_rounded (cells f_prime_rate (yearly_members src k)) /\
    y_avg_lending_rate row
      = mean_cells_rounded (cells f_lending_rate (yearly_members src k)).

End Spec.

(* ------------------------------------------------------------------ *)
(** ** Sample warehouses *)

Module Samples.
Import Sql Warehouse Rollup.
Local Open Scope string_scope.

Definition fact_row (quarter geo product : Z)
    (cnt amt bal dr pr lr : option Z) : fact_credit_metrics_qtr :=
  {| f_quarter_key := quarter; f_geo_key := geo; f_product_key := product;
     f_originations_cnt := cnt; f_origination_amt := amt; f_balance_amt := bal;
     f_default_rate := dr; f_prime_rate := pr; f_lending_rate := lr |}.

(** A quarter whose only row has origination_amt 0.00. *)
Definition zero_quarter_row : fact_credit_metrics_qtr :=
  fact_row 20243 1 1 (Some 0) (Some 0) (Some 0) None None None.

(** A quarter with the amounts 5.00 and -5.00: its mean is 0. *)
Definition mixed_sign_quarter : list fact_credit_metrics_qtr :=
  [ fact_row 20243 1 1 None (Some 500) None None None None;
    fact_row 20243 2 1 None (Some (-500)) None None None None ].

(** Scenario A: Quarter(20243, 2024, Q3), Geography(US, null, null),
    Product(CC, CreditCard, Retail) and the fact row with originations_cnt 100,
    origination_amt 500000.00 and default_rate 0.0300. *)
Definition quarter_2024Q3 : dim_date_qtr :=
  {| d_quarter_key := 20243; d_year := 2024; d_quarter := 3;
     d_quarter_start := 739433; d_quarter_end := 739524 |}.

Definition geo_US : dim_geo :=
  {| g_geo_key := 1; g_country := Some "US"; g_state_province := None;
     g_city := None |}.

Definition product_CC : dim_product :=
  {| p_product_key := 1; p_product_code := Some "CC";
     p_product_type := Some "CreditCard"; p_segment := Some "Retail" |}.

Definition fact_A : fact_credit_metrics_qtr :=
  fact_row 20243 1 1 (Some 100) (Some 50000000) None (Some 300) None None.

Definition scenario_A : database :=
  {| tbl_dim_date_qtr := [quarter_2024Q3];
     tbl_dim_geo := [geo_US];
     tbl_dim_product := [product_CC];
     tbl_fact := [fact_A];
     tbl_agg_yearly := [];
     tbl_agg_quarterly := [] |}.

(** The one row of Scenario A's join. *)
Definition joined_A : joined :=
  {| f := fact_A; d := quarter_2024Q3; g := geo_US; p := product_CC |}.

(** One (geo, product) pair over five consecutive quarters: origination
    amounts 100.00, 110.00, 120.00, 130.00 and 150.00. *)
Definition five_quarters : list fact_credit_metrics_qtr :=
  [ fact_row 20231 1 1 None (Some 10000) (Some 10000) None None None;
    fact_row 20232 1 1 None (Some 11000) (Some 10000) None None None;
    fact_row 20233 1 1 None (Some 12000) (Some 10000) None None None;
    fact_row 20234 1 1 None (Some 13000) (Some 10000) None None None;
    fact_row 20241 1 1 None (Some 15000) (Some 10000) None None None ].

Definition fifth_quarter_row : fact_credit_metrics_qtr :=
  fact_row 20241 1 1 None (Some 15000) (Some 10000) None None None.

(** Two quarters of 2024 for one country and product type, with default
    rates 0.0001 and 0.0002. *)
Definition two_rates : database :=
  {| tbl_dim_date_qtr :=
       [ quarter_2024Q3;
         {| d_quarter_key := 20244; d_year := 2024; d_quarter := 4;
            d_quarter_start := 739525; d_quarter_end := 739616 |} ];
     tbl_dim_geo := [geo_US];
     tbl_dim_product := [product_CC];
     tbl_fact :=
       [ fact_row 20243 1 1 (Some 100) (Some 50000000) None (Some 1) None None;
         fact_row 20244 1 1 (Some 100) (Some 50000000) None (Some 2) None None ];
     tbl_agg_yearly := [];
     tbl_agg_quarterly := [] |}.

(** A rollup row left by an earlier refresh. *)
Definition previous_yearly_row : agg_credit_metrics_yearly :=
  {| y_year := 2023; y_country := "US"; y_product_type := "CreditCard";
     y_total_originations_cnt := Some 80; y_total_origination_amt := Some 40000000;
     y_total_balance_amt := None; y_avg_default_rate := Some 250;
     y_avg_prime_rate := None; y_avg_lending_rate := None |}.

(** Scenario A with the earlier rollup row in place. *)
Definition scenario_A_with_rollup : database :=
  with_agg_yearly [previous_yearly_row] scenario_A.

(** The same, with the geography row's country unknown (NULL). *)
Definition unknown_country_with_rollup : database :=
  {| tbl_dim_date_qtr := [quarter_2024Q3];
     tbl_dim_geo :=
       [ {| g_geo_key := 1; g_country := None; g_state_province := None;
            g_city := None |} ];
     tbl_dim_product := [product_CC];
     tbl_fact := [fact_A];
     tbl_agg_yearly := [previous_yearly_row];
     tbl_agg_quarterly := [] |}.

(** The population standard deviation of a single value is 0. *)
Definition stddev_of_single (l : list num) : num :=
  match non_null l with
  | [] => None
  | _ => Some 0%Q
  end.

(** A legacy [dim_product]: no product_code, product_type or segment, a
    NOT NULL product_number, no [uq_prod]; one stored row. *)
Definition legacy_rows : Type := list (list (option string)).

Definition append_null_cell (c : Healer.column) (rs : legacy_rows) : legacy_rows :=
  map (fun r => (r ++ [None])%list) rs.

Definition keep_cells (c : Healer.column) (rs : legacy_rows) : result legacy_rows :=
  Ok rs.

Definition no_duplicate_key (cols : list string) (rs : legacy_rows) : bool :=
  (List.length rs <=? 1)%nat.

Definition legacy_dim_product : Healer.table legacy_rows :=
  {| Healer.columns :=
       [ {| Healer.COLUMN_NAME := "product_key"; Healer.COLUMN_TYPE := "INT";
            Healer.IS_NULLABLE := false |};
         {| Healer.COLUMN_NAME := "product_number"; Healer.COLUMN_TYPE := "INT";
            Healer.IS_NULLABLE := false |};
         {| Healer.COLUMN_NAME := "product_name";
            Healer.COLUMN_TYPE := "VARCHAR(100)"; Healer.IS_NULLABLE := true |} ];
     Healer.indexes :=
       [ {| Healer.INDEX_NAME := "PRIMARY"; Healer.NON_UNIQUE := false;
            Healer.key_columns := ["product_key"] |} ];
     Healer.rows := [ [Some "1"; Some "1110"; Some "TrailChef Water Bag"] ] |}.

End Samples.

(* ------------------------------------------------------------------ *)
(** ** Cube schema [CreditMetrics]: the aggregated measures

    A measure of type [sum] is the SUM of its SQL expression over the rows
    of the group a query asks for. *)

Module CubeMeasures.
Import Sql Warehouse.

Definition totalOriginations (G : list fact_credit_metrics_qtr) : num :=
  SUM (map originations_cnt G).

(** [highRiskAccounts], [mediumRiskAccounts], [lowRiskAccounts]:
    [CASE WHEN ... THEN originations_cnt ELSE 0 END], type sum. *)
Definition highRiskAccounts_sql (r : fact_credit_metrics_qtr) : num :=
  if holds (gt (default_rate r) (lit 0.05)) then originations_cnt r else lit 0.

Definition mediumRiskAccounts_sql (r : fact_credit_metrics_qtr) : num :=
  if holds (between (default_rate r) (lit 0.02) (lit 0.05))
  then originations_cnt r else lit 0.

Definition lowRiskAccounts_sql (r : fact_credit_metrics_qtr) : num :=
  if holds (lt (default_rate r) (lit 0.02)) then originations_cnt r else lit 0.

Definition highRiskAccounts (G : list fact_credit_metrics_qtr) : num :=
  SUM (map highRiskAccounts_sql G).

Definition mediumRiskAccounts (G : list fact_credit_metrics_qtr) : num :=
  SUM (map mediumRiskAccounts_sql G).

Definition lowRiskAccounts (G : list fact_credit_metrics_qtr) : num :=
  SUM (map lowRiskAccounts_sql G).

End CubeMeasures.

(* ------------------------------------------------------------------ *)
(** ** The views of the OLAP script *)

Module OlapViews.
Import Sql Warehouse Rollup.
Local Open Scope string_scope.





(** [v_credit_metrics_yearly]:
    [GROUP BY d.year, g.country, p.product_type, p.segment]; a view stores
    nothing, its columns are the aggregates themselves. *)
Definition segment_key : Type := Z * option string * option string * option string.

Definition segment_key_of (j : joined) : segment_key :=
  (d_year (d j), g_country (g j), p_product_type (p j), p_segment (p j)).

Definition segment_key_eqb (a b : segment_key) : bool :=
  let '(y1, c1, t1, s1) := a in
  let '(y2, c2, t2, s2) := b in
  (y1 =? y2)%Z && varchar_eqb c1 c2 && varchar_eqb t1 t2 && varchar_eqb s1 s2.

Record v_credit_metrics_yearly_row := {
  vy_year                   : Z;
  vy_country                : option string;
  vy_product_type           : option string;
  vy_segment                : option string;
  vy_total_originations_cnt : num;
  vy_total_origination_amt  : num;
  vy_total_balance_amt      : num;
  vy_avg_default_rate       : num;
  vy_avg_prime_rate         : num;
  vy_avg_lending_rate       : num;
  vy_quarter_count          : Z
}.

Definition v_credit_metrics_yearly_select (kg : segment_key * list joined)
    : v_credit_metrics_yearly_row :=
  let '((year, country, product_type, segment), grp) := kg in
  {| vy_year := year; vy_country := country; vy_product_type := product_type;
     vy_segment := segment;
     vy_total_originations_cnt := SUM (col originations_cnt grp);
     vy_total_origination_amt := SUM (col origination_amt grp);
     vy_total_balance_amt := SUM (col balance_amt grp);
     vy_avg_default_rate := AVG (col default_rate grp);
     vy_avg_prime_rate := AVG (col prime_rate grp);
     vy_avg_lending_rate := AVG (col lending_rate grp);
     vy_quarter_count := COUNT_star grp |}.

Definition v_credit_metrics_yearly (db : database)
    : list v_credit_metrics_yearly_row :=
  map v_credit_metrics_yearly_select
      (group_by segment_key_eqb segment_key_of (from_join db)).

End OlapViews.

(* ------------------------------------------------------------------ *)
(** ** The maintenance procedure *)

Module Maintenance.
Import Sql Warehouse Rollup.
Local Open Scope string_scope.

(** ANALYZE TABLE and OPTIMIZE TABLE leave the rows of a table as they are;
    as administrative statements they commit the open transaction. *)
Definition ANALYZE_TABLE (table : string) : proc unit :=
  fun s => (implicit_commit s, Ok tt).

Definition OPTIMIZE_TABLE (table : string) : proc unit :=
  fun s => (implicit_commit s, Ok tt).

Section Engine.

Variable STDDEV : list num -> num.

(** [OptimizeDataWarehouse]. *)
Definition OptimizeDataWarehouse : proc (list string) :=
  ANALYZE_TABLE "fact_credit_metrics_qtr" ;;
  ANALYZE_TABLE "dim_date_qtr" ;;
  ANALYZE_TABLE "dim_geo" ;;
  ANALYZE_TABLE "dim_product" ;;
  OPTIMIZE_TABLE "fact_credit_metrics_qtr" ;;
  OPTIMIZE_TABLE "dim_date_qtr" ;;
  OPTIMIZE_TABLE "dim_geo" ;;
  OPTIMIZE_TABLE "dim_product" ;;
  st <- RefreshAllAggregations STDDEV ;;
  ret (st ++ ["Data warehouse optimization completed"])%list.

End Engine.

End Maintenance.

(* ------------------------------------------------------------------ *)
(** ** Further reference definitions *)

Module Spec2.
Import Sql Warehouse Rollup.
Local Open Scope string_scope.

(** A total with NULL read as 0. *)
Definition or_zero (v : num) : Q :=
  match v with
  | Some x => x
  | None => 0%Q
  end.

(** The rows whose default rate is known. *)
Definition rated (G : list fact_credit_metrics_qtr) : list fact_credit_metrics_qtr :=
  filter (fun r => negb (is_null (f_default_rate r))) G.

(** The fact and dimension tables of a database: what a refresh reads. *)
Definition source (db : database)
    : list fact_credit_metrics_qtr * list dim_date_qtr * list dim_geo
      * list dim_product :=
  (tbl_fact db, tbl_dim_date_qtr db, tbl_dim_geo db, tbl_dim_product db).

(** The grouping columns as a quarterly rollup row stores them. *)
Definition stored_quarterly_key (row : agg_credit_metrics_quarterly)
    : option Z * option Z * Z * option string * option string :=
  (q_year row, q_quarter row, q_quarter_key row, Some (q_country row),
   Some (q_product_type row)).

Definition as_stored (k : quarterly_key)
    : option Z * option Z * Z * option string * option string :=
  let '(year, quarter, quarter_key, country, product_type) := k in
  (Some year, Some quarter, quarter_key, country, product_type).

(** The three default-rate cells of a quarterly rollup row are NULL together
    or stand in the order minimum, average, maximum. *)
Definition rates_in_order (row : agg_credit_metrics_quarterly) : Prop :=
  match q_min_default_rate row, q_avg_default_rate row, q_max_default_rate row with
  | Some lo, Some a, Some hi => (lo <= a <= hi)%Z
  | None, None, None => True
  | _, _, _ => False
  end.

(** What [MODIFY product_number INT NULL] makes of a column. *)
Definition relaxed (c : Healer.column) : Healer.column :=
  if String.eqb (Healer.COLUMN_NAME c) "product_number"
  then {| Healer.COLUMN_NAME := "product_number"; Healer.COLUMN_TYPE := "INT";
          Healer.IS_NULLABLE := true |}
  else c.

(** The three columns the block can add, and its key. *)
Definition required_columns : list Healer.column :=
  map Healer.varchar64 ["product_code"; "product_type"; "segment"].

Definition uq_prod : Healer.index :=
  {| Healer.INDEX_NAME := "uq_prod"; Healer.NON_UNIQUE := false;
     Healer.key_columns := ["product_code"; "product_type"; "segment"] |}.

(** A stored total with NULL read as 0. *)
Definition cell_or_zero (c : option Z) : Z :=
  match c with
  | Some m => m
  | None => 0%Z
  end.

(** The year, country and product type of a quarterly grouping key. *)
Definition year_segment (k : quarterly_key) : yearly_key :=
  let '(year, quarter, quarter_key, country, product_type) := k in
  (year, country, product_type).

(** The quarterly rollup rows of a yearly rollup row's year, country and
    product type. *)
Definition of_segment (Y : agg_credit_metrics_yearly)
    (q : agg_credit_metrics_quarterly) : bool :=
  match q_year q with
  | Some y => (y =? y_year Y)%Z
  | None => false
  end
  && String.eqb (q_country q) (y_country Y)
  && String.eqb (q_product_type q) (y_product_type Y).

Definition quarterly_total (c : agg_credit_metrics_quarterly -> option Z)
    (Y : agg_credit_metrics_yearly) (Q : list agg_credit_metrics_quarterly) : Z :=
  Spec.Zsum (map (fun q => cell_or_zero (c q)) (filter (of_segment Y) Q)).

End Spec2.


(* ------------------------------------------------------------------ *)
(** * Properties *)

Import Sql Warehouse Spec Samples.

(** ** Comparisons and arithmetic of SQL values *)

Lemma Qle_bool_false (x y : Q) : Qle_bool x y = false <-> (y < x)%Q.
Proof.
  split; intro H.
  - apply Qnot_le_lt. intro L. apply Qle_bool_iff in L. congruence.
  - destruct (Qle_bool x y) eqn:E; [| reflexivity].
    apply Qle_bool_iff in E. exfalso. apply (Qlt_not_le _ _ H E).
Qed.

Lemma Qlt_bool_true (x y : Q) : Qlt_bool x y = true <-> (x < y)%Q.
Proof.
  unfold Qlt_bool. rewrite negb_true_iff. apply Qle_bool_false.
Qed.

Lemma Qlt_bool_false (x y : Q) : Qlt_bool x y = false <-> (y <= x)%Q.
Proof.
  unfold Qlt_bool. rewrite negb_false_iff. apply Qle_bool_iff.
Qed.

Ltac qcases :=
  repeat match goal with
  | H : Qle_bool _ _ = true |- _ => apply Qle_bool_iff in H
  | H : Qle_bool _ _ = false |- _ => apply Qle_bool_false in H
  | H : Qlt_bool _ _ = true |- _ => apply Qlt_bool_true in H
  | H : Qlt_bool _ _ = false |- _ => apply Qlt_bool_false in H
  end.

Lemma holds_gt_iff (a : num) (y : Q) :
  holds (gt a (lit y)) = true <-> exists x, a = Some x /\ (y < x)%Q.
Proof.
  destruct a as [x|]; simpl.
  - destruct (Qlt_bool y x) eqn:E; qcases.
    + split; [intros _; exists x; auto | auto].
    + split; [discriminate |].
      intros (x' & Hx & L). injection Hx as <-.
      exfalso. apply (Qlt_not_le _ _ L E).
  - split; [discriminate | intros (x & Hx & _); discriminate].
Qed.

Lemma non_null_In {A} (l : list (option A)) (v : A) :
  In v (non_null l) <-> In (Some v) l.
Proof.
  unfold non_null. rewrite in_flat_map. split.
  - intros ([x|] & Hin & Hv); simpl in Hv; [| contradiction].
    destruct Hv as [-> | []]. exact Hin.
  - intro Hin. exists (Some v). split; [exact Hin | left; reflexivity].
Qed.

Lemma pow10_pos (scale : Z) : (0 <= scale)%Z -> (0 < inject_Z (10 ^ scale))%Q.
Proof.
  intro H. change 0%Q with (inject_Z 0). rewrite <- Zlt_Qlt.
  apply Z.pow_pos_nonneg; lia.
Qed.

Lemma pow10_nonzero (scale : Z) : (0 <= scale)%Z -> ~ (inject_Z (10 ^ scale) == 0)%Q.
Proof.
  intros Hs E. pose proof (pow10_pos scale Hs) as Hp. rewrite E in Hp.
  apply (Qlt_irrefl _ Hp).
Qed.

Lemma rbind_Ok {A B} (r : result A) (k : A -> result B) (b : B) :
  rbind r k = Ok b -> exists a, r = Ok a /\ k a = Ok b.
Proof.
  destruct r as [a|e]; simpl; [| discriminate]. intro H. exists a. auto.
Qed.

(** ** Portfolio health score *)

(** C5: for a non-NULL default rate [r] the portfolio health score is 100 up
    to 0.02, 80 - (r - 0.02) * 1000 on (0.02, 0.05], 50 - (r - 0.05) * 1000 on
    (0.05, 0.10] and 0 above 0.10; at 0.02, 0.035 and 0.05 it is 100, 65 and
    50. *)
Theorem portfolioHealthScore_piecewise (r : Q) :
  ((r <= 0.02)%Q ->
     num_eq (Cube.portfolioHealthScore (Some r)) (Some 100%Q)) /\
  ((0.02 < r)%Q /\ (r <= 0.05)%Q ->
     num_eq (Cube.portfolioHealthScore (Some r))
            (Some (80 - (r - 0.02) * 1000)%Q)) /\
  ((0.05 < r)%Q /\ (r <= 0.10)%Q ->
     num_eq (Cube.portfolioHealthScore (Some r))
            (Some (50 - (r - 0.05) * 1000)%Q)) /\
  ((0.10 < r)%Q ->
     num_eq (Cube.portfolioHealthScore (Some r)) (Some 0%Q)) /\
  num_eq (Cube.portfolioHealthScore (Some 0.02%Q)) (Some 100%Q) /\
  num_eq (Cube.portfolioHealthScore (Some 0.035%Q)) (Some 65%Q) /\
  num_eq (Cube.portfolioHealthScore (Some 0.05%Q)) (Some 50%Q).
Proof.
  unfold Cube.portfolioHealthScore, le, lit, cmp2, holds, sub, mul, lift2.
  repeat split; try reflexivity.
  - intro H. apply Qle_bool_iff in H. rewrite H. simpl. reflexivity.
  - intros [H1 H2]. apply Qle_bool_false in H1. apply Qle_bool_iff in H2.
    rewrite H1, H2. simpl. reflexivity.
  - intros [H1 H2].
    assert (H0 : Qle_bool r 0.02 = false) by (apply Qle_bool_false; lra).
    apply Qle_bool_false in H1. apply Qle_bool_iff in H2.
    rewrite H0, H1, H2. simpl. reflexivity.
  - intro H.
    assert (H0 : Qle_bool r 0.02 = false) by (apply Qle_bool_false; lra).
    assert (H1 : Qle_bool r 0.05 = false) by (apply Qle_bool_false; lra).
    apply Qle_bool_false in H. rewrite H0, H1, H. simpl. reflexivity.
Qed.

(** The score at a rate inside the second segment, from the theorem. *)
Lemma portfolioHealthScore_piecewise_witness :
  num_eq (Cube.portfolioHealthScore (Some 0.03%Q))
         (Some (80 - (0.03 - 0.02) * 1000)%Q).
Proof.
  apply (proj1 (proj2 (portfolioHealthScore_piecewise 0.03%Q))).
  split; unfold Qlt, Qle; simpl; lia.
Defined.

(** ** Risk buckets *)

Local Open Scope string_scope.

Ltac risk_cases :=
  unfold Cube.riskCategory, Cube.riskCategoryDetailed, Views.risk_category,
    between, gt, lt, le, ge, lit, cmp2, and3, holds;
  repeat match goal with
  | |- context [Qlt_bool ?a ?b] => destruct (Qlt_bool a b) eqn:?
  | |- context [Qle_bool ?a ?b] => destruct (Qle_bool a b) eqn:?
  end; qcases; try reflexivity; try (exfalso; lra).

(** The three-level bucket of the Cube schema, on every value. *)
Lemma riskCategory_cases (r : Q) :
  ((0.05 < r)%Q -> Cube.riskCategory (Some r) = "High Risk") /\
  ((0.02 <= r)%Q /\ (r <= 0.05)%Q -> Cube.riskCategory (Some r) = "Medium Risk") /\
  ((r < 0.02)%Q -> Cube.riskCategory (Some r) = "Low Risk").
Proof.
  repeat split; try intros [H1 H2]; try intro H; risk_cases.
Qed.

(** The three-level bucket of the two SQL views, on every value. *)
Lemma risk_category_cases (r : Q) :
  ((0.05 < r)%Q -> Views.risk_category (Some r) = "High Risk") /\
  ((0.02 < r)%Q /\ (r <= 0.05)%Q -> Views.risk_category (Some r) = "Medium Risk") /\
  ((0 < r)%Q /\ (r <= 0.02)%Q -> Views.risk_category (Some r) = "Low Risk") /\
  ((r <= 0)%Q -> Views.risk_category (Some r) = "Unknown").
Proof.
  repeat split; try intros [H1 H2]; try intro H; risk_cases.
Qed.

(** The six-level bucket, on every value. *)
Lemma riskCategoryDetailed_cases (r : Q) :
  ((0.10 < r)%Q -> Cube.riskCategoryDetailed (Some r) = "Critical Risk") /\
  ((0.05 < r)%Q /\ (r <= 0.10)%Q ->
     Cube.riskCategoryDetailed (Some r) = "High Risk") /\
  ((0.03 <= r)%Q /\ (r <= 0.05)%Q ->
     Cube.riskCategoryDetailed (Some r) = "Medium-High Risk") /\
  ((0.02 <= r)%Q /\ (r < 0.03)%Q ->
     Cube.riskCategoryDetailed (Some r) = "Medium Risk") /\
  ((0.01 <= r)%Q /\ (r < 0.02)%Q ->
     Cube.riskCategoryDetailed (Some r) = "Low-Medium Risk") /\
  ((r < 0.01)%Q -> Cube.riskCategoryDetailed (Some r) = "Low Risk").
Proof.
  repeat split; try intros [H1 H2]; try intro H; risk_cases.
Qed.

(** Within the Cube schema the six-level bucket refines the three-level one. *)
Lemma riskCategoryDetailed_refines_riskCategory (default_rate : num) :
  bucket_of_detailed (Cube.riskCategoryDetailed default_rate)
  = Cube.riskCategory default_rate.
Proof.
  destruct default_rate as [r|]; [| reflexivity].
  risk_cases.
Qed.

(** C6 does not hold as worded for the Cube dimension: at default_rate = 0.02
    [riskCategory] is Medium Risk, and at default_rate = 0 it is Low Risk,
    where the claim has Low and Unknown. *)
Lemma riskCategory_boundary_counterexample :
  Cube.riskCategory (Some 0.02%Q) = "Medium Risk" /\
  Cube.riskCategory (Some 0.02%Q) <> "Low Risk" /\
  Cube.riskCategory (Some 0%Q) = "Low Risk" /\
  Cube.riskCategory (Some 0%Q) <> "Unknown".
Proof. repeat split; try reflexivity; discriminate. Qed.

(** C6, with the boundaries of the code: the Cube [riskCategory] is High above
    0.05, Medium on [0.02, 0.05], Low below 0.02 and Unknown for NULL; the
    views' [risk_category] is High above 0.05, Medium on (0.02, 0.05], Low on
    (0, 0.02] and Unknown for NULL or a rate not above 0; the six-level
    [riskCategoryDetailed] cuts further at 0.01, 0.03 and 0.10 and each of its
    buckets lies in one bucket of [riskCategory]; 0.06 is High Risk in all. *)
Theorem risk_buckets (r : Q) :
  (((0.05 < r)%Q -> Cube.riskCategory (Some r) = "High Risk") /\
   ((0.02 <= r)%Q /\ (r <= 0.05)%Q -> Cube.riskCategory (Some r) = "Medium Risk") /\
   ((r < 0.02)%Q -> Cube.riskCategory (Some r) = "Low Risk") /\
   Cube.riskCategory None = "Unknown") /\
  (((0.05 < r)%Q -> Views.risk_category (Some r) = "High Risk") /\
   ((0.02 < r)%Q /\ (r <= 0.05)%Q -> Views.risk_category (Some r) = "Medium Risk") /\
   ((0 < r)%Q /\ (r <= 0.02)%Q -> Views.risk_category (Some r) = "Low Risk") /\
   ((r <= 0)%Q -> Views.risk_category (Some r) = "Unknown") /\
   Views.risk_category None = "Unknown") /\
  (((0.10 < r)%Q -> Cube.riskCategoryDetailed (Some r) = "Critical Risk") /\
   ((0.05 < r)%Q /\ (r <= 0.10)%Q ->
      Cube.riskCategoryDetailed (Some r) = "High Risk") /\
   ((0.03 <= r)%Q /\ (r <= 0.05)%Q ->
      Cube.riskCategoryDetailed (Some r) = "Medium-High Risk") /\
   ((0.02 <= r)%Q /\ (r < 0.03)%Q ->
      Cube.riskCategoryDetailed (Some r) = "Medium Risk") /\
   ((0.01 <= r)%Q /\ (r < 0.02)%Q ->
      Cube.riskCategoryDetailed (Some r) = "Low-Medium Risk") /\
   ((r < 0.01)%Q -> Cube.riskCategoryDetailed (Some r) = "Low Risk") /\
   Cube.riskCategoryDetailed None = "Unknown") /\
  (forall default_rate : num,
     bucket_of_detailed (Cube.riskCategoryDetailed default_rate)
     = Cube.riskCategory default_rate) /\
  (Cube.riskCategory (Some 0.06%Q) = "High Risk" /\
   Views.risk_category (Some 0.06%Q) = "High Risk" /\
   Cube.riskCategoryDetailed (Some 0.06%Q) = "High Risk").
Proof.
  split; [| split; [| split; [| split]]].
  - pose proof (riskCategory_cases r) as (H1 & H2 & H3).
    repeat split; try assumption; reflexivity.
  - pose proof (risk_category_cases r) as (H1 & H2 & H3 & H4).
    repeat split; try assumption; reflexivity.
  - pose proof (riskCategoryDetailed_cases r) as (H1 & H2 & H3 & H4 & H5 & H6).
    repeat split; try assumption; reflexivity.
  - exact riskCategoryDetailed_refines_riskCategory.
  - repeat split; reflexivity.
Qed.

(** The boundary rate 0.02 in the Cube's three-level bucket, from the theorem. *)
Lemma risk_buckets_witness : Cube.riskCategory (Some 0.02%Q) = "Medium Risk".
Proof.
  apply (proj1 (proj2 (proj1 (risk_buckets 0.02%Q)))).
  split; unfold Qle; simpl; lia.
Defined.

(** ** The ordered window and year-over-year growth *)

Lemma insert_by_quarter_key_perm (x : fact_credit_metrics_qtr) (l : Cube.cube) :
  Permutation (Cube.insert_by_quarter_key x l) (x :: l).
Proof.
  induction l as [|y l IH]; simpl.
  - apply Permutation_refl.
  - destruct (f_quarter_key x <=? f_quarter_key y)%Z.
    + apply Permutation_refl.
    + eapply perm_trans; [apply perm_skip; exact IH | apply perm_swap].
Qed.

Lemma order_by_quarter_key_perm (l : Cube.cube) :
  Permutation (Cube.order_by_quarter_key l) l.
Proof.
  induction l as [|x l IH]; simpl.
  - apply perm_nil.
  - eapply perm_trans; [apply insert_by_quarter_key_perm |].
    apply perm_skip. exact IH.
Qed.

Lemma insert_by_quarter_key_sorted (x : fact_credit_metrics_qtr) (l : Cube.cube) :
  StronglySorted key_le l -> StronglySorted key_le (Cube.insert_by_quarter_key x l).
Proof.
  induction l as [|y l IH]; simpl; intro Hs.
  - constructor; [constructor | constructor].
  - inversion Hs as [|? ? Hs' Hall]; subst.
    destruct (f_quarter_key x <=? f_quarter_key y)%Z eqn:E.
    + apply Z.leb_le in E. constructor; [exact Hs |].
      constructor; [exact E |].
      eapply Forall_impl; [| exact Hall].
      intros a Ha. unfold key_le in *. lia.
    + apply Z.leb_gt in E. constructor; [apply IH; exact Hs' |].
      eapply Permutation_Forall.
      * apply Permutation_sym. apply insert_by_quarter_key_perm.
      * constructor; [unfold key_le; lia | exact Hall].
Qed.

Lemma order_by_quarter_key_sorted (l : Cube.cube) :
  StronglySorted key_le (Cube.order_by_quarter_key l).
Proof.
  induction l as [|x l IH]; simpl.
  - constructor.
  - apply insert_by_quarter_key_sorted. exact IH.
Qed.

Lemma same_partition_iff (r x : fact_credit_metrics_qtr) :
  Cube.same_partition r x = true <->
  f_geo_key x = f_geo_key r /\ f_product_key x = f_product_key r.
Proof.
  unfold Cube.same_partition. rewrite andb_true_iff, !Z.eqb_eq. tauto.
Qed.

(** The primary key leaves one row per quarter_key in a partition. *)
Lemma partition_keys_NoDup (T : Cube.cube) (r : fact_credit_metrics_qtr) :
  grain_unique T ->
  NoDup (map f_quarter_key (filter (Cube.same_partition r) T)).
Proof.
  unfold grain_unique. induction T as [|x T IH]; simpl; intro Hnd.
  - constructor.
  - inversion Hnd as [|? ? Hnotin Hnd']; subst.
    destruct (Cube.same_partition r x) eqn:E; [| apply IH; exact Hnd'].
    simpl. constructor; [| apply IH; exact Hnd'].
    intro Hin. apply in_map_iff in Hin. destruct Hin as (y & Hk & Hy).
    apply filter_In in Hy. destruct Hy as [Hy Ey].
    apply same_partition_iff in E, Ey.
    apply Hnotin. apply in_map_iff. exists y. split; [| exact Hy].
    unfold grain. destruct E as [-> ->], Ey as [-> ->]. rewrite Hk. reflexivity.
Qed.

Lemma sorted_NoDup_strict (W : Cube.cube) :
  StronglySorted key_le W -> NoDup (map f_quarter_key W) ->
  StronglySorted key_lt W.
Proof.
  induction W as [|x W IH]; intros Hs Hnd.
  - constructor.
  - inversion Hs as [|? ? Hs' Hall]; subst.
    inversion Hnd as [|? ? Hnotin Hnd']; subst.
    constructor; [apply IH; assumption |].
    rewrite Forall_forall in *. intros y Hy.
    specialize (Hall y Hy). unfold key_le, key_lt in *.
    assert (f_quarter_key x <> f_quarter_key y).
    { intro E. apply Hnotin. rewrite E. apply in_map. exact Hy. }
    lia.
Qed.

Lemma window_strictly_sorted (T : Cube.cube) (r : fact_credit_metrics_qtr) :
  grain_unique T -> StronglySorted key_lt (Cube.window T r).
Proof.
  intro Hu. apply sorted_NoDup_strict.
  - apply order_by_quarter_key_sorted.
  - eapply Permutation_NoDup.
    + apply Permutation_map. apply Permutation_sym.
      apply order_by_quarter_key_perm.
    + apply partition_keys_NoDup. exact Hu.
Qed.

(** In a strictly ordered window the rows before a row are those at the
    smaller positions. *)
Lemma rows_before_position (W : Cube.cube) (r : fact_credit_metrics_qtr) (i : nat) :
  StronglySorted key_lt W -> nth_error W i = Some r -> Cube.rows_before W r = i.
Proof.
  unfold Cube.rows_before. revert i.
  induction W as [|x W IH]; intros i Hs Hn.
  - destruct i; discriminate.
  - inversion Hs as [|? ? Hs' Hall]; subst. rewrite Forall_forall in Hall.
    destruct i as [|i]; simpl in *.
    + injection Hn as ->. rewrite Z.ltb_irrefl.
      assert (E : filter (fun x => (f_quarter_key x <? f_quarter_key r)%Z) W = []).
      { clear IH Hs Hs'. induction W as [|y W IHW]; simpl; [reflexivity |].
        assert (Hy : key_lt r y) by (apply Hall; left; reflexivity).
        unfold key_lt in Hy.
        destruct (f_quarter_key y <? f_quarter_key r)%Z eqn:E.
        - apply Z.ltb_lt in E. lia.
        - apply IHW. intros z Hz. apply Hall. right. exact Hz. }
      rewrite E. reflexivity.
    + assert (Hx : key_lt x r).
      { apply Hall. eapply nth_error_In. exact Hn. }
      unfold key_lt in Hx. apply Z.ltb_lt in Hx. rewrite Hx. simpl.
      f_equal. apply IH; assumption.
Qed.

Lemma window_position (T : Cube.cube) (r : fact_credit_metrics_qtr) :
  In r T -> exists i, nth_error (Cube.window T r) i = Some r.
Proof.
  intro Hin. apply In_nth_error.
  eapply Permutation_in.
  - apply Permutation_sym. apply order_by_quarter_key_perm.
  - apply filter_In. split; [exact Hin |].
    apply same_partition_iff. split; reflexivity.
Qed.

Lemma LAG_prior_value (M : fact_credit_metrics_qtr -> num)
    (T : Cube.cube) (r : fact_credit_metrics_qtr) (i : nat) :
  grain_unique T -> nth_error (Cube.window T r) i = Some r ->
  Cube.LAG M 4 T r = prior_value M (Cube.window T r) i.
Proof.
  intros Hu Hn. unfold Cube.LAG, prior_value.
  rewrite (rows_before_position _ _ i (window_strictly_sorted T r Hu) Hn).
  reflexivity.
Qed.

Lemma growth_case (quotient : Q -> Q -> Q) (cur prev : num) :
  (if holds (gt prev (lit 0))
   then mul (CubeQuery.divide quotient (sub cur prev) prev) (lit 100)
   else lit 0)
  = match prev with
    | Some m =>
        if Qlt_bool 0 m
        then match cur with
             | Some c => Some (quotient (c - m) m * 100)%Q
             | None => None
             end
        else Some 0%Q
    | None => Some 0%Q
    end.
Proof.
  destruct prev as [m|]; [| reflexivity]. simpl.
  destruct (Qlt_bool 0 m) eqn:E; [| reflexivity].
  destruct cur as [c|]; [| reflexivity]. simpl.
  destruct (Qeq_bool m 0) eqn:Ez; [| reflexivity].
  apply Qeq_bool_iff in Ez. apply Qlt_bool_true in E. exfalso. lra.
Qed.

(** The growth text as an expression of a select list, by the position of
    the row in its partition. *)
Lemma growth_sql_by_position (quotient : Q -> Q -> Q)
    (M : fact_credit_metrics_qtr -> num)
    (T : Cube.cube) (r : fact_credit_metrics_qtr) (i : nat) :
  grain_unique T -> nth_error (Cube.window T r) i = Some r ->
  CubeQuery.eval quotient T (CubeQuery.growth_sql M) r
  = growth_at_position quotient M (Cube.window T r) i r.
Proof.
  intros Hu Hi. unfold growth_at_position.
  rewrite <- (LAG_prior_value M T r i Hu Hi).
  rewrite <- growth_case. reflexivity.
Qed.

(** C3: the two growth measures are of type avg over a text that calls LAG
    ... OVER, so Cube selects them as [avg(CASE WHEN LAG(...) OVER (...) ...)],
    and the server refuses the statement, whatever the fact table holds and
    whichever rows are grouped: the measure raises where the claim promises a
    value; the sibling riskReductionGap, of type avg over a text without a
    window function, is computed.  The text itself, as an expression of a
    select list over a fact table with a unique grain, is at every row the
    percentage [quotient (M_t - M_t-4) M_t-4 * 100] against the row four
    positions earlier in the partition ordered by strictly ascending
    quarter_key, 0 when there is no such row or its value is NULL or not
    positive, and NULL when M_t is NULL: a percentage, not the ratio. *)
Theorem growth_measures_refused (quotient : Q -> Q -> Q) (mean : list Q -> Q)
    (T G : Cube.cube) :
  CubeQuery.select_measure quotient mean CubeQuery.originationGrowthRate T G
    = Err (ER_WINDOW_INVALID_WINDOW_FUNC_USE "lag") /\
  CubeQuery.select_measure quotient mean CubeQuery.balanceGrowthRate T G
    = Err (ER_WINDOW_INVALID_WINDOW_FUNC_USE "lag") /\
  CubeQuery.select_measure quotient mean CubeQuery.riskReductionGap T G
    = Ok (CubeQuery.average mean
            (map (fun r => sub (default_rate r) (lit 0.02)) G)) /\
  (grain_unique T ->
   forall r, In r T ->
     Permutation (Cube.window T r) (filter (Cube.same_partition r) T) /\
     StronglySorted key_lt (Cube.window T r) /\
     exists i,
       nth_error (Cube.window T r) i = Some r /\
       CubeQuery.eval quotient T (CubeQuery.sql CubeQuery.originationGrowthRate) r
         = growth_at_position quotient origination_amt (Cube.window T r) i r /\
       CubeQuery.eval quotient T (CubeQuery.sql CubeQuery.balanceGrowthRate) r
         = growth_at_position quotient balance_amt (Cube.window T r) i r).
Proof.
  split; [reflexivity |]. split; [reflexivity |]. split; [reflexivity |].
  intros Hu r Hin.
  split; [apply order_by_quarter_key_perm |].
  split; [apply window_strictly_sorted; exact Hu |].
  destruct (window_position T r Hin) as [i Hi].
  exists i. split; [exact Hi |].
  split; apply growth_sql_by_position; assumption.
Qed.

(** Five consecutive quarters of one (geo, product) pair, with the exact
    quotient: grouped together the measure is refused; as an expression of a
    select list the text gives 50 on the fifth row, 150.00 against 100.00
    four rows earlier, where the ratio is 0.5. *)
Lemma growth_measures_refused_witness :
  CubeQuery.select_measure Qdiv (fun _ => 0%Q) CubeQuery.originationGrowthRate
    five_quarters five_quarters
    = Err (ER_WINDOW_INVALID_WINDOW_FUNC_USE "lag") /\
  exists i,
    nth_error (Cube.window five_quarters fifth_quarter_row) i
      = Some fifth_quarter_row /\
    CubeQuery.eval Qdiv five_quarters
      (CubeQuery.sql CubeQuery.originationGrowthRate) fifth_quarter_row
    = growth_at_position Qdiv origination_amt
        (Cube.window five_quarters fifth_quarter_row) i fifth_quarter_row /\
    num_eq (growth_at_position Qdiv origination_amt
              (Cube.window five_quarters fifth_quarter_row) i fifth_quarter_row)
           (Some 50%Q).
Proof.
  assert (Hu : grain_unique five_quarters).
  { unfold grain_unique. simpl.
    repeat (constructor; [simpl; intuition discriminate |]). constructor. }
  assert (Hin : In fifth_quarter_row five_quarters).
  { simpl. tauto. }
  destruct (growth_measures_refused Qdiv (fun _ => 0%Q) five_quarters five_quarters)
    as (He & _ & _ & Hrow).
  split; [exact He |].
  destruct (Hrow Hu fifth_quarter_row Hin) as (_ & Hs & i & Hi & Ho & _).
  exists i. split; [exact Hi |]. split; [exact Ho |].
  assert (E : i = 4%nat).
  { rewrite <- (rows_before_position _ _ i Hs Hi). reflexivity. }
  subst i. reflexivity.
Defined.

(** ** Ratio measures and their denominators *)

(** A division whose divisor is NULL or zero is NULL. *)
Lemma div_by_null_or_zero (a b : num) :
  (b = None \/ exists y, b = Some y /\ (y == 0)%Q) -> div a b = None.
Proof.
  intros [-> | (y & -> & Hy)].
  - destruct a; reflexivity.
  - destruct a; [| reflexivity]. simpl.
    apply Qeq_bool_iff in Hy. rewrite Hy. reflexivity.
Qed.

(** The market share is NULL whenever the quarter's sum is NULL or zero. *)
Lemma marketShareByProduct_unguarded (T : Cube.cube) (r : fact_credit_metrics_qtr) :
  (Cube.quarter_sum T r = None \/
   exists y, Cube.quarter_sum T r = Some y /\ (y == 0)%Q) ->
  Cube.marketShareByProduct T r = None.
Proof.
  intro H. unfold Cube.marketShareByProduct.
  rewrite (div_by_null_or_zero _ _ H). reflexivity.
Qed.

(** The performance-vs-average measure is 0 whenever the quarter's mean is NULL
    or not positive. *)
Lemma performanceVsAverage_guarded (T : Cube.cube) (r : fact_credit_metrics_qtr) :
  (Cube.quarter_avg T r = None \/
   exists y, Cube.quarter_avg T r = Some y /\ (y <= 0)%Q) ->
  Cube.performanceVsAverage T r = Some 0%Q.
Proof.
  intro H. unfold Cube.performanceVsAverage.
  destruct (holds (gt (Cube.quarter_avg T r) (lit 0))) eqn:E; [| reflexivity].
  apply holds_gt_iff in E. destruct E as (x & Hx & L).
  destruct H as [H | (y & Hy & Le)]; rewrite Hx in *; [discriminate |].
  injection Hy as <-. exfalso. apply (Qlt_not_le _ _ L Le).
Qed.

(** C4: on a quarter whose only row has origination_amt 0 the per-quarter sum
    and mean are 0; performanceVsAverage is 0, while marketShareByProduct and
    the two unguarded ratios of CreditMetrics are NULL. *)
Theorem ratio_measures_on_zero_denominator :
  num_eq (Cube.quarter_sum [zero_quarter_row] zero_quarter_row) (Some 0%Q) /\
  num_eq (Cube.quarter_avg [zero_quarter_row] zero_quarter_row) (Some 0%Q) /\
  Cube.performanceVsAverage [zero_quarter_row] zero_quarter_row = Some 0%Q /\
  Cube.marketShareByProduct [zero_quarter_row] zero_quarter_row = None /\
  Cube.averageOriginationPerAccount zero_quarter_row = None /\
  Cube.balanceToOriginationRatio zero_quarter_row = None.
Proof. repeat split; reflexivity. Qed.

(** ** Performance category *)

Lemma Qsum_nonneg (l : list Q) :
  (forall y, In y l -> (0 <= y)%Q) -> (0 <= Qsum l)%Q.
Proof.
  induction l as [|x l IH]; simpl; intro H.
  - lra.
  - assert (0 <= x)%Q by (apply H; left; reflexivity).
    assert (0 <= Qsum l)%Q by (apply IH; intros y Hy; apply H; right; exact Hy).
    lra.
Qed.

Lemma Qsum_bounds_member (l : list Q) (x : Q) :
  (forall y, In y l -> (0 <= y)%Q) -> In x l -> (x <= Qsum l)%Q.
Proof.
  induction l as [|z l IH]; simpl; intros H Hin; [contradiction |].
  assert (Hl : forall y, In y l -> (0 <= y)%Q) by (intros y Hy; apply H; right; exact Hy).
  assert (0 <= z)%Q by (apply H; left; reflexivity).
  destruct Hin as [-> | Hin].
  - pose proof (Qsum_nonneg l Hl). lra.
  - pose proof (IH Hl Hin). lra.
Qed.

Lemma AVG_Some (l : list num) (a : Q) :
  AVG l = Some a ->
  non_null l <> [] /\
  a = (Qsum (non_null l) / inject_Z (Z.of_nat (List.length (non_null l))))%Q.
Proof.
  unfold AVG. destruct (non_null l) as [|x v] eqn:E; [discriminate |].
  intro H. injection H as <-. split; [discriminate | reflexivity].
Qed.

Lemma same_quarter_self (T : Cube.cube) (r : fact_credit_metrics_qtr) :
  In r T -> In r (Cube.same_quarter T r).
Proof.
  intro H. unfold Cube.same_quarter. apply filter_In. split; [exact H |].
  apply Z.eqb_refl.
Qed.

(** With no negative amount in the quarter and a zero mean, no amount of the
    quarter is positive. *)
Lemma zero_mean_no_positive (T : Cube.cube) (r : fact_credit_metrics_qtr) (a v : Q) :
  In r T ->
  Cube.quarter_avg T r = Some a -> (a == 0)%Q ->
  (forall x w, In x (Cube.same_quarter T r) -> origination_amt x = Some w ->
               (0 <= w)%Q) ->
  origination_amt r = Some v -> (v <= 0)%Q.
Proof.
  intros Hin Havg Ha Hpos Hv.
  apply AVG_Some in Havg. destruct Havg as [Hne Hdef].
  set (vs := non_null (map origination_amt (Cube.same_quarter T r))) in *.
  assert (Hmem : In v vs).
  { apply non_null_In. rewrite <- Hv. apply in_map.
    apply same_quarter_self. exact Hin. }
  assert (Hall : forall y, In y vs -> (0 <= y)%Q).
  { intros y Hy. apply non_null_In in Hy. apply in_map_iff in Hy.
    destruct Hy as (x & Hx & Hxin). exact (Hpos x y Hxin Hx). }
  pose proof (Qsum_bounds_member vs v Hall Hmem) as Hle.
  assert (Hn : (0 < inject_Z (Z.of_nat (List.length vs)))%Q).
  { destruct vs; [contradiction |]. unfold Qlt. simpl. lia. }
  assert (Hs : (Qsum vs == 0)%Q).
  { rewrite Hdef in Ha.
    assert (E : (Qsum vs ==
                 Qsum vs / inject_Z (Z.of_nat (List.length vs))
                 * inject_Z (Z.of_nat (List.length vs)))%Q).
    { field. intro Hz. rewrite Hz in Hn. apply (Qlt_irrefl _ Hn). }
    rewrite E, Ha. ring. }
  lra.
Qed.

(** C10 does not hold with negative amounts: in the quarter with amounts
    5.00 and -5.00 the mean is zero and the row with 5.00 is a Top
    Performer. *)
Lemma performanceCategory_zero_mean_counterexample :
  let r := fact_row 20243 1 1 None (Some 500) None None None None in
  In r mixed_sign_quarter /\
  num_eq (Cube.quarter_avg mixed_sign_quarter r) (Some 0%Q) /\
  Cube.performanceCategory mixed_sign_quarter r = "Top Performer" /\
  Cube.performanceCategory mixed_sign_quarter r <> "Underperformer".
Proof.
  repeat split; try reflexivity.
  - left. reflexivity.
  - discriminate.
Qed.

(** C10, without negative amounts: a row whose origination_amt is NULL, a
    row of a quarter whose mean is NULL, and a row of a quarter whose mean
    is zero and which holds no negative amount, is an Underperformer. *)
Theorem performanceCategory_underperformer
    (T : Cube.cube) (r : fact_credit_metrics_qtr) :
  In r T ->
  (origination_amt r = None \/
   Cube.quarter_avg T r = None \/
   ((exists a, Cube.quarter_avg T r = Some a /\ (a == 0)%Q) /\
    (forall x w, In x (Cube.same_quarter T r) -> origination_amt x = Some w ->
                 (0 <= w)%Q))) ->
  Cube.performanceCategory T r = "Underperformer".
Proof.
  intros Hin H. unfold Cube.performanceCategory.
  destruct (origination_amt r) as [v|] eqn:Hv.
  2:{ destruct (Cube.quarter_avg T r); reflexivity. }
  destruct H as [H | [H | [(a & Ha & Hz) Hpos]]].
  - discriminate.
  - rewrite H. reflexivity.
  - pose proof (zero_mean_no_positive T r a v Hin Ha Hz Hpos Hv) as Hle.
    rewrite Ha. unfold gt, mul, lit, lift2, cmp2, holds.
    assert (E1 : Qlt_bool (a * 1.5) v = false) by (apply Qlt_bool_false; lra).
    assert (E2 : Qlt_bool a v = false) by (apply Qlt_bool_false; lra).
    assert (E3 : Qlt_bool (a * 0.5) v = false) by (apply Qlt_bool_false; lra).
    rewrite E1, E2, E3. reflexivity.
Qed.

(** A quarter of one row with amount 0.00: the mean is zero, no amount is
    negative, and the row is an Underperformer. *)
Lemma performanceCategory_underperformer_witness :
  Cube.performanceCategory [zero_quarter_row] zero_quarter_row = "Underperformer".
Proof.
  apply performanceCategory_underperformer.
  - simpl. left. reflexivity.
  - right. right. split.
    + eexists. split; [reflexivity | vm_compute; reflexivity].
    + intros x w [<- | []] Hw. vm_compute in Hw. injection Hw as <-.
      unfold Qle. simpl. lia.
Defined.

(** ** The star join *)

Lemma star_join_In (F : list fact_credit_metrics_qtr) (D : list dim_date_qtr)
    (G : list dim_geo) (P : list dim_product) (j : joined) :
  In j (star_join F D G P) <->
  In (f j) F /\ In (d j) D /\ In (g j) G /\ In (p j) P /\
  f_quarter_key (f j) = d_quarter_key (d j) /\
  f_geo_key (f j) = g_geo_key (g j) /\
  f_product_key (f j) = p_product_key (p j).
Proof.
  unfold star_join. split.
  - intro H.
    apply in_flat_map in H. destruct H as (f0 & Hf & H).
    apply in_flat_map in H. destruct H as (d0 & Hd & H).
    apply in_flat_map in H. destruct H as (g0 & Hg & H).
    apply in_map_iff in H. destruct H as (p0 & <- & Hp).
    apply filter_In in Hd, Hg, Hp. simpl.
    destruct Hd as [Hd Ed], Hg as [Hg Eg], Hp as [Hp Ep].
    apply Z.eqb_eq in Ed, Eg, Ep. tauto.
  - intros (Hf & Hd & Hg & Hp & Ed & Eg & Ep).
    apply in_flat_map. exists (f j). split; [exact Hf |].
    apply in_flat_map. exists (d j). split.
    { apply filter_In. split; [exact Hd | apply Z.eqb_eq; exact Ed]. }
    apply in_flat_map. exists (g j). split.
    { apply filter_In. split; [exact Hg | apply Z.eqb_eq; exact Eg]. }
    apply in_map_iff. exists (p j). split.
    { destruct j; reflexivity. }
    apply filter_In. split; [exact Hp | apply Z.eqb_eq; exact Ep].
Qed.

Lemma grain_unique_eq (T : list fact_credit_metrics_qtr)
    (a b : fact_credit_metrics_qtr) :
  grain_unique T -> In a T -> In b T -> grain a = grain b -> a = b.
Proof.
  unfold grain_unique. induction T as [|x T IH]; simpl; intros Hnd Ha Hb E.
  - contradiction.
  - inversion Hnd as [|? ? Hnotin Hnd']; subst.
    destruct Ha as [-> | Ha], Hb as [-> | Hb].
    + reflexivity.
    + exfalso. apply Hnotin. rewrite E. apply in_map. exact Hb.
    + exfalso. apply Hnotin. rewrite <- E. apply in_map. exact Ha.
    + apply IH; assumption.
Qed.

(** ** Storing sums and means *)

Lemma round_half_away_inject (n : Z) : round_half_away (inject_Z n) = n.
Proof.
  unfold round_half_away.
  destruct (Qle_bool 0 (inject_Z n)) eqn:E.
  - apply Qle_bool_iff in E. change 0%Q with (inject_Z 0) in E.
    rewrite <- Zle_Qle in E.
    unfold Qfloor, Qplus, inject_Z. simpl.
    symmetry. apply Z.div_unique with (r := 1%Z); lia.
  - apply Qle_bool_false in E. change 0%Q with (inject_Z 0) in E.
    rewrite <- Zlt_Qlt in E.
    unfold Qfloor, Qplus, Qopp, inject_Z. simpl.
    assert (H : ((- n * 2 + 1) / 2 = - n)%Z).
    { symmetry. apply Z.div_unique with (r := 1%Z); lia. }
    rewrite H. lia.
Qed.

Lemma round_half_away_comp (x y : Q) :
  (x == y)%Q -> round_half_away x = round_half_away y.
Proof.
  intro H. unfold round_half_away.
  assert (E : Qle_bool 0 x = Qle_bool 0 y) by (rewrite H; reflexivity).
  rewrite E. destruct (Qle_bool 0 y).
  - apply Qfloor_comp. rewrite H. reflexivity.
  - f_equal. apply Qfloor_comp. rewrite H. reflexivity.
Qed.

Lemma non_null_map_Some {A B} (fn : A -> B) (l : list (option A)) :
  non_null (map (option_map fn) l) = map fn (non_null l).
Proof.
  unfold non_null. induction l as [|[a|] l IH]; simpl; [reflexivity | |];
    rewrite IH; reflexivity.
Qed.

Lemma non_null_of_decimal (scale : Z) (cs : list (option Z)) :
  non_null (map (of_decimal scale) cs)
  = map (fun m => (inject_Z m / inject_Z (10 ^ scale))%Q) (non_null cs).
Proof. apply (non_null_map_Some _ cs). Qed.

Lemma non_null_of_bigint (cs : list (option Z)) :
  non_null (map of_bigint cs) = map inject_Z (non_null cs).
Proof. apply (non_null_map_Some _ cs). Qed.

Lemma Qsum_scaled (den : Q) (v : list Z) :
  ~ (den == 0)%Q ->
  (Qsum (map (fun m => inject_Z m / den) v) == inject_Z (Zsum v) / den)%Q.
Proof.
  intro Hd. induction v as [|m v IH]; simpl.
  - field. exact Hd.
  - rewrite IH, inject_Z_plus. field. exact Hd.
Qed.

Lemma Qsum_inject (v : list Z) : (Qsum (map inject_Z v) == inject_Z (Zsum v))%Q.
Proof.
  induction v as [|m v IH]; simpl.
  - reflexivity.
  - rewrite IH, inject_Z_plus. reflexivity.
Qed.

(** A sum of DECIMAL cells is stored exactly. *)
Lemma store_decimal_SUM (column : string) (digits scale : Z)
    (cs : list (option Z)) (c : option Z) :
  (0 <= scale)%Z ->
  store_decimal column digits scale (SUM (map (of_decimal scale) cs)) = Ok c ->
  c = SUM_cells cs.
Proof.
  intros Hs. unfold SUM, SUM_cells.
  rewrite non_null_of_decimal.
  destruct (non_null cs) as [|m v] eqn:E.
  - simpl. intro H. injection H as <-. reflexivity.
  - cbn [map]. unfold store_decimal.
    set (q := Qsum _).
    assert (Hq : (q * inject_Z (10 ^ scale) == inject_Z (Zsum (m :: v)))%Q).
    { unfold q.
      rewrite (Qsum_scaled (inject_Z (10 ^ scale)) (m :: v) (pow10_nonzero _ Hs)).
      field. apply pow10_nonzero. exact Hs. }
    rewrite (round_half_away_comp _ _ Hq), round_half_away_inject.
    destruct (Z.abs _ <? _)%Z; [| discriminate].
    intro H. injection H as <-. reflexivity.
Qed.

(** A sum of BIGINT cells is stored exactly. *)
Lemma store_bigint_SUM (column : string) (cs : list (option Z)) (c : option Z) :
  store_bigint column (SUM (map of_bigint cs)) = Ok c -> c = SUM_cells cs.
Proof.
  unfold SUM, SUM_cells. rewrite non_null_of_bigint.
  destruct (non_null cs) as [|m v] eqn:E.
  - simpl. intro H. injection H as <-. reflexivity.
  - cbn [map]. unfold store_bigint.
    set (q := Qsum _).
    assert (Hq : (q == inject_Z (Zsum (m :: v)))%Q)
      by (unfold q; apply (Qsum_inject (m :: v))).
    rewrite (round_half_away_comp _ _ Hq), round_half_away_inject.
    destruct (_ && _); [| discriminate].
    intro H. injection H as <-. reflexivity.
Qed.

(** A mean of DECIMAL cells is stored rounded to the scale of the cells. *)
Lemma store_decimal_AVG (column : string) (digits scale : Z)
    (cs : list (option Z)) (c : option Z) :
  (0 <= scale)%Z ->
  store_decimal column digits scale (AVG (map (of_decimal scale) cs)) = Ok c ->
  c = mean_cells_rounded cs.
Proof.
  intros Hs. unfold AVG, mean_cells_rounded, mean_cells.
  rewrite non_null_of_decimal.
  destruct (non_null cs) as [|m v] eqn:E.
  - simpl. intro H. injection H as <-. reflexivity.
  - cbn [map option_map]. unfold store_decimal.
    set (fn := fun m0 : Z => (inject_Z m0 / inject_Z (10 ^ scale))%Q).
    set (n := inject_Z (Z.of_nat (List.length (m :: v)))).
    assert (Hn : ~ (n == 0)%Q).
    { unfold n. simpl. intro H. unfold Qeq in H. simpl in H. lia. }
    set (q := (Qsum _ / _ * _)%Q).
    assert (Hq : (q == inject_Z (Zsum (m :: v)) / n)%Q).
    { unfold q.
      change (Qsum (map fn (m :: v))
              / inject_Z (Z.of_nat (List.length (map fn (m :: v))))
              * inject_Z (10 ^ scale) == inject_Z (Zsum (m :: v)) / n)%Q.
      rewrite length_map. fold n. unfold fn.
      rewrite (Qsum_scaled (inject_Z (10 ^ scale)) (m :: v) (pow10_nonzero _ Hs)).
      field. split; [exact Hn | apply pow10_nonzero; exact Hs]. }
    rewrite (round_half_away_comp _ _ Hq).
    destruct (Z.abs _ <? _)%Z; [| discriminate].
    intro H. injection H as <-. reflexivity.
Qed.

(** ** GROUP BY and the yearly rollup *)

Lemma varchar_eqb_eq (a b : option string) : varchar_eqb a b = true <-> a = b.
Proof.
  destruct a as [x|], b as [y|]; simpl; try (split; [discriminate | discriminate]).
  - rewrite String.eqb_eq. split; [intros ->; reflexivity | intro H; injection H; auto].
  - split; reflexivity.
Qed.

Lemma yearly_key_eqb_eq (a b : Rollup.yearly_key) :
  Rollup.yearly_key_eqb a b = true <-> a = b.
Proof.
  destruct a as [[y1 c1] t1], b as [[y2 c2] t2]. unfold Rollup.yearly_key_eqb.
  rewrite !andb_true_iff, Z.eqb_eq, !varchar_eqb_eq. split.
  - intros [[-> ->] ->]. reflexivity.
  - intro H. injection H as -> -> ->. auto.
Qed.

Section Distinct.

Variable K : Type.
Variable eqb : K -> K -> bool.
Hypothesis eqb_eq : forall a b, eqb a b = true <-> a = b.

Lemma existsb_eqb_In (k : K) (l : list K) : existsb (eqb k) l = true <-> In k l.
Proof.
  rewrite existsb_exists. split.
  - intros (x & Hx & E). apply eqb_eq in E. subst. exact Hx.
  - intro H. exists k. split; [exact H | apply eqb_eq; reflexivity].
Qed.

Lemma distinct_In (k : K) (l : list K) : In k (distinct eqb l) <-> In k l.
Proof.
  induction l as [|x l IH]; simpl; [tauto |].
  destruct (existsb (eqb x) l) eqn:E.
  - apply existsb_eqb_In in E. rewrite IH. split; [auto |].
    intros [<- | H]; assumption.
  - simpl. rewrite IH. tauto.
Qed.

Lemma distinct_NoDup (l : list K) : NoDup (distinct eqb l).
Proof.
  induction l as [|x l IH]; simpl; [constructor |].
  destruct (existsb (eqb x) l) eqn:E; [exact IH |].
  constructor; [| exact IH].
  rewrite distinct_In. intro H. apply existsb_eqb_In in H. congruence.
Qed.

Lemma filter_key_unique {R} (pk : R -> K) (T : list R) (row : R) :
  NoDup (map pk T) -> In row T ->
  filter (fun r => eqb (pk r) (pk row)) T = [row].
Proof.
  induction T as [|x T IH]; simpl; intros Hnd Hin; [contradiction |].
  inversion Hnd as [|? ? Hnotin Hnd']; subst.
  assert (Hnone : forall y, ~ In (pk y) (map pk T) ->
            filter (fun r => eqb (pk r) (pk y)) T = []).
  { intros y Hy. clear IH Hnd Hnd' Hin Hnotin.
    induction T as [|z T IHT]; simpl; [reflexivity |].
    destruct (eqb (pk z) (pk y)) eqn:E.
    - apply eqb_eq in E. exfalso. apply Hy. left. exact E.
    - apply IHT. intro H. apply Hy. right. exact H. }
  destruct Hin as [-> | Hin].
  - assert (E : eqb (pk row) (pk row) = true) by (apply eqb_eq; reflexivity).
    rewrite E. rewrite (Hnone row Hnotin). reflexivity.
  - destruct (eqb (pk x) (pk row)) eqn:E.
    + apply eqb_eq in E. exfalso. apply Hnotin. rewrite E. apply in_map. exact Hin.
    + apply IH; assumption.
Qed.

End Distinct.

Lemma rmap_Forall2 {A B} (fn : A -> result B) (l : list A) (rows : list B) :
  rmap fn l = Ok rows -> Forall2 (fun a b => fn a = Ok b) l rows.
Proof.
  revert rows. induction l as [|a l IH]; simpl; intros rows H.
  - injection H as <-. constructor.
  - apply rbind_Ok in H. destruct H as (b & Hb & H).
    apply rbind_Ok in H. destruct H as (bs & Hbs & H).
    injection H as <-. constructor; [exact Hb | apply IH; exact Hbs].
Qed.

(** What one stored row of the yearly SELECT holds. *)
Lemma yearly_row_Ok (k : Rollup.yearly_key) (grp : list joined)
    (row : Rollup.agg_credit_metrics_yearly) :
  Rollup.yearly_row (k, grp) = Ok row ->
  Rollup.yearly_pk row = k /\
  Rollup.y_total_originations_cnt row = SUM_cells (cells f_originations_cnt grp) /\
  Rollup.y_total_origination_amt row = SUM_cells (cells f_origination_amt grp) /\
  Rollup.y_total_balance_amt row = SUM_cells (cells f_balance_amt grp) /\
  Rollup.y_avg_default_rate row = mean_cells_rounded (cells f_default_rate grp) /\
  Rollup.y_avg_prime_rate row = mean_cells_rounded (cells f_prime_rate grp) /\
  Rollup.y_avg_lending_rate row = mean_cells_rounded (cells f_lending_rate grp).
Proof.
  destruct k as [[year country] product_type]. unfold Rollup.yearly_row.
  intro H.
  apply rbind_Ok in H. destruct H as (c & Hc & H).
  apply rbind_Ok in H. destruct H as (t & Ht & H).
  apply rbind_Ok in H. destruct H as (oc & Hoc & H).
  apply rbind_Ok in H. destruct H as (oa & Hoa & H).
  apply rbind_Ok in H. destruct H as (ba & Hba & H).
  apply rbind_Ok in H. destruct H as (dr & Hdr & H).
  apply rbind_Ok in H. destruct H as (pr & Hpr & H).
  apply rbind_Ok in H. destruct H as (lr & Hlr & H).
  injection H as <-. simpl.
  destruct country as [c0|]; [| discriminate].
  destruct product_type as [t0|]; [| discriminate].
  simpl in Hc, Ht. injection Hc as <-. injection Ht as <-.
  assert (Ecol : forall (cell : fact_credit_metrics_qtr -> option Z) scale,
            Rollup.col (fun r => of_decimal scale (cell r)) grp
            = map (of_decimal scale) (cells cell grp)).
  { intros cell scale. unfold Rollup.col, cells. rewrite map_map. reflexivity. }
  assert (Ecnt : Rollup.col originations_cnt grp
                 = map of_bigint (cells f_originations_cnt grp)).
  { unfold Rollup.col, cells, originations_cnt. rewrite map_map. reflexivity. }
  split; [reflexivity |].
  split; [rewrite Ecnt in Hoc; apply (store_bigint_SUM _ _ _ Hoc) |].
  unfold origination_amt, balance_amt, default_rate, prime_rate, lending_rate in *.
  rewrite Ecol in Hoa, Hba, Hdr, Hpr, Hlr.
  split; [apply (store_decimal_SUM _ _ 2 _ _ ltac:(lia) Hoa) |].
  split; [apply (store_decimal_SUM _ _ 2 _ _ ltac:(lia) Hba) |].
  split; [apply (store_decimal_AVG _ _ 4 _ _ ltac:(lia) Hdr) |].
  split; [apply (store_decimal_AVG _ _ 4 _ _ ltac:(lia) Hpr) |].
  apply (store_decimal_AVG _ _ 4 _ _ ltac:(lia) Hlr).
Qed.

(** The rows stored for the groups of a database form the rounded rollup. *)
Lemma yearly_rows_match (db : Rollup.database)
    (rows : list Rollup.agg_credit_metrics_yearly) :
  rmap Rollup.yearly_row (Rollup.yearly_groups db) = Ok rows ->
  Spec_yearly_rollup_rounded db rows.
Proof.
  intro H. apply rmap_Forall2 in H.
  unfold Rollup.yearly_groups, group_by in H.
  set (keys := distinct Rollup.yearly_key_eqb
                 (map Rollup.yearly_key_of (Rollup.from_join db))) in *.
  assert (Hpk : map Rollup.yearly_pk rows = keys).
  { clearbody keys. revert rows H.
    induction keys as [|k keys IH]; intros rows H; inversion H; subst; simpl.
    - reflexivity.
    - f_equal; [| apply IH; assumption].
      match goal with Hr : Rollup.yearly_row _ = Ok _ |- _ =>
        apply yearly_row_Ok in Hr; apply Hr end. }
  split.
  { intros row Hin.
    apply (distinct_In _ _ yearly_key_eqb_eq). fold keys. rewrite <- Hpk.
    apply in_map. exact Hin. }
  intros k Hk.
  assert (Hkd : In k keys).
  { apply (distinct_In _ _ yearly_key_eqb_eq). exact Hk. }
  assert (Hrow : exists row, In row rows /\
            Rollup.yearly_row (k, yearly_members db k) = Ok row).
  { clear Hpk. clearbody keys. revert rows H.
    induction keys as [|k0 keys IH]; intros rows H; [contradiction |].
    inversion H as [|? row0 ? rows0 Hr0 Hrest]; subst.
    destruct Hkd as [-> | Hkd].
    - exists row0. split; [left; reflexivity | exact Hr0].
    - destruct (IH Hkd rows0 Hrest) as (row & Hin & Hr).
      exists row. split; [right; exact Hin | exact Hr]. }
  destruct Hrow as (row & Hin & Hr).
  apply yearly_row_Ok in Hr. destruct Hr as (Hkey & Hrest).
  exists row. split; [| exact Hrest].
  rewrite <- Hkey.
  apply (filter_key_unique _ _ yearly_key_eqb_eq Rollup.yearly_pk rows row);
    [| exact Hin].
  rewrite Hpk. apply (distinct_NoDup _ _ yearly_key_eqb_eq).
Qed.

(** ** The refresh procedures *)

Lemma committed_implicit_commit (s : Rollup.session) :
  Rollup.committed (Rollup.implicit_commit s) = Rollup.current s.
Proof.
  unfold Rollup.implicit_commit, Rollup.current.
  destruct (Rollup.pending s); reflexivity.
Qed.

Lemma pending_implicit_commit (s : Rollup.session) :
  Rollup.pending (Rollup.implicit_commit s) = None.
Proof.
  unfold Rollup.implicit_commit.
  destruct (Rollup.pending s) eqn:E; [reflexivity | exact E].
Qed.

(** A successful [RefreshOLAPAggregations] leaves no open transaction, and
    the committed database is the one it read with the yearly rollup replaced
    by the rows stored for its groups. *)
Lemma RefreshOLAPAggregations_Ok (s s' : Rollup.session) (status : string) :
  Rollup.RefreshOLAPAggregations s = (s', Ok status) ->
  exists rows,
    rmap Rollup.yearly_row (Rollup.yearly_groups (Rollup.current s)) = Ok rows /\
    Rollup.pending s' = None /\
    Rollup.committed s' = Rollup.with_agg_yearly rows (Rollup.current s).
Proof.
  unfold Rollup.RefreshOLAPAggregations, Rollup.bind, Rollup.truncate,
    Rollup.dml, Rollup.ret.
  set (s1 := Rollup.implicit_commit s).
  unfold Rollup.current at 1. cbn [Rollup.pending Rollup.publish Rollup.committed].
  unfold Rollup.insert_yearly.
  fold s1. unfold s1 at 1 2. rewrite !committed_implicit_commit.
  change (Rollup.yearly_groups (Rollup.with_agg_yearly [] (Rollup.current s)))
    with (Rollup.yearly_groups (Rollup.current s)).
  destruct (rmap Rollup.yearly_row (Rollup.yearly_groups (Rollup.current s)))
    as [rows|e] eqn:E; cbn [rbind]; [| discriminate].
  destruct (Rollup.pk_unique _ _ _); [| discriminate].
  intro H. injection H as <- _. exists rows.
  split; [reflexivity |]. split; [reflexivity |].
  simpl. unfold s1. rewrite committed_implicit_commit. reflexivity.
Qed.

(** A successful [RefreshAllAggregations] ends with the yearly rollup that
    its call of [RefreshOLAPAggregations] stored. *)
Lemma RefreshAllAggregations_Ok (STDDEV : list num -> num)
    (s s' : Rollup.session) (status : list string) :
  Rollup.RefreshAllAggregations STDDEV s = (s', Ok status) ->
  exists rows,
    rmap Rollup.yearly_row (Rollup.yearly_groups (Rollup.current s)) = Ok rows /\
    Rollup.tbl_agg_yearly (Rollup.current s') = rows.
Proof.
  unfold Rollup.RefreshAllAggregations, Rollup.exit_handler.
  unfold Rollup.bind at 1. unfold Rollup.START_TRANSACTION.
  set (s0 := {| Rollup.committed := Rollup.committed (Rollup.implicit_commit s);
                Rollup.pending := Some (Rollup.committed (Rollup.implicit_commit s));
                Rollup.snapshots := Rollup.snapshots (Rollup.implicit_commit s) |}).
  assert (Hs0 : Rollup.current s0 = Rollup.current s).
  { unfold s0, Rollup.current at 1. simpl. apply committed_implicit_commit. }
  unfold Rollup.bind at 1.
  destruct (Rollup.RefreshOLAPAggregations s0) as [s1 [st|e]] eqn:E1.
  2:{ unfold Rollup.bind, Rollup.ROLLBACK, Rollup.RESIGNAL. discriminate. }
  apply RefreshOLAPAggregations_Ok in E1. destruct E1 as (rows & Hrows & Hp & Hc).
  rewrite Hs0 in Hrows, Hc.
  unfold Rollup.bind, Rollup.truncate, Rollup.dml, Rollup.COMMIT, Rollup.ret.
  assert (Hi : Rollup.implicit_commit s1 = s1).
  { unfold Rollup.implicit_commit. rewrite Hp. reflexivity. }
  rewrite Hi.
  unfold Rollup.current at 1. cbn [Rollup.pending Rollup.publish Rollup.committed].
  destruct (Rollup.insert_quarterly STDDEV _) as [w|e] eqn:E2.
  2:{ unfold Rollup.ROLLBACK, Rollup.RESIGNAL. discriminate. }
  cbn [Rollup.pending Rollup.publish Rollup.implicit_commit].
  intro H. injection H as <- _.
  exists rows. split; [exact Hrows |].
  unfold Rollup.current. cbn [Rollup.pending Rollup.committed].
  unfold Rollup.insert_quarterly in E2.
  apply rbind_Ok in E2. destruct E2 as (qrows & _ & E2).
  destruct (Rollup.pk_unique _ _ _); [| discriminate].
  injection E2 as <-. simpl. rewrite Hc. reflexivity.
Qed.

(** C1 does not hold with exact means: with default rates 0.0001 and 0.0002
    in one group the refresh succeeds and the stored avg_default_rate is
    0.0002, not the mean 0.00015. *)
Lemma yearly_rollup_mean_counterexample :
  exists s' status,
    Rollup.RefreshOLAPAggregations (Rollup.connect two_rates) = (s', Ok status) /\
    map Rollup.y_avg_default_rate (Rollup.tbl_agg_yearly (Rollup.current s'))
      = [Some 2%Z] /\
    num_eq (mean_cells (cells f_default_rate
              (yearly_members two_rates (2024%Z, Some "US", Some "CreditCard"))))
           (Some 1.5%Q) /\
    ~ Spec_yearly_rollup_exact two_rates (Rollup.tbl_agg_yearly (Rollup.current s')).
Proof.
  eexists. eexists. split; [reflexivity |].
  split; [reflexivity |]. split; [reflexivity |].
  intros [_ H].
  destruct (H (2024%Z, Some "US", Some "CreditCard")) as (row & Hf & _ & _ & _ & Hd & _).
  { left. reflexivity. }
  vm_compute in Hf. injection Hf as <-.
  vm_compute in Hd. discriminate.
Qed.

(** C1, with stored means: after a refresh that completes, by either
    procedure, the yearly rollup holds for every (year, country,
    product_type) of the join exactly one row; its totals are the exact sums
    of the non-NULL measures of the group and its averages are their
    arithmetic means rounded to four decimal places, NULL where the group
    has no non-NULL value; for Scenario A the row is (2024, US, CreditCard)
    with total_origination_amt 500000.00 and avg_default_rate 0.0300. *)
Theorem yearly_rollup_after_refresh (STDDEV : list num -> num)
    (s s1 s2 : Rollup.session) (st1 : string) (st2 : list string) :
  (Rollup.RefreshOLAPAggregations s = (s1, Ok st1) ->
   Spec_yearly_rollup_rounded (Rollup.current s)
     (Rollup.tbl_agg_yearly (Rollup.current s1))) /\
  (Rollup.RefreshAllAggregations STDDEV s = (s2, Ok st2) ->
   Spec_yearly_rollup_rounded (Rollup.current s)
     (Rollup.tbl_agg_yearly (Rollup.current s2))) /\
  (exists sA stA,
     Rollup.RefreshOLAPAggregations (Rollup.connect scenario_A) = (sA, Ok stA) /\
     Rollup.tbl_agg_yearly (Rollup.current sA)
     = [ {| Rollup.y_year := 2024; Rollup.y_country := "US";
            Rollup.y_product_type := "CreditCard";
            Rollup.y_total_originations_cnt := Some 100%Z;
            Rollup.y_total_origination_amt := Some 50000000%Z;
            Rollup.y_total_balance_amt := None;
            Rollup.y_avg_default_rate := Some 300%Z;
            Rollup.y_avg_prime_rate := None;
            Rollup.y_avg_lending_rate := None |} ]).
Proof.
  split; [| split].
  - intro H. apply RefreshOLAPAggregations_Ok in H.
    destruct H as (rows & Hrows & Hp & Hc).
    unfold Rollup.current at 2. rewrite Hp, Hc. simpl.
    apply yearly_rows_match. exact Hrows.
  - intro H. apply RefreshAllAggregations_Ok in H.
    destruct H as (rows & Hrows & Hy). rewrite Hy.
    apply yearly_rows_match. exact Hrows.
  - eexists. eexists. split; reflexivity.
Qed.

(** Scenario A refreshed, from the theorem: the one key of the join has its
    one row in the rollup. *)
Lemma yearly_rollup_after_refresh_witness :
  Spec_yearly_rollup_rounded scenario_A
    (Rollup.tbl_agg_yearly
       (Rollup.current (fst (Rollup.RefreshOLAPAggregations
                               (Rollup.connect scenario_A))))).
Proof.
  apply (proj1 (yearly_rollup_after_refresh (fun _ => None)
                  (Rollup.connect scenario_A)
                  (fst (Rollup.RefreshOLAPAggregations (Rollup.connect scenario_A)))
                  (Rollup.connect scenario_A)
                  "OLAP aggregations refreshed successfully" [])).
  reflexivity.
Defined.

(** C2: on a warehouse whose geography row has a NULL country the yearly
    INSERT is rejected; [RefreshAllAggregations] re-raises the error after its
    ROLLBACK, and the committed yearly rollup is then empty, the row of the
    earlier refresh gone.  On Scenario A, where the refresh succeeds, the
    committed states passed through hold 1, 1, 0, 1, 1 and 1 yearly rows: the
    emptied table is committed before the new rows are. *)
Theorem RefreshAllAggregations_truncate_commits (STDDEV : list num -> num) :
  (Rollup.tbl_agg_yearly unknown_country_with_rollup = [previous_yearly_row] /\
   snd (Rollup.RefreshAllAggregations STDDEV
          (Rollup.connect unknown_country_with_rollup))
     = Err (ER_BAD_NULL_ERROR "country") /\
   Rollup.tbl_agg_yearly
     (Rollup.committed
        (fst (Rollup.RefreshAllAggregations STDDEV
                (Rollup.connect unknown_country_with_rollup)))) = [] /\
   Rollup.pending
     (fst (Rollup.RefreshAllAggregations STDDEV
             (Rollup.connect unknown_country_with_rollup))) = None) /\
  (snd (Rollup.RefreshAllAggregations stddev_of_single
          (Rollup.connect scenario_A_with_rollup))
     = Ok ["OLAP aggregations refreshed successfully";
           "All aggregations refreshed successfully"] /\
   map (fun db => List.length (Rollup.tbl_agg_yearly db))
       (Rollup.snapshots
          (fst (Rollup.RefreshAllAggregations stddev_of_single
                  (Rollup.connect scenario_A_with_rollup))))
     = [1; 1; 0; 1; 1; 1]%nat).
Proof.
  split; [| split; reflexivity].
  repeat split; reflexivity.
Qed.

(** ** The reporting view *)

(** C8 does not hold for the derived measures: the view row of Scenario A,
    whose fact row has NULL rates and a NULL balance, shows NULL in
    prime_lending_spread and in balance_to_origination_ratio. *)
Lemma v_powerbi_optimized_null_counterexample :
  exists v,
    In v (Views.v_powerbi_optimized scenario_A) /\
    In ("prime_lending_spread", None) (Views.measure_columns v) /\
    In ("balance_to_origination_ratio", None) (Views.measure_columns v).
Proof.
  eexists. split; [left; reflexivity |].
  split; simpl; tauto.
Qed.

Lemma coalesce_not_null (a : num) (dflt : Q) :
  coalesce a dflt = Some (match a with Some x => x | None => dflt end).
Proof. destruct a; reflexivity. Qed.

Lemma guarded_ratio_zero (den x : num) :
  (den = None \/ exists c, den = Some c /\ (c <= 0)%Q) ->
  (if holds (gt den (lit 0)) then x else lit 0) = Some 0%Q.
Proof.
  intro H. destruct (holds (gt den (lit 0))) eqn:E; [| reflexivity].
  apply holds_gt_iff in E. destruct E as (y & Hy & L).
  destruct H as [H | (c & Hc & Le)]; rewrite Hy in *; [discriminate |].
  injection Hc as <-. exfalso. apply (Qlt_not_le _ _ L Le).
Qed.

(** C8, for the measures the view guards: every row of [v_powerbi_optimized]
    is built from one fact row, the only one of its grain, joined with its
    three dimension rows; the six fact measures show the stored value, or 0
    for NULL; the two ratios are 0 when their denominator is NULL or not
    positive; the spread is the difference of the stored rates. *)
Theorem v_powerbi_optimized_row_of_fact
    (db : Rollup.database) (v : Views.v_powerbi_optimized_row) :
  grain_unique (Rollup.tbl_fact db) ->
  In v (Views.v_powerbi_optimized db) ->
  exists fr : fact_credit_metrics_qtr,
    In fr (Rollup.tbl_fact db) /\
    In (Views.v_date v) (Rollup.tbl_dim_date_qtr db) /\
    In (Views.v_geo v) (Rollup.tbl_dim_geo db) /\
    In (Views.v_product v) (Rollup.tbl_dim_product db) /\
    grain fr = (d_quarter_key (Views.v_date v), g_geo_key (Views.v_geo v),
                p_product_key (Views.v_product v)) /\
    (forall fr', In fr' (Rollup.tbl_fact db) -> grain fr' = grain fr -> fr' = fr) /\
    Views.v_originations_cnt v
      = Some (match originations_cnt fr with Some x => x | None => 0%Q end) /\
    Views.v_origination_amt v
      = Some (match origination_amt fr with Some x => x | None => 0%Q end) /\
    Views.v_balance_amt v
      = Some (match balance_amt fr with Some x => x | None => 0%Q end) /\
    Views.v_default_rate v
      = Some (match default_rate fr with Some x => x | None => 0%Q end) /\
    Views.v_prime_rate v
      = Some (match prime_rate fr with Some x => x | None => 0%Q end) /\
    Views.v_lending_rate v
      = Some (match lending_rate fr with Some x => x | None => 0%Q end) /\
    ((originations_cnt fr = None \/
      exists c, originations_cnt fr = Some c /\ (c <= 0)%Q) ->
     Views.v_avg_origination_per_account v = Some 0%Q) /\
    ((origination_amt fr = None \/
      exists c, origination_amt fr = Some c /\ (c <= 0)%Q) ->
     Views.v_balance_to_origination_ratio v = Some 0%Q) /\
    Views.v_prime_lending_spread v = sub (prime_rate fr) (lending_rate fr).
Proof.
  intros Hu Hv. unfold Views.v_powerbi_optimized in Hv.
  apply in_map_iff in Hv. destruct Hv as (j & <- & Hj).
  unfold Rollup.from_join in Hj. apply star_join_In in Hj.
  destruct Hj as (Hf & Hd & Hg & Hp & Ed & Eg & Ep).
  exists (f j). simpl.
  repeat match goal with |- _ /\ _ => split end;
    try assumption; try apply coalesce_not_null; try reflexivity.
  - unfold grain. rewrite Ed, Eg, Ep. reflexivity.
  - intros fr' Hin E. apply (grain_unique_eq _ _ _ Hu Hin Hf E).
  - apply guarded_ratio_zero.
  - apply guarded_ratio_zero.
Qed.

(** In Scenario A the view has one row; its raw balance shows 0. *)
Lemma v_powerbi_optimized_row_of_fact_witness :
  exists fr,
    In fr (Rollup.tbl_fact scenario_A) /\
    Views.v_balance_amt (Views.v_powerbi_optimized_select joined_A)
      = Some (match balance_amt fr with Some x => x | None => 0%Q end).
Proof.
  assert (Hu : grain_unique (Rollup.tbl_fact scenario_A)).
  { unfold grain_unique. simpl. constructor; [simpl; tauto | constructor]. }
  assert (Hin : In (Views.v_powerbi_optimized_select joined_A)
                   (Views.v_powerbi_optimized scenario_A)).
  { left. reflexivity. }
  destruct (v_powerbi_optimized_row_of_fact scenario_A _ Hu Hin)
    as (fr & Hfr & _ & _ & _ & _ & _ & _ & _ & Hb & _).
  exists fr. split; [exact Hfr | exact Hb].
Defined.

(** ** The quality validator *)

Lemma decimal_lt (scale m : Z) (q : Q) :
  (0 <= scale)%Z ->
  Qlt_bool (inject_Z m / inject_Z (10 ^ scale)) q = true <->
  (inject_Z m < q * inject_Z (10 ^ scale))%Q.
Proof.
  intro Hs. pose proof (pow10_pos scale Hs) as Hd.
  rewrite Qlt_bool_true. split; intro H.
  - apply (Qmult_lt_r _ _ _ Hd) in H.
    assert (E : (inject_Z m / inject_Z (10 ^ scale) * inject_Z (10 ^ scale)
                 == inject_Z m)%Q) by (field; lra).
    rewrite E in H. exact H.
  - apply Qlt_shift_div_r; assumption.
Qed.

Lemma decimal_gt (scale m : Z) (q : Q) :
  (0 <= scale)%Z ->
  Qlt_bool q (inject_Z m / inject_Z (10 ^ scale)) = true <->
  (q * inject_Z (10 ^ scale) < inject_Z m)%Q.
Proof.
  intro Hs. pose proof (pow10_pos scale Hs) as Hd.
  rewrite Qlt_bool_true. split; intro H.
  - apply (Qmult_lt_r _ _ _ Hd) in H.
    assert (E : (inject_Z m / inject_Z (10 ^ scale) * inject_Z (10 ^ scale)
                 == inject_Z m)%Q) by (field; lra).
    rewrite E in H. exact H.
  - apply Qlt_shift_div_l; assumption.
Qed.

Lemma bool_eq_iff (a b : bool) : (a = true <-> b = true) -> a = b.
Proof. destruct a, b; intros [H1 H2]; auto; symmetry; auto. Qed.

Lemma holds_lt_zero_decimal (scale : Z) (c : option Z) :
  (0 <= scale)%Z ->
  holds (lt (of_decimal scale c) (lit 0)) = stored_negative c.
Proof.
  intro Hs. destruct c as [m|]; [| reflexivity]. simpl.
  apply bool_eq_iff.
  destruct (Qlt_bool (inject_Z m / inject_Z (10 ^ scale)) 0) eqn:E.
  - apply (decimal_lt scale m 0 Hs) in E.
    setoid_replace (0 * inject_Z (10 ^ scale))%Q with (inject_Z 0) in E by ring.
    rewrite <- Zlt_Qlt in E. split; [intros _; apply Z.ltb_lt; exact E | reflexivity].
  - split; [discriminate |]. intro H. apply Z.ltb_lt in H.
    assert (Hq : Qlt_bool (inject_Z m / inject_Z (10 ^ scale)) 0 = true).
    { apply (decimal_lt scale m 0 Hs).
      setoid_replace (0 * inject_Z (10 ^ scale))%Q with (inject_Z 0) by ring.
      rewrite <- Zlt_Qlt. exact H. }
    congruence.
Qed.

Lemma holds_or3 (a b : tri) : holds (or3 a b) = holds a || holds b.
Proof. destruct a as [[|]|], b as [[|]|]; reflexivity. Qed.

Lemma negative_amounts_spec (r : fact_credit_metrics_qtr) :
  holds (Validator.negative_amounts r) = Spec_negative_amounts r.
Proof.
  unfold Validator.negative_amounts, Spec_negative_amounts.
  rewrite holds_or3. unfold origination_amt, balance_amt.
  rewrite !holds_lt_zero_decimal by lia. reflexivity.
Qed.

Lemma holds_cmp (b : bool) : holds (Some b) = b.
Proof. destruct b; reflexivity. Qed.

Lemma holds_gt_one_rate (c : option Z) :
  holds (gt (of_decimal 4 c) (lit 1))
  = match c with Some m => (10000 <? m)%Z | None => false end.
Proof.
  destruct c as [m|]; [| reflexivity].
  unfold of_decimal, option_map, gt, lit, cmp2. rewrite holds_cmp.
  apply bool_eq_iff. rewrite (decimal_gt 4 m 1) by lia.
  setoid_replace (1 * inject_Z (10 ^ 4))%Q with (inject_Z 10000)
    by (vm_compute; reflexivity).
  rewrite <- Zlt_Qlt. symmetry. apply Z.ltb_lt.
Qed.

Lemma invalid_default_rate_spec (r : fact_credit_metrics_qtr) :
  holds (Validator.invalid_default_rate r) = Spec_rate_out_of_range r.
Proof.
  unfold Validator.invalid_default_rate, Spec_rate_out_of_range.
  rewrite holds_or3. unfold default_rate.
  rewrite holds_lt_zero_decimal by lia. rewrite holds_gt_one_rate.
  destruct (f_default_rate r) as [m|]; reflexivity.
Qed.

Lemma filter_eq {A} (p1 p2 : A -> bool) (l : list A) :
  (forall a, p1 a = p2 a) -> filter p1 l = filter p2 l.
Proof.
  intro H. induction l as [|a l IH]; simpl; [reflexivity |].
  rewrite H, IH. reflexivity.
Qed.

Lemma MAX_date_latest (l : list date) :
  match Validator.MAX_date l with
  | None => l = []
  | Some m => In m l /\ forall x, In x l -> (x <= m)%Z
  end.
Proof.
  destruct l as [|x l]; simpl; [reflexivity |].
  revert x. induction l as [|y l IH]; intro x; simpl.
  - split; [left; reflexivity | intros z [E | []]; lia].
  - destruct (IH x) as [Hin Hmax]. split.
    + destruct (Z.max_spec y (fold_right Z.max x l)) as [[_ ->] | [_ ->]].
      * destruct Hin as [<- | Hin]; [left; reflexivity | right; right; exact Hin].
      * right. left. reflexivity.
    + intros z [E | [E | Hz]].
      * specialize (Hmax x (or_introl eq_refl)). lia.
      * lia.
      * specialize (Hmax z (or_intror Hz)). lia.
Qed.

Lemma period_ends_join (db : Rollup.database) (e : date) :
  In e (flat_map (fun f0 =>
          map d_quarter_end
            (filter (fun d0 => (f_quarter_key f0 =? d_quarter_key d0)%Z)
                    (Rollup.tbl_dim_date_qtr db))) (Rollup.tbl_fact db)) <->
  exists fr dt, In fr (Rollup.tbl_fact db) /\ In dt (Rollup.tbl_dim_date_qtr db) /\
                f_quarter_key fr = d_quarter_key dt /\ d_quarter_end dt = e.
Proof.
  rewrite in_flat_map. split.
  - intros (fr & Hfr & H). apply in_map_iff in H. destruct H as (dt & <- & H).
    apply filter_In in H. destruct H as [Hd E]. apply Z.eqb_eq in E.
    exists fr, dt. auto.
  - intros (fr & dt & Hfr & Hd & E & <-). exists fr. split; [exact Hfr |].
    apply in_map. apply filter_In. split; [exact Hd | apply Z.eqb_eq; exact E].
Qed.

(** C9: on every session state the validator succeeds and leaves the state as
    it was; its three counts are 0 for NULL quarter keys, the number of rows
    with a negative amount and the number of rows with a default rate outside
    [0, 1]; the freshness row carries the latest quarter_end among the quarters
    fact rows refer to and its distance in days from the current date (both
    NULL when there is none); on an empty fact table the three counts are 0. *)
Theorem ValidateOLAPDataQuality_read_only_total
    (CURDATE : date) (s : Rollup.session) :
  exists issues fresh,
    Validator.ValidateOLAPDataQuality CURDATE s = (s, Ok (issues, fresh)) /\
    map Validator.Issue_Count issues =
      [ 0%Z;
        Z.of_nat (List.length (filter Spec_negative_amounts
                                 (Rollup.tbl_fact (Rollup.current s))));
        Z.of_nat (List.length (filter Spec_rate_out_of_range
                                 (Rollup.tbl_fact (Rollup.current s)))) ] /\
    match Validator.Latest_Data_Date fresh with
    | Some latest =>
        (exists fr dt,
            In fr (Rollup.tbl_fact (Rollup.current s)) /\
            In dt (Rollup.tbl_dim_date_qtr (Rollup.current s)) /\
            f_quarter_key fr = d_quarter_key dt /\ d_quarter_end dt = latest) /\
        (forall fr dt,
            In fr (Rollup.tbl_fact (Rollup.current s)) ->
            In dt (Rollup.tbl_dim_date_qtr (Rollup.current s)) ->
            f_quarter_key fr = d_quarter_key dt ->
            (d_quarter_end dt <= latest)%Z) /\
        Validator.Days_Old fresh = Some (CURDATE - latest)%Z
    | None =>
        (forall fr dt,
            In fr (Rollup.tbl_fact (Rollup.current s)) ->
            In dt (Rollup.tbl_dim_date_qtr (Rollup.current s)) ->
            f_quarter_key fr <> d_quarter_key dt) /\
        Validator.Days_Old fresh = None
    end /\
    (Rollup.tbl_fact (Rollup.current s) = [] ->
     map Validator.Issue_Count issues = [0%Z; 0%Z; 0%Z]).
Proof.
  eexists. eexists. split; [reflexivity |]. simpl.
  set (db := Rollup.current s).
  split; [| split].
  - unfold Validator.COUNT_where, COUNT_star.
    rewrite (filter_eq _ _ _ negative_amounts_spec).
    rewrite (filter_eq _ _ _ invalid_default_rate_spec).
    f_equal.
    assert (E : filter (fun r => holds (Validator.quarter_key_is_null r))
                       (Rollup.tbl_fact db) = []).
    { induction (Rollup.tbl_fact db) as [|x l IH]; simpl; [reflexivity | exact IH]. }
    rewrite E. reflexivity.
  - pose proof (MAX_date_latest (flat_map (fun f0 =>
          map d_quarter_end
            (filter (fun d0 => (f_quarter_key f0 =? d_quarter_key d0)%Z)
                    (Rollup.tbl_dim_date_qtr db))) (Rollup.tbl_fact db))) as H.
    destruct (Validator.MAX_date _) as [latest|] eqn:E.
    + destruct H as [Hin Hmax]. split; [| split].
      * apply period_ends_join. exact Hin.
      * intros fr dt Hfr Hdt Hk. apply Hmax. apply period_ends_join.
        exists fr, dt. auto.
      * reflexivity.
    + split; [| reflexivity].
      intros fr dt Hfr Hdt Hk.
      assert (Hin : In (d_quarter_end dt) []).
      { rewrite <- H. apply period_ends_join. exists fr, dt. auto. }
      exact Hin.
  - intro Hempty. fold db in Hempty. rewrite Hempty. reflexivity.
Qed.

(** ** The self-heal block *)

Section HealerIdempotent.

Variable rowset : Type.
Variable add_column_rows : Healer.column -> rowset -> rowset.
Variable modify_rows : Healer.column -> rowset -> result rowset.
Variable unique_rows : list string -> rowset -> bool.

Local Notation "'table'" := (Healer.table rowset).
Local Notation "'columns'" := (Healer.columns rowset).
Local Notation "'indexes'" := (Healer.indexes rowset).
Local Notation "'execute'" :=
  (Healer.execute rowset add_column_rows modify_rows unique_rows).
Local Notation "'prepare_execute'" :=
  (Healer.prepare_execute rowset add_column_rows modify_rows unique_rows).
Local Notation "'self_heal'" :=
  (Healer.self_heal rowset add_column_rows modify_rows unique_rows).
Local Notation "'col_exists'" := (Healer.col_exists rowset).
Local Notation "'has_prodnum'" := (Healer.has_prodnum rowset).
Local Notation "'idx_exists'" := (Healer.idx_exists rowset).
Local Notation "'names'" := (Healer.names rowset).
Local Notation "'healed'" := (Healer.healed rowset).

Lemma COUNT_star_zero {A} (l : list A) : COUNT_star l = 0%Z <-> l = [].
Proof.
  unfold COUNT_star. destruct l; simpl; split; try reflexivity; try discriminate; lia.
Qed.

Lemma col_exists_zero (t : table) (name : string) :
  col_exists t name = 0%Z <-> ~ In name (names t).
Proof.
  unfold Healer.col_exists, Healer.names. rewrite COUNT_star_zero.
  induction (columns t) as [|c l IH]; simpl.
  - tauto.
  - destruct (String.eqb (Healer.COLUMN_NAME c) name) eqn:E.
    + apply String.eqb_eq in E. split; [discriminate | intro H; exfalso; auto].
    + apply String.eqb_neq in E. rewrite IH. tauto.
Qed.

Lemma execute_keeps_names (st : Healer.statement) (t t' : table) (name : string) :
  execute st t = Ok t' -> In name (names t) -> In name (names t').
Proof.
  unfold Healer.names. destruct st as [c | c | k cols |]; simpl.
  - destruct (Healer.has_column rowset t (Healer.COLUMN_NAME c)); [discriminate |].
    intros H Hin. injection H as <-. simpl. rewrite map_app.
    apply in_or_app. left. exact Hin.
  - destruct (negb _); [discriminate |].
    destruct (_ && _); [discriminate |].
    destruct (modify_rows c (Healer.rows rowset t)) as [rs|e]; simpl; [| discriminate].
    intros H Hin. injection H as <-. simpl. rewrite map_map.
    apply in_map_iff in Hin. destruct Hin as (c0 & <- & Hc0).
    apply in_map_iff. exists c0. split; [| exact Hc0].
    destruct (String.eqb (Healer.COLUMN_NAME c0) (Healer.COLUMN_NAME c)) eqn:E;
      [apply String.eqb_eq in E; symmetry; exact E | reflexivity].
  - destruct (existsb _ _); [discriminate |].
    destruct (negb _); [discriminate |].
    destruct (negb _); [discriminate |].
    intros H Hin. injection H as <-. exact Hin.
  - intros H Hin. injection H as <-. exact Hin.
Qed.

(** After the conditional ADD COLUMN the column is there. *)
Lemma add_column_present (name : string) (t t' : table) :
  execute (Healer.sql_add_column rowset name t) t = Ok t' -> In name (names t').
Proof.
  unfold Healer.sql_add_column.
  destruct (col_exists t name =? 0)%Z eqn:E.
  - simpl. destruct (Healer.has_column rowset t name); [discriminate |].
    intro H. injection H as <-. unfold Healer.names. simpl. rewrite map_app.
    apply in_or_app. right. left. reflexivity.
  - simpl. intro H. injection H as <-.
    apply Z.eqb_neq in E. rewrite col_exists_zero in E.
    destruct (in_dec string_dec name (names t)); [assumption | contradiction].
Qed.

(** After the conditional MODIFY no NOT NULL product_number is counted once. *)
Lemma relax_product_number_done (t t' : table) :
  execute (Healer.sql_relax_product_number rowset t) t = Ok t' ->
  has_prodnum t' <> 1%Z.
Proof.
  unfold Healer.sql_relax_product_number.
  destruct (has_prodnum t =? 1)%Z eqn:E.
  - simpl. destruct (negb _); [discriminate |].
    destruct (Healer.in_primary_key rowset t "product_number"); [discriminate |].
    destruct (modify_rows _ _) as [rs|e]; simpl; [| discriminate].
    intro H. injection H as <-. unfold Healer.has_prodnum. simpl.
    assert (Hnil : forall l,
      filter (fun c => String.eqb (Healer.COLUMN_NAME c) "product_number"
                       && negb (Healer.IS_NULLABLE c))
        (map (fun c0 => if String.eqb (Healer.COLUMN_NAME c0) "product_number"
                        then {| Healer.COLUMN_NAME := "product_number";
                                Healer.COLUMN_TYPE := "INT";
                                Healer.IS_NULLABLE := true |}
                        else c0) l) = []).
    { induction l as [|c l IH]; simpl; [reflexivity |].
      destruct (String.eqb (Healer.COLUMN_NAME c) "product_number") eqn:En; simpl.
      - exact IH.
      - rewrite En. simpl. exact IH. }
    rewrite Hnil. discriminate.
  - simpl. intro H. injection H as <-. apply Z.eqb_neq. exact E.
Qed.

(** After the conditional ADD UNIQUE KEY the index is listed, and the columns
    are as before. *)
Lemma unique_key_present (t t' : table) :
  execute (Healer.sql_unique_key rowset t) t = Ok t' ->
  idx_exists t' <> 0%Z /\ columns t' = columns t.
Proof.
  unfold Healer.sql_unique_key.
  destruct (idx_exists t =? 0)%Z eqn:E.
  - simpl. destruct (existsb _ _); [discriminate |].
    destruct (negb _); [discriminate |].
    destruct (negb _); [discriminate |].
    intro H. injection H as <-. simpl. split; [| reflexivity].
    unfold Healer.idx_exists. simpl. rewrite filter_app, flat_map_app. simpl.
    unfold COUNT_star. rewrite length_app. simpl. lia.
  - simpl. intro H. injection H as <-. split; [| reflexivity].
    apply Z.eqb_neq. exact E.
Qed.

Lemma prepare_execute_Ok (sql : table -> Healer.statement)
    (t : table) (done : list Healer.statement) (a : table * list Healer.statement) :
  prepare_execute sql (t, done) = Ok a ->
  execute (sql t) t = Ok (fst a) /\ snd a = (done ++ [sql t])%list.
Proof.
  unfold Healer.prepare_execute.
  destruct (execute (sql t) t) as [t'|e]; simpl; [| discriminate].
  intro H. injection H as <-. auto.
Qed.

Lemma self_heal_healed (t t' : table) (done : list Healer.statement) :
  self_heal t = Ok (t', done) -> healed t'.
Proof.
  unfold Healer.self_heal. intro H.
  apply rbind_Ok in H. destruct H as ([t1 d1] & E1 & H).
  apply rbind_Ok in H. destruct H as ([t2 d2] & E2 & H).
  apply rbind_Ok in H. destruct H as ([t3 d3] & E3 & H).
  apply rbind_Ok in H. destruct H as ([t4 d4] & E4 & H).
  apply prepare_execute_Ok in E1, E2, E3, E4, H. simpl in *.
  destruct E1 as [X1 _], E2 as [X2 _], E3 as [X3 _], E4 as [X4 _], H as [X5 _].
  pose proof (add_column_present _ _ _ X1) as C1.
  pose proof (add_column_present _ _ _ X2) as C2.
  pose proof (add_column_present _ _ _ X3) as C3.
  pose proof (relax_product_number_done _ _ X4) as C4.
  destruct (unique_key_present _ _ X5) as [C5 Hcols].
  assert (Hn : names t' = names t4)
    by (unfold Healer.names; rewrite Hcols; reflexivity).
  unfold Healer.healed. rewrite Hn.
  repeat split.
  - eapply execute_keeps_names; [exact X4 |].
    eapply execute_keeps_names; [exact X3 |].
    eapply execute_keeps_names; [exact X2 | exact C1].
  - eapply execute_keeps_names; [exact X4 |].
    eapply execute_keeps_names; [exact X3 | exact C2].
  - eapply execute_keeps_names; [exact X4 | exact C3].
  - unfold Healer.has_prodnum. rewrite Hcols. exact C4.
  - exact C5.
Qed.

Lemma healed_no_op (t : table) :
  healed t ->
  self_heal t = Ok (t, [Healer.DO_0; Healer.DO_0; Healer.DO_0; Healer.DO_0; Healer.DO_0]).
Proof.
  intros (H1 & H2 & H3 & H4 & H5).
  assert (E : forall name, In name (names t) ->
                Healer.sql_add_column rowset name t = Healer.DO_0).
  { intros name Hin. unfold Healer.sql_add_column.
    destruct (col_exists t name =? 0)%Z eqn:E; [| reflexivity].
    apply Z.eqb_eq in E. apply col_exists_zero in E. contradiction. }
  unfold Healer.self_heal, Healer.prepare_execute.
  rewrite (E _ H1). simpl. rewrite (E _ H2). simpl. rewrite (E _ H3). simpl.
  unfold Healer.sql_relax_product_number.
  apply Z.eqb_neq in H4. rewrite H4. simpl.
  unfold Healer.sql_unique_key.
  apply Z.eqb_neq in H5. rewrite H5. simpl. reflexivity.
Qed.

(** C7: when the self-heal block has run on a table without error, running
    it again on the resulting table executes [DO 0] five times: no corrective
    action, and the table (columns, indexes, rows) is the same. *)
Theorem self_heal_idempotent (t t' : table) (done : list Healer.statement) :
  self_heal t = Ok (t', done) ->
  exists done',
    self_heal t' = Ok (t', done') /\
    done' = [Healer.DO_0; Healer.DO_0; Healer.DO_0; Healer.DO_0; Healer.DO_0] /\
    Healer.actions done' = [].
Proof.
  intro H. eexists. split; [| split; reflexivity].
  apply healed_no_op. exact (self_heal_healed _ _ _ H).
Qed.

End HealerIdempotent.

(** The legacy table: the first run adds three columns, relaxes
    product_number and adds the key; the second run does nothing. *)
Lemma self_heal_idempotent_witness :
  exists t' done,
    Healer.self_heal legacy_rows append_null_cell keep_cells no_duplicate_key
      legacy_dim_product = Ok (t', done) /\
    List.length (Healer.actions done) = 5%nat /\
    exists done',
      Healer.self_heal legacy_rows append_null_cell keep_cells no_duplicate_key t'
        = Ok (t', done') /\
      Healer.actions done' = [].
Proof.
  eexists. eexists. split; [reflexivity |]. split; [reflexivity |].
  destruct (self_heal_idempotent legacy_rows append_null_cell keep_cells
              no_duplicate_key legacy_dim_product _ _ eq_refl)
    as (done' & H1 & _ & H3).
  exists done'. split; [exact H1 | exact H3].
Defined.

(* ------------------------------------------------------------------ *)
(** * Further properties *)

Import Spec2.

(** ** The risk account measures *)

Lemma or_zero_SUM (l : list num) : or_zero (SUM l) = Qsum (non_null l).
Proof.
  unfold SUM. destruct (non_null l); reflexivity.
Qed.

Lemma default_rate_null (r : fact_credit_metrics_qtr) :
  is_null (default_rate r) = is_null (f_default_rate r).
Proof.
  unfold default_rate, of_decimal. destruct (f_default_rate r); reflexivity.
Qed.

(** X1: The three account measures split a row's originations_cnt by the bucket
    of [riskCategory]: the measure of the row's bucket carries the count, the
    other two carry 0, and a row with a NULL default rate carries 0 in all
    three. *)
Theorem risk_accounts_follow_riskCategory (r : fact_credit_metrics_qtr) :
  (Cube.riskCategory (default_rate r) = "High Risk" ->
     CubeMeasures.highRiskAccounts_sql r = originations_cnt r /\
     CubeMeasures.mediumRiskAccounts_sql r = Some 0%Q /\
     CubeMeasures.lowRiskAccounts_sql r = Some 0%Q) /\
  (Cube.riskCategory (default_rate r) = "Medium Risk" ->
     CubeMeasures.highRiskAccounts_sql r = Some 0%Q /\
     CubeMeasures.mediumRiskAccounts_sql r = originations_cnt r /\
     CubeMeasures.lowRiskAccounts_sql r = Some 0%Q) /\
  (Cube.riskCategory (default_rate r) = "Low Risk" ->
     CubeMeasures.highRiskAccounts_sql r = Some 0%Q /\
     CubeMeasures.mediumRiskAccounts_sql r = Some 0%Q /\
     CubeMeasures.lowRiskAccounts_sql r = originations_cnt r) /\
  (Cube.riskCategory (default_rate r) = "Unknown" ->
     default_rate r = None /\
     CubeMeasures.highRiskAccounts_sql r = Some 0%Q /\
     CubeMeasures.mediumRiskAccounts_sql r = Some 0%Q /\
     CubeMeasures.lowRiskAccounts_sql r = Some 0%Q).
Proof.
  unfold CubeMeasures.highRiskAccounts_sql, CubeMeasures.mediumRiskAccounts_sql,
    CubeMeasures.lowRiskAccounts_sql, Cube.riskCategory.
  destruct (default_rate r) as [q|].
  - unfold between, gt, lt, le, ge, lit, cmp2, and3, holds.
    destruct (Qlt_bool 0.05 q) eqn:E1; destruct (Qle_bool 0.02 q) eqn:E2;
      destruct (Qle_bool q 0.05) eqn:E3; destruct (Qlt_bool q 0.02) eqn:E4;
      qcases; try (exfalso; lra);
      repeat split; intros; try discriminate; reflexivity.
  - simpl. repeat split; intros; try discriminate; reflexivity.
Qed.

Lemma Qsum_non_null_cons (x : num) (l : list num) :
  (Qsum (non_null (x :: l)) == or_zero x + Qsum (non_null l))%Q.
Proof.
  destruct x as [q|]; simpl; [reflexivity | ring].
Qed.

Lemma risk_accounts_row_sum (r : fact_credit_metrics_qtr) :
  (or_zero (CubeMeasures.highRiskAccounts_sql r)
   + or_zero (CubeMeasures.mediumRiskAccounts_sql r)
   + or_zero (CubeMeasures.lowRiskAccounts_sql r)
   == if is_null (f_default_rate r) then 0 else or_zero (originations_cnt r))%Q.
Proof.
  rewrite <- default_rate_null.
  unfold CubeMeasures.highRiskAccounts_sql, CubeMeasures.mediumRiskAccounts_sql,
    CubeMeasures.lowRiskAccounts_sql.
  destruct (default_rate r) as [q|]; [| simpl; ring].
  unfold between, gt, lt, le, ge, lit, cmp2, and3, holds, is_null.
  destruct (Qlt_bool 0.05 q) eqn:E1; destruct (Qle_bool 0.02 q) eqn:E2;
    destruct (Qle_bool q 0.05) eqn:E3; destruct (Qlt_bool q 0.02) eqn:E4;
    qcases; try (exfalso; lra); simpl; ring.
Qed.

(** X2: Over any group of rows the high, medium and low risk accounts add up to
    the total originations of the rows whose default rate is not NULL (a NULL
    sum read as 0): every such account is counted once, and the accounts of
    rows without a default rate are counted in none of the three. *)
Theorem risk_accounts_add_up (G : list fact_credit_metrics_qtr) :
  (or_zero (CubeMeasures.highRiskAccounts G)
   + or_zero (CubeMeasures.mediumRiskAccounts G)
   + or_zero (CubeMeasures.lowRiskAccounts G)
   == or_zero (CubeMeasures.totalOriginations (rated G)))%Q.
Proof.
  unfold CubeMeasures.highRiskAccounts, CubeMeasures.mediumRiskAccounts,
    CubeMeasures.lowRiskAccounts, CubeMeasures.totalOriginations.
  rewrite !or_zero_SUM.
  induction G as [|r G IH].
  - reflexivity.
  - cbn [map]. rewrite !Qsum_non_null_cons.
    pose proof (risk_accounts_row_sum r) as Hr.
    unfold rated in *. cbn [filter].
    destruct (is_null (f_default_rate r)); cbn [negb map].
    + rewrite <- IH. lra.
    + rewrite Qsum_non_null_cons, <- IH. lra.
Qed.

(** ** The health score as a function of the rate *)

Lemma portfolioHealthScore_value (r : Q) :
  exists s, Cube.portfolioHealthScore (Some r) = Some s /\
    (0 <= s)%Q /\ (s <= 100)%Q /\
    ((r <= 0.02)%Q -> (s == 100)%Q) /\
    ((0.02 < r)%Q -> (r <= 0.05)%Q -> (s == 80 - (r - 0.02) * 1000)%Q) /\
    ((0.05 < r)%Q -> (r <= 0.10)%Q -> (s == 50 - (r - 0.05) * 1000)%Q) /\
    ((0.10 < r)%Q -> (s == 0)%Q).
Proof.
  unfold Cube.portfolioHealthScore, le, lit, cmp2, holds, sub, mul, lift2.
  destruct (Qle_bool r 0.02) eqn:E1; [| destruct (Qle_bool r 0.05) eqn:E2;
    [| destruct (Qle_bool r 0.10) eqn:E3]]; qcases;
    eexists; (split; [reflexivity |]);
    repeat split; intros; try lra.
Qed.

(** X5: The health score never leaves [0, 100] and never rises with the default
    rate; for a NULL default rate every comparison is NULL and the score is
    0, the value of the worst rates. *)
Theorem portfolioHealthScore_monotone (r1 r2 : Q) :
  (r1 <= r2)%Q ->
  exists s1 s2,
    Cube.portfolioHealthScore (Some r1) = Some s1 /\
    Cube.portfolioHealthScore (Some r2) = Some s2 /\
    (0 <= s2)%Q /\ (s2 <= s1)%Q /\ (s1 <= 100)%Q /\
    Cube.portfolioHealthScore None = Some 0%Q.
Proof.
  intro H.
  destruct (portfolioHealthScore_value r1) as (s1 & E1 & L1 & U1 & A1 & B1 & C1 & D1).
  destruct (portfolioHealthScore_value r2) as (s2 & E2 & L2 & U2 & A2 & B2 & C2 & D2).
  exists s1, s2. repeat split; try assumption.
  destruct (Qlt_le_dec 0.02 r1) as [a1|a1];
    destruct (Qlt_le_dec 0.05 r1) as [b1|b1];
    destruct (Qlt_le_dec 0.10 r1) as [c1|c1];
    destruct (Qlt_le_dec 0.02 r2) as [a2|a2];
    destruct (Qlt_le_dec 0.05 r2) as [b2|b2];
    destruct (Qlt_le_dec 0.10 r2) as [c2|c2];
    try (exfalso; lra);
    repeat match goal with
    | Hi : (?a < ?b)%Q -> _, Hc : (?a < ?b)%Q |- _ => specialize (Hi Hc)
    | Hi : (?a <= ?b)%Q -> _, Hc : (?a <= ?b)%Q |- _ => specialize (Hi Hc)
    end; lra.
Qed.

(** The rates 0.03 and 0.06: scores 70 and 40. *)
Lemma portfolioHealthScore_monotone_witness :
  exists s1 s2,
    Cube.portfolioHealthScore (Some 0.03%Q) = Some s1 /\
    Cube.portfolioHealthScore (Some 0.06%Q) = Some s2 /\
    (s2 <= s1)%Q.
Proof.
  assert (H : (0.03 <= 0.06)%Q) by (unfold Qle; simpl; lia).
  destruct (portfolioHealthScore_monotone 0.03%Q 0.06%Q H)
    as (s1 & s2 & E1 & E2 & _ & L & _).
  exists s1, s2. auto.
Defined.

(** ** The two three-level risk buckets *)

(** X8: The Cube dimension [riskCategory] and the views' column [risk_category]
    give the same bucket for NULL and for every rate above 0 other than 0.02,
    and different buckets at 0.02 and at every rate that is 0 or negative. *)
Theorem riskCategory_agrees_with_risk_category (default_rate : num) :
  Cube.riskCategory default_rate = Views.risk_category default_rate <->
  match default_rate with
  | None => True
  | Some r => (0 < r)%Q /\ ~ (r == 0.02)%Q
  end.
Proof.
  destruct default_rate as [r|]; [| split; reflexivity].
  unfold Cube.riskCategory, Views.risk_category,
    between, gt, lt, le, ge, lit, cmp2, and3, holds.
  destruct (Qlt_bool 0.05 r) eqn:E1; destruct (Qle_bool 0.02 r) eqn:E2;
    destruct (Qle_bool r 0.05) eqn:E3; destruct (Qlt_bool r 0.02) eqn:E4;
    destruct (Qlt_bool 0.02 r) eqn:E5; destruct (Qlt_bool 0 r) eqn:E6;
    qcases; try (exfalso; lra);
    (split;
     [ intro H; first [discriminate | split; [lra | intro C; lra]]
     | intros [H1 H2];
       first [reflexivity | exfalso; lra | exfalso; apply H2; lra] ]).
Qed.

(** ** The two reporting views *)



(** ** Groups partition the rows *)

Section Groups.

Variable K R : Type.
Variable eqb : K -> K -> bool.
Hypothesis eqb_eq : forall a b, eqb a b = true <-> a = b.
Variable key : R -> K.

Lemma eqb_refl (k : K) : eqb k k = true.
Proof. apply eqb_eq. reflexivity. Qed.

Lemma Zsum_map_add {A} (a b : A -> Z) (l : list A) :
  Zsum (map (fun x => a x + b x)%Z l) = (Zsum (map a l) + Zsum (map b l))%Z.
Proof.
  induction l as [|x l IH]; simpl; [reflexivity |]. rewrite IH. lia.
Qed.

Lemma Zsum_indicator (k0 : K) (z : Z) (ks : list K) :
  NoDup ks -> In k0 ks ->
  Zsum (map (fun k => if eqb k0 k then z else 0%Z) ks) = z.
Proof.
  induction ks as [|k ks IH]; intros Hnd Hin; [contradiction |].
  inversion Hnd as [|? ? Hnotin Hnd']; subst. simpl.
  assert (Hzero : forall l, ~ In k0 l ->
            Zsum (map (fun k => if eqb k0 k then z else 0%Z) l) = 0%Z).
  { induction l as [|x l IHl]; intro Hx; simpl; [reflexivity |].
    destruct (eqb k0 x) eqn:E.
    - apply eqb_eq in E. exfalso. apply Hx. left. symmetry. exact E.
    - rewrite IHl; [reflexivity |]. intro H. apply Hx. right. exact H. }
  destruct Hin as [-> | Hin].
  - rewrite eqb_refl, (Hzero ks Hnotin). lia.
  - destruct (eqb k0 k) eqn:E.
    + apply eqb_eq in E. subst. contradiction.
    + rewrite (IH Hnd' Hin). lia.
Qed.

(** Summing a weight over the groups of a list of keys that holds every key
    once gives the sum over all rows. *)
Lemma Zsum_groups (w : R -> Z) (ks : list K) (rows : list R) :
  NoDup ks -> (forall r, In r rows -> In (key r) ks) ->
  Zsum (map (fun k => Zsum (map w (filter (fun r => eqb (key r) k) rows))) ks)
  = Zsum (map w rows).
Proof.
  intros Hnd. induction rows as [|r rows IH]; intro Hall.
  - simpl. clear Hnd Hall. induction ks as [|k ks IHk]; simpl; [reflexivity |].
    rewrite IHk. reflexivity.
  - assert (E : forall k,
        Zsum (map w (filter (fun r0 => eqb (key r0) k) (r :: rows)))
        = ((if eqb (key r) k then w r else 0)
           + Zsum (map w (filter (fun r0 => eqb (key r0) k) rows)))%Z).
    { intro k. simpl. destruct (eqb (key r) k); simpl; lia. }
    rewrite (map_ext _ _ E), Zsum_map_add, IH.
    + rewrite Zsum_indicator; [reflexivity | exact Hnd |].
      apply Hall. left. reflexivity.
    + intros r0 H0. apply Hall. right. exact H0.
Qed.

Lemma group_by_keys (rows : list R) :
  map fst (group_by eqb key rows) = distinct eqb (map key rows).
Proof.
  unfold group_by. rewrite map_map. simpl. apply map_id.
Qed.

Lemma group_by_nonempty (rows : list R) (k : K) (grp : list R) :
  In (k, grp) (group_by eqb key rows) ->
  grp = filter (fun r => eqb (key r) k) rows /\ grp <> [].
Proof.
  unfold group_by. intro H. apply in_map_iff in H.
  destruct H as (k' & E & Hk). injection E as E1 E2. subst k' grp.
  split; [reflexivity |].
  apply (proj1 (distinct_In _ _ eqb_eq _ _)) in Hk. apply in_map_iff in Hk.
  destruct Hk as (r & Hr & Hin).
  intro Hnil.
  assert (Hm : In r (filter (fun r0 => eqb (key r0) k) rows)).
  { apply filter_In. split; [exact Hin | apply eqb_eq; exact Hr]. }
  rewrite Hnil in Hm. exact Hm.
Qed.

End Groups.

Lemma Zsum_ones {A} (l : list A) :
  Zsum (map (fun _ => 1%Z) l) = Z.of_nat (List.length l).
Proof.
  induction l as [|x l IH]; [reflexivity |].
  change (Zsum (map (fun _ => 1%Z) (x :: l)))
    with (1 + Zsum (map (fun _ : A => 1%Z) l))%Z.
  rewrite IH. change (List.length (x :: l)) with (S (List.length l)). lia.
Qed.

Lemma segment_key_eqb_eq (a b : OlapViews.segment_key) :
  OlapViews.segment_key_eqb a b = true <-> a = b.
Proof.
  destruct a as [[[y1 c1] t1] s1], b as [[[y2 c2] t2] s2].
  unfold OlapViews.segment_key_eqb.
  rewrite !andb_true_iff, Z.eqb_eq, !varchar_eqb_eq. split.
  - intros [[[-> ->] ->] ->]. reflexivity.
  - intro H. injection H as -> -> -> ->. auto.
Qed.

(** X10: [v_credit_metrics_yearly] has one row per (year, country, product_type,
    segment) of the join; every row's quarter_count is at least 1, and the
    quarter_counts add up to the number of rows of the join: each joined fact
    row is counted in exactly one row of the view. *)
Theorem v_credit_metrics_yearly_quarter_count (db : Rollup.database) :
  NoDup (map (fun v => (OlapViews.vy_year v, OlapViews.vy_country v,
                        OlapViews.vy_product_type v, OlapViews.vy_segment v))
             (OlapViews.v_credit_metrics_yearly db)) /\
  (forall k, In k (map OlapViews.segment_key_of (Rollup.from_join db)) <->
             In k (map (fun v => (OlapViews.vy_year v, OlapViews.vy_country v,
                                  OlapViews.vy_product_type v,
                                  OlapViews.vy_segment v))
                       (OlapViews.v_credit_metrics_yearly db))) /\
  (forall v, In v (OlapViews.v_credit_metrics_yearly db) ->
             (1 <= OlapViews.vy_quarter_count v)%Z) /\
  Zsum (map OlapViews.vy_quarter_count (OlapViews.v_credit_metrics_yearly db))
  = COUNT_star (Rollup.from_join db).
Proof.
  unfold OlapViews.v_credit_metrics_yearly.
  set (J := Rollup.from_join db).
  assert (Hk : map (fun v => (OlapViews.vy_year v, OlapViews.vy_country v,
                              OlapViews.vy_product_type v, OlapViews.vy_segment v))
                 (map OlapViews.v_credit_metrics_yearly_select
                    (group_by OlapViews.segment_key_eqb OlapViews.segment_key_of J))
               = distinct OlapViews.segment_key_eqb
                   (map OlapViews.segment_key_of J)).
  { rewrite <- (group_by_keys _ _ OlapViews.segment_key_eqb
                  OlapViews.segment_key_of J).
    rewrite map_map. apply map_ext. intros [[[[y c] t] s] grp]. reflexivity. }
  split; [| split; [| split]].
  - rewrite Hk. apply (distinct_NoDup _ _ segment_key_eqb_eq).
  - intro k. rewrite Hk. symmetry. apply (distinct_In _ _ segment_key_eqb_eq).
  - intros v Hv. apply in_map_iff in Hv. destruct Hv as ([k grp] & <- & Hin).
    apply (group_by_nonempty _ _ _ segment_key_eqb_eq) in Hin.
    destruct Hin as [_ Hne]. destruct k as [[[y c] t] s]. simpl.
    unfold COUNT_star. destruct grp; [contradiction | simpl; lia].
  - unfold group_by. rewrite !map_map.
    assert (E : forall k,
        OlapViews.vy_quarter_count
          (OlapViews.v_credit_metrics_yearly_select
             (k, filter (fun r => OlapViews.segment_key_eqb
                                    (OlapViews.segment_key_of r) k) J))
        = Zsum (map (fun _ => 1%Z)
                  (filter (fun r => OlapViews.segment_key_eqb
                                      (OlapViews.segment_key_of r) k) J))).
    { intros [[[y c] t] s]. simpl. unfold COUNT_star.
      symmetry. apply Zsum_ones. }
    rewrite (map_ext _ _ E).
    rewrite (Zsum_groups _ _ _ segment_key_eqb_eq OlapViews.segment_key_of
               (fun _ => 1%Z)).
    + unfold COUNT_star. apply Zsum_ones.
    + apply (distinct_NoDup _ _ segment_key_eqb_eq).
    + intros r Hr. apply (distinct_In _ _ segment_key_eqb_eq).
      apply in_map. exact Hr.
Qed.

(** ** Outcomes of the refresh procedures *)

Lemma pk_unique_NoDup {K R} (eqb : K -> K -> bool) (pk : R -> K) (T : list R) :
  (forall a b, eqb a b = true <-> a = b) ->
  NoDup (map pk T) -> Rollup.pk_unique eqb pk T = true.
Proof.
  intros eqb_eq. induction T as [|r T IH]; simpl; intro Hnd; [reflexivity |].
  inversion Hnd as [|? ? Hnotin Hnd']; subst.
  rewrite (IH Hnd'), andb_true_r, negb_true_iff.
  destruct (existsb _ T) eqn:E; [| reflexivity].
  apply existsb_exists in E. destruct E as (r' & Hin & E).
  apply eqb_eq in E. exfalso. apply Hnotin. rewrite E. apply in_map. exact Hin.
Qed.

Lemma yearly_rows_keys (db : Rollup.database)
    (rows : list Rollup.agg_credit_metrics_yearly) :
  rmap Rollup.yearly_row (Rollup.yearly_groups db) = Ok rows ->
  map Rollup.yearly_pk rows
  = distinct Rollup.yearly_key_eqb
      (map Rollup.yearly_key_of (Rollup.from_join db)).
Proof.
  intro H. apply rmap_Forall2 in H.
  unfold Rollup.yearly_groups, group_by in H.
  set (keys := distinct Rollup.yearly_key_eqb
                 (map Rollup.yearly_key_of (Rollup.from_join db))) in *.
  clearbody keys. revert rows H.
  induction keys as [|k keys IH]; intros rows H; inversion H; subst; simpl.
  - reflexivity.
  - f_equal; [| apply IH; assumption].
    match goal with Hr : Rollup.yearly_row _ = Ok _ |- _ =>
      apply yearly_row_Ok in Hr; apply Hr end.
Qed.

Lemma insert_yearly_into_empty (db : Rollup.database) :
  Rollup.insert_yearly (Rollup.with_agg_yearly [] db)
  = match rmap Rollup.yearly_row (Rollup.yearly_groups db) with
    | Ok rows => Ok (Rollup.with_agg_yearly rows db)
    | Err e => Err e
    end.
Proof.
  unfold Rollup.insert_yearly.
  change (Rollup.yearly_groups (Rollup.with_agg_yearly [] db))
    with (Rollup.yearly_groups db).
  destruct (rmap Rollup.yearly_row (Rollup.yearly_groups db)) as [rows|e] eqn:E;
    [| reflexivity].
  cbn [rbind]. simpl app.
  rewrite (pk_unique_NoDup _ _ _ yearly_key_eqb_eq).
  - reflexivity.
  - rewrite (yearly_rows_keys db rows E).
    apply (distinct_NoDup _ _ yearly_key_eqb_eq).
Qed.

(** What [RefreshOLAPAggregations] leaves behind, whether it succeeds or not:
    no open transaction, and a committed database that is the one it read
    with the yearly rollup replaced, by the stored rows on success and by the
    empty table on an error. *)
Lemma RefreshOLAPAggregations_outcome (s : Rollup.session) :
  Rollup.pending (fst (Rollup.RefreshOLAPAggregations s)) = None /\
  match rmap Rollup.yearly_row (Rollup.yearly_groups (Rollup.current s)) with
  | Ok rows =>
      snd (Rollup.RefreshOLAPAggregations s)
        = Ok "OLAP aggregations refreshed successfully" /\
      Rollup.committed (fst (Rollup.RefreshOLAPAggregations s))
        = Rollup.with_agg_yearly rows (Rollup.current s)
  | Err e =>
      snd (Rollup.RefreshOLAPAggregations s) = Err e /\
      Rollup.committed (fst (Rollup.RefreshOLAPAggregations s))
        = Rollup.with_agg_yearly [] (Rollup.current s)
  end.
Proof.
  unfold Rollup.RefreshOLAPAggregations, Rollup.bind, Rollup.truncate,
    Rollup.dml, Rollup.ret. cbv zeta.
  rewrite committed_implicit_commit.
  set (s1 := Rollup.publish (Rollup.with_agg_yearly [] (Rollup.current s))
               (Rollup.implicit_commit s)).
  change (Rollup.current s1) with (Rollup.with_agg_yearly [] (Rollup.current s)).
  change (Rollup.pending s1) with (@None Rollup.database).
  rewrite insert_yearly_into_empty.
  destruct (rmap Rollup.yearly_row (Rollup.yearly_groups (Rollup.current s)))
    as [rows|e]; simpl; auto.
Qed.

(** The same for [RefreshAllAggregations]: an error of the yearly INSERT
    leaves the yearly rollup empty, an error of the quarterly INSERT leaves
    the new yearly rollup and an empty quarterly rollup. *)
Lemma RefreshAllAggregations_outcome (STDDEV : list num -> num)
    (s s' : Rollup.session) (r : result (list string)) :
  Rollup.RefreshAllAggregations STDDEV s = (s', r) ->
  Rollup.pending s' = None /\
  match rmap Rollup.yearly_row (Rollup.yearly_groups (Rollup.current s)) with
  | Err e =>
      r = Err e /\
      Rollup.committed s' = Rollup.with_agg_yearly [] (Rollup.current s)
  | Ok rows =>
      match Rollup.insert_quarterly STDDEV
              (Rollup.with_agg_quarterly []
                 (Rollup.with_agg_yearly rows (Rollup.current s))) with
      | Err e =>
          r = Err e /\
          Rollup.committed s'
            = Rollup.with_agg_quarterly []
                (Rollup.with_agg_yearly rows (Rollup.current s))
      | Ok w =>
          r = Ok ["OLAP aggregations refreshed successfully";
                  "All aggregations refreshed successfully"] /\
          Rollup.committed s' = w
      end
  end.
Proof.
  intro H.
  unfold Rollup.RefreshAllAggregations, Rollup.exit_handler, Rollup.bind,
    Rollup.START_TRANSACTION, Rollup.truncate, Rollup.dml, Rollup.COMMIT,
    Rollup.ROLLBACK, Rollup.RESIGNAL, Rollup.ret in H.
  cbv zeta in H.
  match type of H with
  | context [Rollup.RefreshOLAPAggregations ?x] =>
      pose proof (RefreshOLAPAggregations_outcome x) as [Hp Hout];
      assert (Hs0 : Rollup.current x = Rollup.current s)
        by (unfold Rollup.current at 1; simpl; apply committed_implicit_commit);
      rewrite Hs0 in Hout;
      destruct (Rollup.RefreshOLAPAggregations x) as [s1 r1]
  end.
  cbn [fst snd] in Hp, Hout.
  destruct (rmap Rollup.yearly_row (Rollup.yearly_groups (Rollup.current s)))
    as [rows|e].
  - destruct Hout as [-> Hc].
    assert (Hi : Rollup.implicit_commit s1 = s1).
    { unfold Rollup.implicit_commit. rewrite Hp. reflexivity. }
    rewrite !Hi, Hc in H.
    set (db1 := Rollup.with_agg_yearly rows (Rollup.current s)) in *.
    set (s2 := Rollup.publish (Rollup.with_agg_quarterly [] db1) s1) in *.
    change (Rollup.current s2) with (Rollup.with_agg_quarterly [] db1) in H.
    change (Rollup.pending s2) with (@None Rollup.database) in H.
    destruct (Rollup.insert_quarterly STDDEV (Rollup.with_agg_quarterly [] db1))
      as [w|e]; simpl in H; injection H as <- <-; simpl; auto.
  - destruct Hout as [-> Hc]. simpl in H. injection H as <- <-. simpl. auto.
Qed.

Lemma insert_quarterly_Ok (STDDEV : list num -> num) (db w : Rollup.database) :
  Rollup.insert_quarterly STDDEV db = Ok w ->
  exists qrows,
    rmap (Rollup.quarterly_row STDDEV) (Rollup.quarterly_groups db) = Ok qrows /\
    w = Rollup.with_agg_quarterly (Rollup.tbl_agg_quarterly db ++ qrows)%list db.
Proof.
  unfold Rollup.insert_quarterly. intro H.
  apply rbind_Ok in H. destruct H as (qrows & Hq & H).
  destruct (Rollup.pk_unique _ _ _); [| discriminate].
  injection H as <-. exists qrows. auto.
Qed.

Lemma RefreshAllAggregations_source (STDDEV : list num -> num)
    (s0 : Rollup.session) :
  source (Rollup.current (fst (Rollup.RefreshAllAggregations STDDEV s0)))
  = source (Rollup.current s0).
Proof.
  destruct (Rollup.RefreshAllAggregations STDDEV s0) as [s' r] eqn:ER.
  pose proof (RefreshAllAggregations_outcome STDDEV s0 s' r ER) as [Hp Hout].
  cbn [fst]. unfold Rollup.current at 1. rewrite Hp.
  destruct (rmap Rollup.yearly_row (Rollup.yearly_groups (Rollup.current s0)))
    as [rows|e].
  - destruct (Rollup.insert_quarterly STDDEV _) as [w|e] eqn:E.
    + destruct Hout as [_ ->]. apply insert_quarterly_Ok in E.
      destruct E as (qrows & _ & ->). reflexivity.
    + destruct Hout as [_ ->]. reflexivity.
  - destruct Hout as [_ ->]. reflexivity.
Qed.

(** X11: [RefreshOLAPAggregations], [RefreshAllAggregations] and
    [OptimizeDataWarehouse] never change the fact table or a dimension table,
    whether they succeed or raise, and [RefreshOLAPAggregations] never changes
    the quarterly rollup. *)
Theorem refresh_keeps_source (STDDEV : list num -> num) (s : Rollup.session) :
  source (Rollup.current (fst (Rollup.RefreshOLAPAggregations s)))
    = source (Rollup.current s) /\
  Rollup.tbl_agg_quarterly (Rollup.current (fst (Rollup.RefreshOLAPAggregations s)))
    = Rollup.tbl_agg_quarterly (Rollup.current s) /\
  source (Rollup.current (fst (Rollup.RefreshAllAggregations STDDEV s)))
    = source (Rollup.current s) /\
  source (Rollup.current (fst (Maintenance.OptimizeDataWarehouse STDDEV s)))
    = source (Rollup.current s).
Proof.
  pose proof (RefreshAllAggregations_source STDDEV) as HA.
  pose proof (RefreshOLAPAggregations_outcome s) as [Hp Hout].
  split; [| split; [| split]].
  - unfold Rollup.current at 1. rewrite Hp.
    destruct (rmap Rollup.yearly_row (Rollup.yearly_groups (Rollup.current s)));
      destruct Hout as [_ ->]; reflexivity.
  - unfold Rollup.current at 1. rewrite Hp.
    destruct (rmap Rollup.yearly_row (Rollup.yearly_groups (Rollup.current s)));
      destruct Hout as [_ ->]; reflexivity.
  - apply HA.
  - unfold Maintenance.OptimizeDataWarehouse, Maintenance.ANALYZE_TABLE,
      Maintenance.OPTIMIZE_TABLE.
    unfold Rollup.bind at 1 2 3 4 5 6 7 8.
    assert (Hi : forall s0, Rollup.implicit_commit (Rollup.implicit_commit s0)
                            = Rollup.implicit_commit s0).
    { intro s0. unfold Rollup.implicit_commit at 1.
      rewrite pending_implicit_commit. reflexivity. }
    rewrite !Hi.
    unfold Rollup.bind, Rollup.ret.
    pose proof (HA (Rollup.implicit_commit s)) as H.
    destruct (Rollup.RefreshAllAggregations STDDEV (Rollup.implicit_commit s))
      as [s' [st|e]]; cbn [fst] in H |- *; rewrite H;
      unfold Rollup.current at 1;
      rewrite pending_implicit_commit, committed_implicit_commit; reflexivity.
Qed.

Lemma source_components (a b : Rollup.database) :
  source a = source b ->
  Rollup.tbl_fact a = Rollup.tbl_fact b /\
  Rollup.tbl_dim_date_qtr a = Rollup.tbl_dim_date_qtr b /\
  Rollup.tbl_dim_geo a = Rollup.tbl_dim_geo b /\
  Rollup.tbl_dim_product a = Rollup.tbl_dim_product b.
Proof. unfold source. intro H. injection H as H1 H2 H3 H4. auto. Qed.

Lemma yearly_groups_source (a b : Rollup.database) :
  source a = source b -> Rollup.yearly_groups a = Rollup.yearly_groups b.
Proof.
  intro H. apply source_components in H. destruct H as (H1 & H2 & H3 & H4).
  unfold Rollup.yearly_groups, Rollup.from_join. rewrite H1, H2, H3, H4.
  reflexivity.
Qed.

Lemma emptied_rollups_source (rows : list Rollup.agg_credit_metrics_yearly)
    (a b : Rollup.database) :
  source a = source b ->
  Rollup.with_agg_quarterly [] (Rollup.with_agg_yearly rows a)
  = Rollup.with_agg_quarterly [] (Rollup.with_agg_yearly rows b).
Proof.
  intro H. apply source_components in H. destruct H as (H1 & H2 & H3 & H4).
  unfold Rollup.with_agg_quarterly, Rollup.with_agg_yearly. simpl.
  rewrite H1, H2, H3, H4. reflexivity.
Qed.

Lemma RefreshAllAggregations_by_source (STDDEV : list num -> num)
    (s s' s1 s2 : Rollup.session) (r1 r2 : result (list string)) :
  source (Rollup.current s) = source (Rollup.current s') ->
  Rollup.RefreshAllAggregations STDDEV s = (s1, r1) ->
  Rollup.RefreshAllAggregations STDDEV s' = (s2, r2) ->
  r1 = r2 /\
  Rollup.tbl_agg_yearly (Rollup.current s1)
    = Rollup.tbl_agg_yearly (Rollup.current s2) /\
  (forall st, r1 = Ok st -> Rollup.current s1 = Rollup.current s2).
Proof.
  intros Hsrc E1 E2.
  apply RefreshAllAggregations_outcome in E1, E2.
  destruct E1 as [P1 O1], E2 as [P2 O2].
  unfold Rollup.current at 1 2 3 4. rewrite P1, P2.
  rewrite <- (yearly_groups_source _ _ Hsrc) in O2.
  destruct (rmap Rollup.yearly_row (Rollup.yearly_groups (Rollup.current s)))
    as [rows|e].
  - rewrite <- (emptied_rollups_source rows _ _ Hsrc) in O2.
    destruct (Rollup.insert_quarterly STDDEV _) as [w|e] eqn:E.
    + destruct O1 as [-> ->], O2 as [-> ->]. auto.
    + destruct O1 as [-> ->], O2 as [-> ->].
      split; [reflexivity |]. split; [reflexivity | discriminate].
  - destruct O1 as [-> ->], O2 as [-> ->].
    split; [reflexivity |]. split; [reflexivity | discriminate].
Qed.

(** X12: The result of [RefreshAllAggregations] does not depend on what the
    rollups held before: from two states with the same fact and dimension
    tables it ends the same way (the same status or the same error) with the
    same yearly rollup, and when it succeeds with the same whole database. *)
Theorem RefreshAllAggregations_forgets_previous_rollups
    (STDDEV : list num -> num) (s s' : Rollup.session) :
  source (Rollup.current s) = source (Rollup.current s') ->
  snd (Rollup.RefreshAllAggregations STDDEV s)
    = snd (Rollup.RefreshAllAggregations STDDEV s') /\
  Rollup.tbl_agg_yearly
    (Rollup.current (fst (Rollup.RefreshAllAggregations STDDEV s)))
  = Rollup.tbl_agg_yearly
      (Rollup.current (fst (Rollup.RefreshAllAggregations STDDEV s'))) /\
  (forall st, snd (Rollup.RefreshAllAggregations STDDEV s) = Ok st ->
     Rollup.current (fst (Rollup.RefreshAllAggregations STDDEV s))
     = Rollup.current (fst (Rollup.RefreshAllAggregations STDDEV s'))).
Proof.
  intro Hsrc.
  destruct (Rollup.RefreshAllAggregations STDDEV s) as [s1 r1] eqn:E1.
  destruct (Rollup.RefreshAllAggregations STDDEV s') as [s2 r2] eqn:E2.
  cbn [fst snd].
  exact (RefreshAllAggregations_by_source STDDEV s s' s1 s2 r1 r2 Hsrc E1 E2).
Qed.

(** Scenario A with and without an earlier rollup row: one result. *)
Lemma RefreshAllAggregations_forgets_previous_rollups_witness :
  Rollup.tbl_agg_yearly
    (Rollup.current (fst (Rollup.RefreshAllAggregations stddev_of_single
                            (Rollup.connect scenario_A_with_rollup))))
  = Rollup.tbl_agg_yearly
      (Rollup.current (fst (Rollup.RefreshAllAggregations stddev_of_single
                              (Rollup.connect scenario_A)))).
Proof.
  apply (RefreshAllAggregations_forgets_previous_rollups stddev_of_single
           (Rollup.connect scenario_A_with_rollup) (Rollup.connect scenario_A)).
  reflexivity.
Defined.

(** X13: [RefreshAllAggregations] is idempotent: run again on the state a
    successful run left, it succeeds with the same status rows and leaves the
    database as it was; no total is counted twice. *)
Theorem RefreshAllAggregations_idempotent (STDDEV : list num -> num)
    (s s1 : Rollup.session) (st : list string) :
  Rollup.RefreshAllAggregations STDDEV s = (s1, Ok st) ->
  exists s2,
    Rollup.RefreshAllAggregations STDDEV s1 = (s2, Ok st) /\
    Rollup.current s2 = Rollup.current s1.
Proof.
  intro H.
  pose proof (RefreshAllAggregations_source STDDEV s) as Hsrc.
  rewrite H in Hsrc. cbn [fst] in Hsrc.
  destruct (Rollup.RefreshAllAggregations STDDEV s1) as [s2 r2] eqn:E2.
  destruct (RefreshAllAggregations_by_source STDDEV s1 s s2 s1 r2 (Ok st)
              Hsrc E2 H) as (-> & _ & Hdb).
  exists s2. split; [reflexivity |]. apply (Hdb st). reflexivity.
Qed.

(** Scenario A refreshed twice with a one-row deviation of zero: the second
    run reports the same two status rows. *)
Lemma RefreshAllAggregations_idempotent_witness :
  exists s2,
    Rollup.RefreshAllAggregations stddev_of_single
      (fst (Rollup.RefreshAllAggregations stddev_of_single
              (Rollup.connect scenario_A)))
    = (s2, Ok ["OLAP aggregations refreshed successfully";
               "All aggregations refreshed successfully"]) /\
    Rollup.current s2
    = Rollup.current (fst (Rollup.RefreshAllAggregations stddev_of_single
                             (Rollup.connect scenario_A))).
Proof.
  apply (RefreshAllAggregations_idempotent stddev_of_single
           (Rollup.connect scenario_A)).
  reflexivity.
Defined.

(** *** The quarterly rollup *)

Lemma round_half_away_mono (x y : Q) :
  (x <= y)%Q -> (round_half_away x <= round_half_away y)%Z.
Proof.
  intro H. unfold round_half_away.
  destruct (Qle_bool 0 x) eqn:Ex; destruct (Qle_bool 0 y) eqn:Ey.
  - apply Qfloor_resp_le. lra.
  - apply Qle_bool_iff in Ex. apply Qle_bool_false in Ey. lra.
  - apply Qle_bool_false in Ex. apply Qle_bool_iff in Ey.
    assert (H1 : (0 <= Qfloor (- x + (1 # 2)))%Z).
    { change 0%Z with (Qfloor 0). apply Qfloor_resp_le. lra. }
    assert (H2 : (0 <= Qfloor (y + (1 # 2)))%Z).
    { change 0%Z with (Qfloor 0). apply Qfloor_resp_le. lra. }
    lia.
  - assert (H1 : (Qfloor (- y + (1 # 2)) <= Qfloor (- x + (1 # 2)))%Z).
    { apply Qfloor_resp_le. lra. }
    lia.
Qed.

Lemma Qleast_le_all (x : Q) (v : list Q) (e : Q) :
  In e (x :: v) -> (fold_right Qleast x v <= e)%Q.
Proof.
  induction v as [|a v IH]; simpl.
  - intros [<- | []]. lra.
  - intros [<- | [<- | Hin]]; unfold Qleast at 1;
      destruct (Qle_bool a (fold_right Qleast x v)) eqn:E;
      try (apply Qle_bool_iff in E); try (apply Qle_bool_false in E).
    + assert (IH' := IH (or_introl eq_refl)). lra.
    + apply IH. left. reflexivity.
    + lra.
    + lra.
    + assert (IH' := IH (or_intror Hin)). lra.
    + apply IH. right. exact Hin.
Qed.

Lemma Qmost_ge_all (x : Q) (v : list Q) (e : Q) :
  In e (x :: v) -> (e <= fold_right Qmost x v)%Q.
Proof.
  induction v as [|a v IH]; simpl.
  - intros [<- | []]. lra.
  - intros [<- | [<- | Hin]]; unfold Qmost at 1;
      destruct (Qle_bool a (fold_right Qmost x v)) eqn:E;
      try (apply Qle_bool_iff in E); try (apply Qle_bool_false in E).
    + apply IH. left. reflexivity.
    + assert (IH' := IH (or_introl eq_refl)). lra.
    + lra.
    + lra.
    + apply IH. right. exact Hin.
    + assert (IH' := IH (or_intror Hin)). lra.
Qed.

Lemma Qsum_bounds (lo hi : Q) (l : list Q) :
  (forall e, In e l -> (lo <= e /\ e <= hi)%Q) ->
  (lo * inject_Z (Z.of_nat (List.length l)) <= Qsum l /\
   Qsum l <= hi * inject_Z (Z.of_nat (List.length l)))%Q.
Proof.
  induction l as [|a l IH]; intro H.
  - change (Qsum []) with 0%Q.
    change (inject_Z (Z.of_nat (List.length (@nil Q)))) with 0%Q. lra.
  - assert (Ha := H a (or_introl eq_refl)).
    assert (Hl := IH (fun e He => H e (or_intror He))).
    change (Qsum (a :: l)) with (a + Qsum l)%Q.
    assert (En : (inject_Z (Z.of_nat (List.length (a :: l)))
                  == 1 + inject_Z (Z.of_nat (List.length l)))%Q).
    { change (List.length (a :: l)) with (S (List.length l)).
      rewrite Nat2Z.inj_succ. unfold Z.succ. rewrite inject_Z_plus.
      change (inject_Z 1) with 1%Q. ring. }
    rewrite En. lra.
Qed.

(** MIN, AVG and MAX of one column: NULL together, else in this order. *)
Lemma MIN_AVG_MAX (l : list num) :
  match MIN l, AVG l, MAX l with
  | Some lo, Some a, Some hi => (lo <= a /\ a <= hi)%Q
  | None, None, None => True
  | _, _, _ => False
  end.
Proof.
  unfold MIN, AVG, MAX. destruct (non_null l) as [|x v]; [exact I |].
  set (n := inject_Z (Z.of_nat (List.length (x :: v)))).
  assert (Hn : (0 < n)%Q).
  { unfold n. change 0%Q with (inject_Z 0). rewrite <- Zlt_Qlt.
    simpl List.length. lia. }
  destruct (Qsum_bounds (fold_right Qleast x v) (fold_right Qmost x v) (x :: v))
    as [H1 H2].
  { intros e He. split; [apply Qleast_le_all | apply Qmost_ge_all]; exact He. }
  fold n in H1, H2.
  split.
  - apply Qle_shift_div_l; assumption.
  - apply Qle_shift_div_r; assumption.
Qed.

Lemma store_decimal_mono (c1 c2 : string) (digits scale : Z) (x y : Q)
    (cx cy : option Z) :
  (0 <= scale)%Z -> (x <= y)%Q ->
  store_decimal c1 digits scale (Some x) = Ok cx ->
  store_decimal c2 digits scale (Some y) = Ok cy ->
  exists a b, cx = Some a /\ cy = Some b /\ (a <= b)%Z.
Proof.
  intros Hs Hxy. unfold store_decimal.
  destruct (_ <? _)%Z; [| discriminate].
  destruct (_ <? _)%Z; [| discriminate].
  intros Hx Hy. injection Hx as <-. injection Hy as <-.
  eexists. eexists. split; [reflexivity |]. split; [reflexivity |].
  apply round_half_away_mono.
  apply Qmult_le_compat_r; [exact Hxy |].
  apply Qlt_le_weak. apply pow10_pos. exact Hs.
Qed.

Lemma store_decimal_null (c : string) (digits scale : Z) (cx : option Z) :
  store_decimal c digits scale None = Ok cx -> cx = None.
Proof. simpl. intro H. injection H as <-. reflexivity. Qed.

Lemma quarterly_row_Ok (STDDEV : list num -> num) (k : Rollup.quarterly_key)
    (grp : list joined) (row : Rollup.agg_credit_metrics_quarterly) :
  Rollup.quarterly_row STDDEV (k, grp) = Ok row ->
  (Rollup.q_year row, Rollup.q_quarter row, Rollup.q_quarter_key row,
   Some (Rollup.q_country row), Some (Rollup.q_product_type row))
  = (let '(y, n, qk, c, t) := k in (Some y, Some n, qk, c, t)) /\
  store_decimal "avg_default_rate" 9 4 (AVG (Rollup.col default_rate grp))
    = Ok (Rollup.q_avg_default_rate row) /\
  store_decimal "min_default_rate" 9 4 (MIN (Rollup.col default_rate grp))
    = Ok (Rollup.q_min_default_rate row) /\
  store_decimal "max_default_rate" 9 4 (MAX (Rollup.col default_rate grp))
    = Ok (Rollup.q_max_default_rate row).
Proof.
  destruct k as [[[[year quarter] quarter_key] country] product_type].
  unfold Rollup.quarterly_row. intro H.
  apply rbind_Ok in H. destruct H as (c & Hc & H).
  apply rbind_Ok in H. destruct H as (t & Ht & H).
  apply rbind_Ok in H. destruct H as (oc & Hoc & H).
  apply rbind_Ok in H. destruct H as (oa & Hoa & H).
  apply rbind_Ok in H. destruct H as (ba & Hba & H).
  apply rbind_Ok in H. destruct H as (dr & Hdr & H).
  apply rbind_Ok in H. destruct H as (pr & Hpr & H).
  apply rbind_Ok in H. destruct H as (lr & Hlr & H).
  apply rbind_Ok in H. destruct H as (mn & Hmn & H).
  apply rbind_Ok in H. destruct H as (mx & Hmx & H).
  apply rbind_Ok in H. destruct H as (sd & Hsd & H).
  injection H as <-. cbn.
  destruct country as [country|]; [| discriminate].
  destruct product_type as [product_type|]; [| discriminate].
  injection Hc as <-. injection Ht as <-. auto.
Qed.

Lemma pk_unique_true {K R} (eqb : K -> K -> bool) (pk : R -> K) (T : list R) :
  (forall a b, eqb a b = true <-> a = b) ->
  Rollup.pk_unique eqb pk T = true -> NoDup (map pk T).
Proof.
  intros eqb_eq. induction T as [|r T IH]; simpl; intro H; [constructor |].
  apply andb_true_iff in H. destruct H as [H1 H2].
  apply negb_true_iff in H1. constructor; [| apply IH; exact H2].
  intro Hin. apply in_map_iff in Hin. destruct Hin as (r' & E & Hin).
  assert (Hex : existsb (fun r'0 => eqb (pk r) (pk r'0)) T = true).
  { apply existsb_exists. exists r'. split; [exact Hin |].
    apply eqb_eq. symmetry. exact E. }
  rewrite Hex in H1. discriminate.
Qed.

Lemma quarterly_row_rates (STDDEV : list num -> num) (k : Rollup.quarterly_key)
    (grp : list joined) (row : Rollup.agg_credit_metrics_quarterly) :
  Rollup.quarterly_row STDDEV (k, grp) = Ok row -> rates_in_order row.
Proof.
  intro H. apply quarterly_row_Ok in H. destruct H as (_ & Ha & Hlo & Hhi).
  unfold rates_in_order.
  pose proof (MIN_AVG_MAX (Rollup.col default_rate grp)) as M.
  destruct (MIN (Rollup.col default_rate grp)) as [lo|];
    destruct (AVG (Rollup.col default_rate grp)) as [a|];
    destruct (MAX (Rollup.col default_rate grp)) as [hi|];
    try contradiction.
  - destruct M as [M1 M2].
    assert (H4 : (0 <= 4)%Z) by lia.
    destruct (store_decimal_mono _ _ _ _ _ _ _ _ H4 M1 Hlo Ha)
      as (x & y & Ex & Ey & Hxy).
    destruct (store_decimal_mono _ _ _ _ _ _ _ _ H4 M2 Ha Hhi)
      as (y' & z & Ey' & Ez & Hyz).
    rewrite Ex, Ey, Ez. rewrite Ey in Ey'. injection Ey' as Ey'. lia.
  - apply store_decimal_null in Ha, Hlo, Hhi. rewrite Ha, Hlo, Hhi. exact I.
Qed.

Lemma quarterly_rows_keys (STDDEV : list num -> num)
    (groups : list (Rollup.quarterly_key * list joined))
    (rows : list Rollup.agg_credit_metrics_quarterly) :
  rmap (Rollup.quarterly_row STDDEV) groups = Ok rows ->
  map stored_quarterly_key rows = map as_stored (map fst groups) /\
  Forall rates_in_order rows.
Proof.
  intro H. apply rmap_Forall2 in H.
  induction H as [|[k grp] row groups rows Hrow _ [IH1 IH2]].
  - split; constructor.
  - split.
    + cbn [map fst]. rewrite IH1. f_equal.
      apply quarterly_row_Ok in Hrow. destruct Hrow as [Hk _].
      unfold stored_quarterly_key, as_stored. exact Hk.
    + constructor; [| exact IH2].
      apply (quarterly_row_rates STDDEV k grp). exact Hrow.
Qed.

Lemma quarterly_key_eqb_eq (a b : Rollup.quarterly_key) :
  Rollup.quarterly_key_eqb a b = true <-> a = b.
Proof.
  destruct a as [[[[y1 n1] k1] c1] t1], b as [[[[y2 n2] k2] c2] t2].
  unfold Rollup.quarterly_key_eqb.
  rewrite !andb_true_iff, !Z.eqb_eq, !varchar_eqb_eq. split.
  - intros [[[[-> ->] ->] ->] ->]. reflexivity.
  - intro H. injection H as -> -> -> -> ->. auto.
Qed.

Lemma as_stored_inj (k k' : Rollup.quarterly_key) :
  as_stored k = as_stored k' -> k = k'.
Proof.
  destruct k as [[[[y1 n1] k1] c1] t1], k' as [[[[y2 n2] k2] c2] t2].
  unfold as_stored. intro H. injection H as -> -> -> -> ->. reflexivity.
Qed.

Lemma NoDup_map_injective {A B} (fn : A -> B) (l : list A) :
  (forall a b, fn a = fn b -> a = b) -> NoDup l -> NoDup (map fn l).
Proof.
  intros Hinj Hnd. induction Hnd as [|a l Hnotin _ IH]; simpl; constructor.
  - intro Hin. apply in_map_iff in Hin. destruct Hin as (b & E & Hb).
    apply Hinj in E. subst b. contradiction.
  - exact IH.
Qed.

(** X14: After a successful [RefreshAllAggregations] the quarterly rollup
    holds exactly one row for each (year, quarter, quarter_key, country,
    product_type) of the star join and no other row; no two rows share the
    primary key (quarter_key, country, product_type); and in every row the
    stored minimum, average and maximum default rate are NULL together or in
    this order. *)
Theorem quarterly_rollup_after_refresh (STDDEV : list num -> num)
    (s s1 : Rollup.session) (st : list string) :
  Rollup.RefreshAllAggregations STDDEV s = (s1, Ok st) ->
  NoDup (map stored_quarterly_key
           (Rollup.tbl_agg_quarterly (Rollup.current s1))) /\
  (forall k,
     In k (map stored_quarterly_key
             (Rollup.tbl_agg_quarterly (Rollup.current s1))) <->
     In k (map (fun j => as_stored (Rollup.quarterly_key_of j))
             (Rollup.from_join (Rollup.current s)))) /\
  NoDup (map Rollup.quarterly_pk (Rollup.tbl_agg_quarterly (Rollup.current s1))) /\
  Forall rates_in_order (Rollup.tbl_agg_quarterly (Rollup.current s1)).
Proof.
  intro H. apply RefreshAllAggregations_outcome in H. destruct H as [P O].
  assert (Hc : Rollup.current s1 = Rollup.committed s1).
  { unfold Rollup.current. rewrite P. reflexivity. }
  rewrite !Hc. clear Hc.
  destruct (rmap Rollup.yearly_row _) as [rows|e]; [| destruct O; discriminate].
  destruct (Rollup.insert_quarterly STDDEV _) as [w|e] eqn:E;
    [| destruct O; discriminate].
  destruct O as [_ ->].
  unfold Rollup.insert_quarterly in E.
  apply rbind_Ok in E. destruct E as (qrows & Hq & E).
  destruct (Rollup.pk_unique _ _ _) eqn:U; [| discriminate].
  injection E as <-. cbn in U |- *.
  apply quarterly_rows_keys in Hq. destruct Hq as [K1 K2].
  assert (K : map stored_quarterly_key qrows
              = map as_stored
                  (distinct Rollup.quarterly_key_eqb
                     (map Rollup.quarterly_key_of
                        (Rollup.from_join (Rollup.current s))))).
  { rewrite K1. f_equal. unfold Rollup.quarterly_groups, group_by.
    rewrite map_map. simpl. apply map_id. }
  split; [| split; [| split]].
  - rewrite K. apply NoDup_map_injective.
    + exact as_stored_inj.
    + apply distinct_NoDup. exact quarterly_key_eqb_eq.
  - intro k. rewrite K, <- (map_map Rollup.quarterly_key_of as_stored).
    rewrite !in_map_iff. split; intros (k0 & E0 & Hin); exists k0;
      (split; [exact E0 |]);
      apply (distinct_In _ _ quarterly_key_eqb_eq); exact Hin.
  - apply (pk_unique_true _ _ _ yearly_key_eqb_eq). exact U.
  - exact K2.
Qed.

(** Scenario A refreshed with a one-row deviation of zero. *)
Lemma quarterly_rollup_after_refresh_witness :
  Forall rates_in_order
    (Rollup.tbl_agg_quarterly
       (Rollup.current (fst (Rollup.RefreshAllAggregations stddev_of_single
                               (Rollup.connect scenario_A))))).
Proof.
  apply (quarterly_rollup_after_refresh stddev_of_single
           (Rollup.connect scenario_A)
           (fst (Rollup.RefreshAllAggregations stddev_of_single
                   (Rollup.connect scenario_A)))
           ["OLAP aggregations refreshed successfully";
            "All aggregations refreshed successfully"]).
  reflexivity.
Defined.

(** X15: When [RefreshAllAggregations] raises, its handler leaves no transaction
    open, and the committed rollups are in one of two states: the yearly
    INSERT failed, the yearly rollup is empty and the quarterly rollup is as
    before the call; or the quarterly INSERT failed, the yearly rollup is the
    new one and the quarterly rollup is empty.  The ROLLBACK never brings the
    truncated rows back. *)
Theorem RefreshAllAggregations_on_error (STDDEV : list num -> num)
    (s s1 : Rollup.session) (e : sql_error) :
  Rollup.RefreshAllAggregations STDDEV s = (s1, Err e) ->
  Rollup.pending s1 = None /\
  ((Rollup.tbl_agg_yearly (Rollup.committed s1) = [] /\
    Rollup.tbl_agg_quarterly (Rollup.committed s1)
      = Rollup.tbl_agg_quarterly (Rollup.current s)) \/
   (rmap Rollup.yearly_row (Rollup.yearly_groups (Rollup.current s))
      = Ok (Rollup.tbl_agg_yearly (Rollup.committed s1)) /\
    Rollup.tbl_agg_quarterly (Rollup.committed s1) = [])).
Proof.
  intro H. apply RefreshAllAggregations_outcome in H. destruct H as [P O].
  split; [exact P |].
  destruct (rmap Rollup.yearly_row _) as [rows|e1].
  - destruct (Rollup.insert_quarterly STDDEV _) as [w|e2].
    + destruct O as [O _]. discriminate.
    + destruct O as [_ ->]. right. split; reflexivity.
  - destruct O as [_ ->]. left. split; reflexivity.
Qed.

(** The warehouse whose geography row has no country: the yearly INSERT is
    rejected. *)
Lemma RefreshAllAggregations_on_error_witness :
  Rollup.pending (fst (Rollup.RefreshAllAggregations stddev_of_single
                         (Rollup.connect unknown_country_with_rollup))) = None.
Proof.
  apply (RefreshAllAggregations_on_error stddev_of_single
           (Rollup.connect unknown_country_with_rollup)
           (fst (Rollup.RefreshAllAggregations stddev_of_single
                   (Rollup.connect unknown_country_with_rollup)))
           (ER_BAD_NULL_ERROR "country")).
  reflexivity.
Defined.

(** *** The self-heal block of dim_product *)

Section HealerEffect.

Variable rowset : Type.
Variable add_column_rows : Healer.column -> rowset -> rowset.
Variable modify_rows : Healer.column -> rowset -> result rowset.
Variable unique_rows : list string -> rowset -> bool.

Local Notation "'table'" := (Healer.table rowset).
Local Notation "'columns'" := (Healer.columns rowset).
Local Notation "'indexes'" := (Healer.indexes rowset).
Local Notation "'execute'" :=
  (Healer.execute rowset add_column_rows modify_rows unique_rows).
Local Notation "'self_heal'" :=
  (Healer.self_heal rowset add_column_rows modify_rows unique_rows).
Local Notation "'names'" := (Healer.names rowset).
Local Notation "'healed'" := (Healer.healed rowset).

Lemma add_column_effect (name : string) (t t' : table) :
  execute (Healer.sql_add_column rowset name t) t = Ok t' ->
  indexes t' = indexes t /\
  ((Healer.sql_add_column rowset name t = Healer.DO_0 /\
    In name (names t) /\ t' = t) \/
   (Healer.sql_add_column rowset name t
      = Healer.ALTER_ADD_COLUMN (Healer.varchar64 name) /\
    ~ In name (names t) /\
    columns t' = (columns t ++ [Healer.varchar64 name])%list)).
Proof.
  unfold Healer.sql_add_column.
  destruct (Healer.col_exists rowset t name =? 0)%Z eqn:E.
  - simpl. destruct (Healer.has_column rowset t name); [discriminate |].
    intro H. injection H as <-. simpl. split; [reflexivity |]. right.
    split; [reflexivity |]. split; [| reflexivity].
    apply (col_exists_zero rowset add_column_rows modify_rows t name).
    apply Z.eqb_eq. exact E.
  - simpl. intro H. injection H as <-. split; [reflexivity |]. left.
    split; [reflexivity |]. split; [| reflexivity].
    apply Z.eqb_neq in E.
    destruct (in_dec string_dec name (names t)) as [Hin | Hn]; [assumption |].
    exfalso. apply E.
    apply (col_exists_zero rowset add_column_rows modify_rows t name). exact Hn.
Qed.

Lemma relax_product_number_effect (t t' : table) :
  execute (Healer.sql_relax_product_number rowset t) t = Ok t' ->
  indexes t' = indexes t /\
  ((Healer.sql_relax_product_number rowset t = Healer.DO_0 /\
    Healer.has_prodnum rowset t <> 1%Z /\ t' = t) \/
   (Healer.sql_relax_product_number rowset t <> Healer.DO_0 /\
    Healer.has_prodnum rowset t = 1%Z /\
    columns t' = map relaxed (columns t))).
Proof.
  unfold Healer.sql_relax_product_number.
  destruct (Healer.has_prodnum rowset t =? 1)%Z eqn:E.
  - simpl. destruct (negb _); [discriminate |].
    destruct (Healer.in_primary_key rowset t "product_number"); [discriminate |].
    destruct (modify_rows _ _) as [rs|e]; simpl; [| discriminate].
    intro H. injection H as <-. simpl. split; [reflexivity |]. right.
    split; [discriminate |]. split; [apply Z.eqb_eq; exact E | reflexivity].
  - simpl. intro H. injection H as <-. split; [reflexivity |]. left.
    split; [reflexivity |]. split; [apply Z.eqb_neq; exact E | reflexivity].
Qed.

Lemma unique_key_effect (t t' : table) :
  execute (Healer.sql_unique_key rowset t) t = Ok t' ->
  columns t' = columns t /\
  ((Healer.sql_unique_key rowset t = Healer.DO_0 /\
    Healer.idx_exists rowset t <> 0%Z /\ t' = t) \/
   (Healer.sql_unique_key rowset t <> Healer.DO_0 /\
    Healer.idx_exists rowset t = 0%Z /\
    indexes t' = (indexes t ++ [uq_prod])%list)).
Proof.
  unfold Healer.sql_unique_key.
  destruct (Healer.idx_exists rowset t =? 0)%Z eqn:E.
  - simpl. destruct (existsb _ _); [discriminate |].
    destruct (negb _); [discriminate |].
    destruct (negb _); [discriminate |].
    intro H. injection H as <-. simpl. split; [reflexivity |]. right.
    split; [discriminate |]. split; [apply Z.eqb_eq; exact E | reflexivity].
  - simpl. intro H. injection H as <-. split; [reflexivity |]. left.
    split; [reflexivity |]. split; [apply Z.eqb_neq; exact E | reflexivity].
Qed.

Lemma relaxed_required (l : list Healer.column) :
  incl l required_columns -> map relaxed l = l.
Proof.
  induction l as [|c l IH]; intro H; [reflexivity |].
  simpl. rewrite IH by (intros x Hx; apply H; right; exact Hx).
  f_equal. assert (Hc : In c required_columns) by (apply H; left; reflexivity).
  destruct Hc as [<- | [<- | [<- | []]]]; reflexivity.
Qed.

Lemma self_heal_steps (t t' : table) (done : list Healer.statement) :
  self_heal t = Ok (t', done) ->
  exists t1 t2 t3 t4,
    execute (Healer.sql_add_column rowset "product_code" t) t = Ok t1 /\
    execute (Healer.sql_add_column rowset "product_type" t1) t1 = Ok t2 /\
    execute (Healer.sql_add_column rowset "segment" t2) t2 = Ok t3 /\
    execute (Healer.sql_relax_product_number rowset t3) t3 = Ok t4 /\
    execute (Healer.sql_unique_key rowset t4) t4 = Ok t' /\
    done = [Healer.sql_add_column rowset "product_code" t;
            Healer.sql_add_column rowset "product_type" t1;
            Healer.sql_add_column rowset "segment" t2;
            Healer.sql_relax_product_number rowset t3;
            Healer.sql_unique_key rowset t4].
Proof.
  unfold Healer.self_heal. intro H.
  apply rbind_Ok in H. destruct H as ([t1 d1] & E1 & H).
  apply rbind_Ok in H. destruct H as ([t2 d2] & E2 & H).
  apply rbind_Ok in H. destruct H as ([t3 d3] & E3 & H).
  apply rbind_Ok in H. destruct H as ([t4 d4] & E4 & H).
  apply prepare_execute_Ok in E1, E2, E3, E4, H. simpl in *.
  destruct E1 as [X1 ->], E2 as [X2 ->], E3 as [X3 ->], E4 as [X4 ->],
    H as [X5 ->].
  exists t1, t2, t3, t4. repeat (split; [assumption |]). reflexivity.
Qed.

(** X16: A successful run of the self-heal block drops and reorders nothing: the
    columns afterwards are the old ones, as they were or with product_number
    made a nullable INT, followed by those of product_code, product_type and
    segment that were missing, each a nullable VARCHAR(64); the indexes are
    the old ones, followed by [uq_prod] when it was added. *)
Theorem self_heal_only_adds (t t' : table) (done : list Healer.statement) :
  self_heal t = Ok (t', done) ->
  (exists kept added,
     columns t' = (kept ++ added)%list /\
     (kept = columns t \/ kept = map relaxed (columns t)) /\
     incl added required_columns /\
     (forall c, In c added -> ~ In (Healer.COLUMN_NAME c) (names t))) /\
  (indexes t' = indexes t \/ indexes t' = (indexes t ++ [uq_prod])%list).
Proof.
  intro H. apply self_heal_steps in H.
  destruct H as (t1 & t2 & t3 & t4 & X1 & X2 & X3 & X4 & X5 & _).
  apply add_column_effect in X1, X2, X3.
  apply relax_product_number_effect in X4. apply unique_key_effect in X5.
  destruct X1 as [I1 C1], X2 as [I2 C2], X3 as [I3 C3], X4 as [I4 C4],
    X5 as [C5 I5].
  assert (Hadd : exists added,
    columns t3 = (columns t ++ added)%list /\ incl added required_columns /\
    (forall c, In c added -> ~ In (Healer.COLUMN_NAME c) (names t))).
  { assert (S1 : exists a1, columns t1 = (columns t ++ a1)%list /\
                   incl a1 required_columns /\
                   (forall c, In c a1 -> ~ In (Healer.COLUMN_NAME c) (names t))).
    { destruct C1 as [(_ & _ & ->) | (_ & Hn & E)].
      - exists []. rewrite app_nil_r. split; [reflexivity |].
        split; [intros x [] | intros c []].
      - exists [Healer.varchar64 "product_code"]. split; [exact E |]. split.
        + intros x [<- | []]. left. reflexivity.
        + intros c [<- | []]. exact Hn. }
    destruct S1 as (a1 & E1 & N1 & F1).
    assert (S2 : exists a2, columns t2 = (columns t ++ a2)%list /\
                   incl a2 required_columns /\
                   (forall c, In c a2 -> ~ In (Healer.COLUMN_NAME c) (names t))).
    { destruct C2 as [(_ & _ & ->) | (_ & Hn & E)].
      - exists a1. auto.
      - exists (a1 ++ [Healer.varchar64 "product_type"])%list.
        rewrite E, E1, <- app_assoc. split; [reflexivity |]. split.
        + intros x Hx. apply in_app_or in Hx. destruct Hx as [Hx | [<- | []]].
          * apply N1. exact Hx.
          * right. left. reflexivity.
        + intros c Hc. apply in_app_or in Hc. destruct Hc as [Hc | [<- | []]].
          * apply F1. exact Hc.
          * intro Hin. apply Hn. unfold Healer.names. rewrite E1, map_app.
            apply in_or_app. left. exact Hin. }
    destruct S2 as (a2 & E2 & N2 & F2).
    destruct C3 as [(_ & _ & ->) | (_ & Hn & E)].
    - exists a2. auto.
    - exists (a2 ++ [Healer.varchar64 "segment"])%list.
      rewrite E, E2, <- app_assoc. split; [reflexivity |]. split.
      + intros x Hx. apply in_app_or in Hx. destruct Hx as [Hx | [<- | []]].
        * apply N2. exact Hx.
        * right. right. left. reflexivity.
      + intros c Hc. apply in_app_or in Hc. destruct Hc as [Hc | [<- | []]].
        * apply F2. exact Hc.
        * intro Hin. apply Hn. unfold Healer.names. rewrite E2, map_app.
          apply in_or_app. left. exact Hin. }
  destruct Hadd as (added & E3 & N3 & F3).
  split.
  - rewrite C5.
    destruct C4 as [(_ & _ & ->) | (_ & _ & E4)].
    + exists (columns t), added. auto.
    + exists (map relaxed (columns t)), added.
      rewrite E4, E3, map_app, (relaxed_required added N3). auto.
  - destruct I5 as [(_ & _ & ->) | (_ & _ & E5)].
    + left. congruence.
    + right. rewrite E5. congruence.
Qed.

Lemma actions_nil (done : list Healer.statement) :
  Healer.actions done = [] <-> Forall (fun st => st = Healer.DO_0) done.
Proof.
  unfold Healer.actions. induction done as [|st done IH]; simpl.
  - split; [constructor | reflexivity].
  - destruct st; simpl; split; intro H; try discriminate;
      try (inversion H; discriminate).
    + constructor; [reflexivity | apply IH; exact H].
    + inversion H; subst. apply IH. assumption.
Qed.

(** X17: The self-heal block takes a corrective action exactly when one of its
    five conditions is unmet: a successful run executed [DO 0] five times if
    and only if the table already had the three columns, no single NOT NULL
    product_number and the key; and then the table is unchanged. *)
Theorem self_heal_acts_iff_not_healed (t t' : table)
    (done : list Healer.statement) :
  self_heal t = Ok (t', done) ->
  (Healer.actions done = [] <-> healed t) /\
  (Healer.actions done = [] -> t' = t).
Proof.
  intro H. split; [split |].
  - intro Hact. apply actions_nil in Hact.
    apply self_heal_steps in H.
    destruct H as (t1 & t2 & t3 & t4 & X1 & X2 & X3 & X4 & X5 & ->).
    inversion Hact as [|? ? D1 Hact1]; subst.
    inversion Hact1 as [|? ? D2 Hact2]; subst.
    inversion Hact2 as [|? ? D3 Hact3]; subst.
    inversion Hact3 as [|? ? D4 Hact4]; subst.
    inversion Hact4 as [|? ? D5 _]; subst.
    apply add_column_effect in X1, X2, X3.
    apply relax_product_number_effect in X4. apply unique_key_effect in X5.
    destruct X1 as [_ [(_ & N1 & ->) | (E & _)]]; [| congruence].
    destruct X2 as [_ [(_ & N2 & ->) | (E & _)]]; [| congruence].
    destruct X3 as [_ [(_ & N3 & ->) | (E & _)]]; [| congruence].
    destruct X4 as [_ [(_ & N4 & ->) | (E & _)]]; [| congruence].
    destruct X5 as [_ [(_ & N5 & ->) | (E & _)]]; [| congruence].
    unfold Healer.healed. auto.
  - intro Hh.
    rewrite (healed_no_op rowset add_column_rows modify_rows unique_rows t Hh) in H.
    injection H as _ <-. reflexivity.
  - intro Hact. apply actions_nil in Hact.
    apply self_heal_steps in H.
    destruct H as (t1 & t2 & t3 & t4 & X1 & X2 & X3 & X4 & X5 & ->).
    inversion Hact as [|? ? D1 Hact1]; subst.
    inversion Hact1 as [|? ? D2 Hact2]; subst.
    inversion Hact2 as [|? ? D3 Hact3]; subst.
    inversion Hact3 as [|? ? D4 Hact4]; subst.
    inversion Hact4 as [|? ? D5 _]; subst.
    rewrite D1 in X1. rewrite D2 in X2. rewrite D3 in X3. rewrite D4 in X4.
    rewrite D5 in X5. simpl in *. congruence.
Qed.

End HealerEffect.

(** The legacy table: three columns and the key are appended. *)
Lemma self_heal_only_adds_witness :
  exists t' done,
    Healer.self_heal legacy_rows append_null_cell keep_cells no_duplicate_key
      legacy_dim_product = Ok (t', done) /\
    (Healer.indexes legacy_rows t' = Healer.indexes legacy_rows legacy_dim_product \/
     Healer.indexes legacy_rows t'
     = (Healer.indexes legacy_rows legacy_dim_product ++ [uq_prod])%list).
Proof.
  eexists. eexists. split; [reflexivity |].
  apply (self_heal_only_adds legacy_rows append_null_cell keep_cells
           no_duplicate_key legacy_dim_product _ _ eq_refl).
Defined.

(** The legacy table is not healed, and the block acts on it. *)
Lemma self_heal_acts_iff_not_healed_witness :
  exists t' done,
    Healer.self_heal legacy_rows append_null_cell keep_cells no_duplicate_key
      legacy_dim_product = Ok (t', done) /\
    (Healer.actions done = [] <-> Healer.healed legacy_rows legacy_dim_product).
Proof.
  eexists. eexists. split; [reflexivity |].
  apply (self_heal_acts_iff_not_healed legacy_rows append_null_cell keep_cells
           no_duplicate_key legacy_dim_product _ _ eq_refl).
Defined.

(** *** The two rollups against each other *)

Lemma cell_or_zero_SUM_cells (c : fact_credit_metrics_qtr -> option Z)
    (grp : list joined) :
  cell_or_zero (SUM_cells (cells c grp))
  = Zsum (map (fun j => cell_or_zero (c (f j))) grp).
Proof.
  assert (H : Zsum (non_null (cells c grp))
              = Zsum (map (fun j => cell_or_zero (c (f j))) grp)).
  { unfold cells. induction grp as [|j grp IH]; [reflexivity |].
    cbn [map]. unfold non_null in *. cbn [flat_map].
    destruct (c (f j)) as [m|]; simpl; rewrite IH; reflexivity. }
  unfold SUM_cells. rewrite <- H.
  destruct (non_null (cells c grp)); reflexivity.
Qed.

Lemma quarterly_row_totals (STDDEV : list num -> num) (k : Rollup.quarterly_key)
    (grp : list joined) (row : Rollup.agg_credit_metrics_quarterly) :
  Rollup.quarterly_row STDDEV (k, grp) = Ok row ->
  Rollup.q_total_originations_cnt row = SUM_cells (cells f_originations_cnt grp) /\
  Rollup.q_total_origination_amt row = SUM_cells (cells f_origination_amt grp) /\
  Rollup.q_total_balance_amt row = SUM_cells (cells f_balance_amt grp).
Proof.
  destruct k as [[[[year quarter] quarter_key] country] product_type].
  unfold Rollup.quarterly_row. intro H.
  apply rbind_Ok in H. destruct H as (c & Hc & H).
  apply rbind_Ok in H. destruct H as (t & Ht & H).
  apply rbind_Ok in H. destruct H as (oc & Hoc & H).
  apply rbind_Ok in H. destruct H as (oa & Hoa & H).
  apply rbind_Ok in H. destruct H as (ba & Hba & H).
  apply rbind_Ok in H. destruct H as (dr & Hdr & H).
  apply rbind_Ok in H. destruct H as (pr & Hpr & H).
  apply rbind_Ok in H. destruct H as (lr & Hlr & H).
  apply rbind_Ok in H. destruct H as (mn & Hmn & H).
  apply rbind_Ok in H. destruct H as (mx & Hmx & H).
  apply rbind_Ok in H. destruct H as (sd & Hsd & H).
  injection H as <-. cbn.
  assert (Ecol : forall (cell : fact_credit_metrics_qtr -> option Z) scale,
            Rollup.col (fun r => of_decimal scale (cell r)) grp
            = map (of_decimal scale) (cells cell grp)).
  { intros cell scale. unfold Rollup.col, cells. rewrite map_map. reflexivity. }
  assert (Ecnt : Rollup.col originations_cnt grp
                 = map of_bigint (cells f_originations_cnt grp)).
  { unfold Rollup.col, cells, originations_cnt. rewrite map_map. reflexivity. }
  split; [rewrite Ecnt in Hoc; apply (store_bigint_SUM _ _ _ Hoc) |].
  unfold origination_amt, balance_amt in *.
  rewrite Ecol in Hoa, Hba.
  assert (H2 : (0 <= 2)%Z) by lia.
  split; [apply (store_decimal_SUM _ _ 2 _ _ H2 Hoa) |].
  apply (store_decimal_SUM _ _ 2 _ _ H2 Hba).
Qed.

Lemma Zsum_filter {A} (sel : A -> bool) (v : A -> Z) (l : list A) :
  Zsum (map v (filter sel l))
  = Zsum (map (fun a => if sel a then v a else 0%Z) l).
Proof.
  induction l as [|a l IH]; simpl; [reflexivity |].
  destruct (sel a); simpl; rewrite IH; reflexivity.
Qed.

Lemma Zsum_filter_Forall2 {A B} (P : A -> B -> Prop)
    (selA : A -> bool) (selB : B -> bool) (vA : A -> Z) (vB : B -> Z)
    (l : list A) (l' : list B) :
  Forall2 P l l' ->
  (forall a b, P a b -> selA a = selB b /\ vA a = vB b) ->
  Zsum (map vB (filter selB l')) = Zsum (map vA (filter selA l)).
Proof.
  intros H HP. induction H as [|a b l l' Hab _ IH]; [reflexivity |].
  destruct (HP a b Hab) as [Es Ev]. simpl. rewrite Es.
  destruct (selB b); simpl; rewrite IH; [rewrite Ev |]; reflexivity.
Qed.

Lemma Forall2_In_r {A B} (P : A -> B -> Prop) (l : list A) (l' : list B) (b : B) :
  Forall2 P l l' -> In b l' -> exists a, In a l /\ P a b.
Proof.
  intro H. induction H as [|a b0 l l' Hab _ IH]; intro Hin; [contradiction |].
  destruct Hin as [<- | Hin].
  - exists a. split; [left; reflexivity | exact Hab].
  - destruct (IH Hin) as (a' & Ha' & HP). exists a'. split; [right |]; assumption.
Qed.

Lemma Forall2_map_left {A B C} (P : B -> C -> Prop) (g : A -> B)
    (l : list A) (l' : list C) :
  Forall2 P (map g l) l' -> Forall2 (fun a c => P (g a) c) l l'.
Proof.
  revert l'. induction l as [|a l IH]; intros l' H; inversion H; subst;
    constructor; [assumption | apply IH; assumption].
Qed.

Lemma year_segment_of (j : joined) :
  year_segment (Rollup.quarterly_key_of j) = Rollup.yearly_key_of j.
Proof. reflexivity. Qed.

(** The quarterly groups of one year, country and product type split the
    yearly group. *)
Lemma segment_sum (w : joined -> Z) (J : list joined) (kY : Rollup.yearly_key) :
  Zsum (map (fun k => Zsum (map w
               (filter (fun j => Rollup.quarterly_key_eqb (Rollup.quarterly_key_of j) k) J)))
          (filter (fun k => Rollup.yearly_key_eqb (year_segment k) kY)
             (distinct Rollup.quarterly_key_eqb (map Rollup.quarterly_key_of J))))
  = Zsum (map w (filter (fun j => Rollup.yearly_key_eqb (Rollup.yearly_key_of j) kY) J)).
Proof.
  set (ks := distinct Rollup.quarterly_key_eqb (map Rollup.quarterly_key_of J)).
  set (JY := filter (fun j => Rollup.yearly_key_eqb (Rollup.yearly_key_of j) kY) J).
  rewrite (Zsum_filter (fun k => Rollup.yearly_key_eqb (year_segment k) kY)).
  rewrite <- (Zsum_groups _ _ Rollup.quarterly_key_eqb quarterly_key_eqb_eq
                Rollup.quarterly_key_of w ks JY).
  - f_equal. apply map_ext. intro k.
    destruct (Rollup.yearly_key_eqb (year_segment k) kY) eqn:E.
    + f_equal. f_equal. unfold JY.
      clear ks JY. induction J as [|j J IH]; [reflexivity |]. cbn [filter].
      destruct (Rollup.quarterly_key_eqb (Rollup.quarterly_key_of j) k) eqn:Ek.
      * assert (Ej : Rollup.yearly_key_eqb (Rollup.yearly_key_of j) kY = true).
        { rewrite <- year_segment_of.
          rewrite (proj1 (quarterly_key_eqb_eq _ _) Ek). exact E. }
        rewrite Ej. cbn [filter]. rewrite Ek. f_equal. exact IH.
      * destruct (Rollup.yearly_key_eqb (Rollup.yearly_key_of j) kY);
          cbn [filter]; [rewrite Ek |]; exact IH.
    + assert (Hnil : filter (fun j => Rollup.quarterly_key_eqb
                                        (Rollup.quarterly_key_of j) k) JY = []).
      { unfold JY. clear ks JY. induction J as [|j J IH]; [reflexivity |].
        cbn [filter].
        destruct (Rollup.yearly_key_eqb (Rollup.yearly_key_of j) kY) eqn:Ej;
          [| exact IH].
        cbn [filter].
        destruct (Rollup.quarterly_key_eqb (Rollup.quarterly_key_of j) k) eqn:Ek;
          [| exact IH].
        rewrite <- year_segment_of in Ej.
        rewrite (proj1 (quarterly_key_eqb_eq _ _) Ek), E in Ej. discriminate. }
      rewrite Hnil. reflexivity.
  - apply distinct_NoDup. exact quarterly_key_eqb_eq.
  - intros j Hj. unfold JY in Hj. apply filter_In in Hj. destruct Hj as [Hj _].
    apply (proj2 (distinct_In _ _ quarterly_key_eqb_eq _ _)).
    apply in_map. exact Hj.
Qed.

Lemma of_segment_key (STDDEV : list num -> num) (k : Rollup.quarterly_key)
    (grp : list joined) (q : Rollup.agg_credit_metrics_quarterly)
    (Y : Rollup.agg_credit_metrics_yearly) :
  Rollup.quarterly_row STDDEV (k, grp) = Ok q ->
  Rollup.yearly_key_eqb (year_segment k) (Rollup.yearly_pk Y) = of_segment Y q.
Proof.
  intro H. apply quarterly_row_Ok in H. destruct H as [Hk _].
  destruct k as [[[[year quarter] quarter_key] country] product_type].
  injection Hk as E1 _ _ <- <-.
  unfold of_segment, year_segment, Rollup.yearly_pk, Rollup.yearly_key_eqb.
  rewrite E1. reflexivity.
Qed.

(** X18: After a successful [RefreshAllAggregations] the two rollups agree: each
    total of a yearly rollup row (accounts, origination amount, balance) is
    the sum of that total over the quarterly rollup rows of the same year,
    country and product type, a NULL total counting as 0. *)
Theorem yearly_totals_are_quarterly_sums (STDDEV : list num -> num)
    (s s1 : Rollup.session) (st : list string) :
  Rollup.RefreshAllAggregations STDDEV s = (s1, Ok st) ->
  Forall (fun Y =>
      cell_or_zero (Rollup.y_total_originations_cnt Y)
        = quarterly_total Rollup.q_total_originations_cnt Y
            (Rollup.tbl_agg_quarterly (Rollup.current s1)) /\
      cell_or_zero (Rollup.y_total_origination_amt Y)
        = quarterly_total Rollup.q_total_origination_amt Y
            (Rollup.tbl_agg_quarterly (Rollup.current s1)) /\
      cell_or_zero (Rollup.y_total_balance_amt Y)
        = quarterly_total Rollup.q_total_balance_amt Y
            (Rollup.tbl_agg_quarterly (Rollup.current s1)))
    (Rollup.tbl_agg_yearly (Rollup.current s1)).
Proof.
  intro H. apply RefreshAllAggregations_outcome in H. destruct H as [P O].
  assert (Hc : Rollup.current s1 = Rollup.committed s1).
  { unfold Rollup.current. rewrite P. reflexivity. }
  rewrite !Hc. clear Hc.
  destruct (rmap Rollup.yearly_row _) as [rows|e] eqn:HY;
    [| destruct O; discriminate].
  destruct (Rollup.insert_quarterly STDDEV _) as [w|e] eqn:E;
    [| destruct O; discriminate].
  destruct O as [_ ->].
  unfold Rollup.insert_quarterly in E.
  apply rbind_Ok in E. destruct E as (qrows & HQ & E).
  destruct (Rollup.pk_unique _ _ _); [| discriminate].
  injection E as <-. cbn.
  apply rmap_Forall2 in HY, HQ.
  unfold Rollup.quarterly_groups, group_by in HQ.
  change (Rollup.from_join _) with (Rollup.from_join (Rollup.current s)) in HQ.
  unfold Rollup.yearly_groups, group_by in HY.
  set (J := Rollup.from_join (Rollup.current s)) in *.
  apply Forall2_map_left in HQ.
  apply Forall_forall. intros Y HinY.
  destruct (Forall2_In_r _ _ _ Y HY HinY) as ([kY grpY] & Hin & HrowY).
  apply in_map_iff in Hin. destruct Hin as (k0 & E0 & _).
  injection E0 as -> <-.
  apply yearly_row_Ok in HrowY.
  destruct HrowY as (Hpk & T1 & T2 & T3 & _).
  assert (Hsum : forall (cq : Rollup.agg_credit_metrics_quarterly -> option Z)
                        (cf : fact_credit_metrics_qtr -> option Z),
            (forall k grp q, Rollup.quarterly_row STDDEV (k, grp) = Ok q ->
                             cq q = SUM_cells (cells cf grp)) ->
            quarterly_total cq Y qrows
            = cell_or_zero (SUM_cells (cells cf
                (filter (fun j => Rollup.yearly_key_eqb (Rollup.yearly_key_of j) kY) J)))).
  { intros cq cf Hcq. unfold quarterly_total.
    rewrite cell_or_zero_SUM_cells, <- segment_sum.
    apply (Zsum_filter_Forall2 _ _ _ _ _ _ _ HQ).
    intros k q Hq. split.
    - rewrite <- Hpk. apply (of_segment_key STDDEV k _ q Y Hq).
    - rewrite (Hcq _ _ _ Hq). rewrite cell_or_zero_SUM_cells. reflexivity. }
  rewrite T1, T2, T3.
  split; [| split]; symmetry; apply Hsum; intros k grp q Hq;
    apply quarterly_row_totals in Hq; destruct Hq as (Q1 & Q2 & Q3); assumption.
Qed.

(** Scenario A refreshed with a one-row deviation of zero. *)
Lemma yearly_totals_are_quarterly_sums_witness :
  Forall (fun Y =>
      cell_or_zero (Rollup.y_total_originations_cnt Y)
        = quarterly_total Rollup.q_total_originations_cnt Y
            (Rollup.tbl_agg_quarterly
               (Rollup.current (fst (Rollup.RefreshAllAggregations stddev_of_single
                                       (Rollup.connect scenario_A))))) /\
      cell_or_zero (Rollup.y_total_origination_amt Y)
        = quarterly_total Rollup.q_total_origination_amt Y
            (Rollup.tbl_agg_quarterly
               (Rollup.current (fst (Rollup.RefreshAllAggregations stddev_of_single
                                       (Rollup.connect scenario_A))))) /\
      cell_or_zero (Rollup.y_total_balance_amt Y)
        = quarterly_total Rollup.q_total_balance_amt Y
            (Rollup.tbl_agg_quarterly
               (Rollup.current (fst (Rollup.RefreshAllAggregations stddev_of_single
                                       (Rollup.connect scenario_A))))))
    (Rollup.tbl_agg_yearly
       (Rollup.current (fst (Rollup.RefreshAllAggregations stddev_of_single
                               (Rollup.connect scenario_A))))).
Proof.
  apply (yearly_totals_are_quarterly_sums stddev_of_single
           (Rollup.connect scenario_A)
           (fst (Rollup.RefreshAllAggregations stddev_of_single
                   (Rollup.connect scenario_A)))
           ["OLAP aggregations refreshed successfully";
            "All aggregations refreshed successfully"]).
  reflexivity.
Defined.
